(** * TableWriter: a shallow embedding of the Go package and its properties

    The Go package buffers tab separated text and, on [Flush], renders it as a
    bordered table.  This development embeds the package's functions as Rocq
    functions over byte lists and proves properties of them.

    Conventions.
    - A Go [string] or [[]byte] is a [list byte]; [len] is the byte length.
    - A Go [int] is a [Z].  The only integers the package computes are string
      lengths, the terminal width (read from a [uint16]) and sums of a few of
      them, so 64-bit wrap-around never occurs and is not written out.
    - A run-time panic (slice or index out of range, negative repeat count,
      division by zero) is [None]. *)

From Stdlib Require Import ZArith NArith List Lia Bool.
From Stdlib Require Import Strings.Byte Strings.String.
From stdpp Require Import base list option.
Import ListNotations.
Open Scope Z_scope.

(* ================================================================== *)
(** * Go values and the standard library functions the package calls   *)
(* ================================================================== *)

Abbreviation gostring := (list byte).

Definition len {A : Type} (s : list A) : Z := Z.of_nat (length s).

(** A literal: the UTF-8 bytes of the text between the quotes. *)
Definition str (s : string) : gostring := list_byte_of_string s.
Arguments str : simpl never.

Definition ESC : byte := x1b.
Definition TAB : byte := x09.
Definition NL : byte := x0a.
Definition SP : byte := x20.

Definition byteVal (b : byte) : Z := Z.of_N (Byte.to_N b).

Definition toByte (z : Z) : byte :=
  match Byte.of_N (Z.to_N z) with Some b => b | None => x00 end.

(** [for i := 0; i < n; i++ { s = body(s, i) }], stopping at the first panic. *)
Fixpoint loopFrom {S : Type} (body : S -> nat -> option S) (i n : nat) (s : S)
  : option S :=
  match n with
  | O => Some s
  | S n' => s' ← body s i; loopFrom body (Datatypes.S i) n' s'
  end.

Definition forRange {S : Type} (body : S -> nat -> option S) (n : nat) (s : S)
  : option S := loopFrom body 0 n s.

(** [strings.Split(s, sep)] for a one-byte separator. *)
Fixpoint Split (s : gostring) (sep : byte) : list gostring :=
  match s with
  | [] => [[]]
  | b :: s' =>
      if Byte.eqb b sep then [] :: Split s' sep
      else match Split s' sep with
           | f :: fs => (b :: f) :: fs
           | [] => [[b]]
           end
  end.

(** The slice expression [s[:n]]: panics unless [0 <= n <= len(s)]. *)
Definition sliceTo (s : gostring) (n : Z) : option gostring :=
  if (0 <=? n) && (n <=? len s) then Some (take (Z.to_nat n) s) else None.

(** [strings.Repeat(s, count)] and [bytes.Repeat(s, count)]: panic on a
    negative count. *)
Definition Repeat (s : gostring) (count : Z) : option gostring :=
  if count <? 0 then None else Some (concat (replicate (Z.to_nat count) s)).

(** [strings.HasPrefix(s, prefix)]. *)
Fixpoint HasPrefix (s prefix : gostring) : bool :=
  match prefix, s with
  | [], _ => true
  | p :: prefix', b :: s' => Byte.eqb b p && HasPrefix s' prefix'
  | _ :: _, [] => false
  end.

(** ** UTF-8, as package [unicode/utf8] decodes and encodes it *)

Definition RuneError : Z := 0xFFFD.

Definition inRange (lo hi : Z) (b : byte) : bool :=
  (lo <=? byteVal b) && (byteVal b <=? hi).

(** [utf8.DecodeRuneInString]: the rune at the head of [s] and its width; an
    invalid or short encoding is [RuneError] of width 1. *)
Definition DecodeRune (s : gostring) : Z * nat :=
  match s with
  | [] => (RuneError, 0%nat)
  | b0 :: t =>
      let s0 := byteVal b0 in
      if s0 <? 0x80 then (s0, 1%nat)
      else if (s0 <? 0xC2) || (0xF4 <? s0) then (RuneError, 1%nat)
      else
        let sz : nat :=
          if s0 <? 0xE0 then 2%nat else if s0 <? 0xF0 then 3%nat else 4%nat in
        let lo := if s0 =? 0xE0 then 0xA0 else if s0 =? 0xF0 then 0x90 else 0x80 in
        let hi := if s0 =? 0xED then 0x9F else if s0 =? 0xF4 then 0x8F else 0xBF in
        if (length s <? sz)%nat then (RuneError, 1%nat)
        else
          (* the bytes read below exist: [sz <= length s] *)
          let b1 := nth 0 t x00 in
          let b2 := nth 1 t x00 in
          let b3 := nth 2 t x00 in
          if negb (inRange lo hi b1) then (RuneError, 1%nat)
          else if (sz <=? 2)%nat then
            (Z.lor (Z.shiftl (Z.land s0 0x1F) 6) (Z.land (byteVal b1) 0x3F), 2%nat)
          else if negb (inRange 0x80 0xBF b2) then (RuneError, 1%nat)
          else if (sz <=? 3)%nat then
            (Z.lor (Z.shiftl (Z.land s0 0x0F) 12)
               (Z.lor (Z.shiftl (Z.land (byteVal b1) 0x3F) 6)
                  (Z.land (byteVal b2) 0x3F)), 3%nat)
          else if negb (inRange 0x80 0xBF b3) then (RuneError, 1%nat)
          else
            (Z.lor (Z.shiftl (Z.land s0 0x07) 18)
               (Z.lor (Z.shiftl (Z.land (byteVal b1) 0x3F) 12)
                  (Z.lor (Z.shiftl (Z.land (byteVal b2) 0x3F) 6)
                     (Z.land (byteVal b3) 0x3F))), 4%nat)
  end.

(** [utf8.AppendRune]: the encoding of [r]; a surrogate or out-of-range value
    is encoded as [RuneError]. *)
Definition EncodeRune (r : Z) : gostring :=
  if (0 <=? r) && (r <? 0x80) then [toByte r]
  else if (0 <=? r) && (r <? 0x800) then
    [toByte (Z.lor 0xC0 (Z.shiftr r 6)); toByte (Z.lor 0x80 (Z.land r 0x3F))]
  else if (r <? 0) || (0x10FFFF <? r) || ((0xD800 <=? r) && (r <=? 0xDFFF)) then
    [xef; xbf; xbd]
  else if r <? 0x10000 then
    [toByte (Z.lor 0xE0 (Z.shiftr r 12));
     toByte (Z.lor 0x80 (Z.land (Z.shiftr r 6) 0x3F));
     toByte (Z.lor 0x80 (Z.land r 0x3F))]
  else
    [toByte (Z.lor 0xF0 (Z.shiftr r 18));
     toByte (Z.lor 0x80 (Z.land (Z.shiftr r 12) 0x3F));
     toByte (Z.lor 0x80 (Z.land (Z.shiftr r 6) 0x3F));
     toByte (Z.lor 0x80 (Z.land r 0x3F))].

(** [strings.Map(mapping, s)]: every rune of [s] is replaced by its image; a
    negative image drops the rune.  [fuel] bounds the number of runes. *)
Fixpoint mapRunes (fuel : nat) (mapping : Z -> Z) (s : gostring) : gostring :=
  match fuel with
  | O => []
  | Datatypes.S fuel' =>
      match s with
      | [] => []
      | _ :: _ =>
          let '(c, width) := DecodeRune s in
          let r := mapping c in
          (if r <? 0 then [] else EncodeRune r)
            ++ mapRunes fuel' mapping (drop width s)
      end
  end.

Definition strings_Map (mapping : Z -> Z) (s : gostring) : gostring :=
  mapRunes (length s) mapping s.

(** ** [strings.Replace(s, old, new, -1)] *)

(** The scan for a non-empty [old]: [skip] counts the bytes of an occurrence
    already replaced that are still to be passed over. *)
Fixpoint replaceFrom (old new : gostring) (skip : nat) (s : gostring) : gostring :=
  match s with
  | [] => []
  | b :: s' =>
      match skip with
      | Datatypes.S k => replaceFrom old new k s'
      | O =>
          if HasPrefix s old
          then new ++ replaceFrom old new (length old - 1) s'
          else b :: replaceFrom old new 0 s'
      end
  end.

(** The case of an empty [old]: [new] is inserted before every rune and at the
    end of [s]. *)
Fixpoint insertAtRunes (fuel : nat) (new : gostring) (s : gostring) : gostring :=
  match fuel with
  | O => new
  | Datatypes.S fuel' =>
      match s with
      | [] => new
      | _ :: _ =>
          let width := snd (DecodeRune s) in
          new ++ take width s ++ insertAtRunes fuel' new (drop width s)
      end
  end.

Definition Replace (s old new : gostring) : gostring :=
  match old with
  | [] => insertAtRunes (length s) new s
  | _ :: _ => replaceFrom old new 0 s
  end.

(** ** [regexp.MustCompile(`\033\[[0-9;]+m`).FindAllString(s, -1)] *)

(** The class [[0-9;]]. *)
Definition isCodeByte (b : byte) : bool :=
  inRange 0x30 0x39 b || Byte.eqb b x3b.

(** The longest run of [[0-9;]] at the head of [s], and what follows it. *)
Fixpoint spanCode (s : gostring) : gostring * gostring :=
  match s with
  | b :: s' =>
      if isCodeByte b then let '(run, rest) := spanCode s' in (b :: run, rest)
      else ([], s)
  | [] => ([], [])
  end.

(** The match of the pattern that starts at the head of [s], if any.  The run
    of [[0-9;]] is matched greedily; as [m] is not in the class, no shorter run
    can match. *)
Definition matchColorCode (s : gostring) : option gostring :=
  match s with
  | b0 :: b1 :: t =>
      if Byte.eqb b0 ESC && Byte.eqb b1 x5b then
        let '(run, rest) := spanCode t in
        match run, rest with
        | _ :: _, b :: _ =>
            if Byte.eqb b x6d then Some (b0 :: b1 :: run ++ [b]) else None
        | _, _ => None
        end
      else None
  | _ => None
  end.

(** All leftmost non-overlapping matches, in order; [skip] counts the bytes of
    the last match still to be passed over. *)
Fixpoint findAllFrom (skip : nat) (s : gostring) : list gostring :=
  match s with
  | [] => []
  | _ :: s' =>
      match skip with
      | Datatypes.S k => findAllFrom k s'
      | O =>
          match matchColorCode s with
          | Some m => m :: findAllFrom (length m - 1) s'
          | None => findAllFrom 0 s'
          end
      end
  end.

Definition FindAllString (s : gostring) : list gostring := findAllFrom 0 s.

(* ================================================================== *)
(** * Package TableWriter                                              *)
(* ================================================================== *)

(** The border glyphs ([utils.Dividers]). *)
Record Dividers := mkDividers {
  HLine : gostring;  VLine : gostring;
  TL : gostring;  TR : gostring;  BL : gostring;  BR : gostring;
  Cross : gostring;  TUp : gostring;  TDown : gostring;
  TRight : gostring;  TLeft : gostring;
  VLeft : gostring;  VRight : gostring
}.

(** The configuration flags ([1 << iota]). *)
Definition StripColours : N := 1.
Definition AlignMiddle : N := 2.
Definition AlignRight : N := 4.
Definition RemoveLeastPad : N := 8.
Definition PreserveLongFields : N := 16.
Definition AsciiTable : N := 32.

Record column := mkColumn { textWidth : Z }.

(** The destination [io.Writer], as [Flush] sees it: the answer [(n, err)] of
    its [Write] method to one call, [err] being [true] for a non-nil error. *)
Record ioWriter := mkIoWriter { Write : gostring -> Z * bool }.

Record Writer := mkWriter {
  output : ioWriter;
  dividers : Dividers;
  flags : N;
  termCols : Z;
  buffer : gostring;
  columns : list column;
  lines : list gostring
}.

Definition setColumns (w : Writer) (cs : list column) : Writer :=
  mkWriter (output w) (dividers w) (flags w) (termCols w) (buffer w) cs (lines w).

Definition setLines (w : Writer) (ls : list gostring) : Writer :=
  mkWriter (output w) (dividers w) (flags w) (termCols w) (buffer w) (columns w) ls.

Definition setBuffer (w : Writer) (b : gostring) : Writer :=
  mkWriter (output w) (dividers w) (flags w) (termCols w) b (columns w) (lines w).

(** [w.flags&f != 0]. *)
Definition hasFlag (w : Writer) (f : N) : bool :=
  negb (N.eqb (N.land (flags w) f) 0).

(** [colorlessFields[l][c]], read and written. *)
Definition get2 (cf : list (list gostring)) (l c : nat) : option gostring :=
  row ← cf !! l; row !! c.

Definition set2 (cf : list (list gostring)) (l c : nat) (s : gostring)
  : option (list (list gostring)) :=
  row ← cf !! l;
  if (c <? length row)%nat then Some (<[l := <[c := s]> row]> cf) else None.

(** [Write]: the bytes are appended to the buffer, all of them are reported
    as written. *)
Definition Writer_Write (w : Writer) (buf : gostring) : Writer * Z :=
  (setBuffer w (buffer w ++ buf), len buf).

(** [Clear]. *)
Definition Clear (w : Writer) : Writer :=
  mkWriter (output w) (dividers w) (flags w) (termCols w) [] [] [].

Definition asciiDividers : Dividers :=
  {| HLine := str "-"; VLine := str "|";
     TL := str "+"; TR := str "+"; BL := str "+"; BR := str "+";
     Cross := str "+"; TUp := str "+"; TDown := str "+";
     TRight := []; TLeft := [];
     VLeft := str "+"; VRight := str "+" |}.

Definition boxDividers : Dividers :=
  {| HLine := str "─"; VLine := str "│";
     TL := str "┌"; TR := str "┐"; BL := str "└"; BR := str "┘";
     Cross := str "┼"; TUp := str "┬"; TDown := str "┴";
     TRight := []; TLeft := [];
     VLeft := str "├"; VRight := str "┤" |}.

(** [init]; [cols] is the width [utils.GetTerminalSize] reports for the
    standard output, 0 when the query fails. *)
Definition init (out : ioWriter) (fl : N) (cols : Z) : Writer :=
  Clear
    {| output := out;
       dividers := if negb (N.eqb (N.land fl AsciiTable) 0)
                   then asciiDividers else boxDividers;
       flags := fl; termCols := cols;
       buffer := []; columns := []; lines := [] |}.

Definition NewWriter (out : ioWriter) (fl : N) (cols : Z) : Writer :=
  init out fl cols.

(** [getPadding]. *)
Definition getPadding (w : Writer) (c : nat) (colorlessField : gostring)
  : option (Z * gostring * gostring) :=
  col ← columns w !! c;
  let totalPadding := textWidth col - len colorlessField in
  let totalPadding :=
    if hasFlag w RemoveLeastPad then totalPadding else totalPadding + 1 in
  if negb (hasFlag w PreserveLongFields) then
    if hasFlag w AlignMiddle then
      let totalPadding :=
        if hasFlag w RemoveLeastPad then totalPadding else totalPadding + 1 in
      let halfPadding := Z.quot totalPadding 2 in
      leftPaddingStr ← Repeat [SP] halfPadding;
      rightPaddingStr ← Repeat [SP] (totalPadding - halfPadding);
      Some (totalPadding, leftPaddingStr, rightPaddingStr)
    else if hasFlag w AlignRight then
      leftPaddingStr ← Repeat [SP] totalPadding;
      Some (totalPadding, leftPaddingStr, [])
    else
      rightPaddingStr ← Repeat [SP] totalPadding;
      Some (totalPadding, [], rightPaddingStr)
  else
    Some (0, [], []).

(** [updateHLine]: the new value of [*hLine]. *)
Definition updateHLine (w : Writer) (hLine : gostring) (hLineLength : Z)
    (l : nat) (isLastRow isLastField : bool) : option gostring :=
  let d := dividers w in
  if len (HLine d) =? 0 then None
  else
    let availableTermSpace := termCols w - Z.quot (len hLine) (len (HLine d)) in
    let xDivider :=
      if (l =? 0)%nat && negb isLastField then TUp d
      else if (l =? 0)%nat then TR d
      else if isLastRow && negb isLastField then TDown d
      else if isLastRow then BR d
      else if isLastField then VRight d
      else Cross d in
    let hLine :=
      if isLastField then
        if (l =? 0)%nat then TL d ++ hLine
        else if isLastRow then BL d ++ hLine
        else VLeft d ++ hLine
      else hLine in
    if availableTermSpace >? 0 then
      if availableTermSpace >=? hLineLength then
        run ← Repeat (HLine d) (hLineLength - 1);
        Some (hLine ++ run ++ xDivider)
      else
        run ← Repeat (HLine d) (availableTermSpace - 1);
        Some (hLine ++ run ++ xDivider)
    else Some hLine.

(** The body of the inner loop of [createTable], for field [c] of line [l];
    the state is [(formattedBuffer, hLine, prefixHLine)]. *)
Definition createTableField (w : Writer) (colorlessFields : list (list gostring))
    (l : nat) (fields : list gostring)
    (st : gostring * gostring * gostring) (c : nat)
  : option (gostring * gostring * gostring) :=
  let '(formattedBuffer, hLine, prefixHLine) := st in
  field ← fields !! c;
  field ← (if hasFlag w StripColours then get2 colorlessFields l c else Some field);
  colorless ← get2 colorlessFields l c;
  '(totalPadding, leftPaddingStr, rightPaddingStr) ← getPadding w c colorless;
  let formattedBuffer :=
    if (c =? 0)%nat then
      formattedBuffer ++ VLine (dividers w) ++ leftPaddingStr ++ field
        ++ rightPaddingStr ++ VLine (dividers w)
    else
      formattedBuffer ++ leftPaddingStr ++ field ++ rightPaddingStr
        ++ VLine (dividers w) in
  let hLineLength := len colorless + totalPadding + 1 in
  let isLastRow := Z.of_nat l =? len (lines w) - 1 in
  let isLastField := Z.of_nat c =? len fields - 1 in
  prefixHLine ←
    (if (l =? 0)%nat
     then updateHLine w prefixHLine hLineLength l isLastRow isLastField
     else Some prefixHLine);
  hLine ← updateHLine w hLine hLineLength (l + 1) isLastRow isLastField;
  Some (formattedBuffer, hLine, prefixHLine).

(** The body of the outer loop of [createTable], for line [l]. *)
Definition createTableLine (w : Writer) (colorlessFields : list (list gostring))
    (formattedBuffer : gostring) (l : nat) : option gostring :=
  line ← lines w !! l;
  if len line =? 0 then Some formattedBuffer
  else
    let fields := Split line TAB in
    '(formattedBuffer, hLine, prefixHLine) ←
      forRange (createTableField w colorlessFields l fields) (length fields)
        (formattedBuffer, [], []);
    let formattedBuffer :=
      if (l =? 0)%nat then (prefixHLine ++ [NL]) ++ formattedBuffer
      else formattedBuffer in
    Some (formattedBuffer ++ [NL] ++ hLine ++ [NL]).

(** [createTable]. *)
Definition createTable (w : Writer) (colorlessFields : list (list gostring))
  : option gostring :=
  forRange (createTableLine w colorlessFields) (length (lines w)) [].

(** A field without its colour codes: every match of the pattern is removed
    from the copy, one match after the other, as the loop over
    [escapeColorCodes] does. *)
Definition stripColorCodes (field : gostring) : gostring :=
  fold_left (fun colorless cc => Replace colorless cc [])
    (FindAllString field) field.

Section Palette.

(** [utils.ColorOrange] and [utils.ColorReset] are not among the package's
    files at hand: the two escape sequences are parameters. *)
Variable ColorOrange ColorReset : gostring.

(** [truncateLongField]: the Writer and [colorlessFields] after the call. *)
Definition truncateLongField (w : Writer) (l c : nat) (maxFieldLen : Z)
    (fields : list gostring) (colorlessFields : list (list gostring))
  : option (Writer * list (list gostring)) :=
  if negb (hasFlag w PreserveLongFields) && (termCols w >? 0)
     && (Z.of_nat c =? len fields - 1)
  then
    colorless ← get2 colorlessFields l c;
    if len colorless >? maxFieldLen then
      cut ← sliceTo colorless (maxFieldLen - 5);
      let newColorLessStr := cut ++ str "[...]" in
      field ← fields !! c;
      let newFieldStr :=
        Replace field colorless (cut ++ ColorOrange ++ str "[...]" ++ ColorReset) in
      line ← lines w !! l;
      let w := setLines w (<[l := Replace line field newFieldStr]> (lines w)) in
      colorlessFields ← set2 colorlessFields l c newColorLessStr;
      Some (w, colorlessFields)
    else Some (w, colorlessFields)
  else Some (w, colorlessFields).

(** The body of the inner loop of [createColumns], for field [c] of line [l]. *)
Definition createColumnsField (l : nat) (maxFieldLen : Z) (fields : list gostring)
    (st : Writer * list (list gostring)) (c : nat)
  : option (Writer * list (list gostring)) :=
  let '(w, colorlessFields) := st in
  field ← fields !! c;
  colorlessFields ← set2 colorlessFields l c (stripColorCodes field);
  '(w, colorlessFields) ← truncateLongField w l c maxFieldLen fields colorlessFields;
  colorless ← get2 colorlessFields l c;
  let columnWidth := len colorless in
  col ← columns w !! c;
  if columnWidth >? textWidth col
  then Some (setColumns w (<[c := mkColumn columnWidth]> (columns w)), colorlessFields)
  else Some (w, colorlessFields).

(** The body of the outer loop of [createColumns], for line [l] of the lines
    the [range] clause was evaluated on. *)
Definition createColumnsLine (ranged : list gostring)
    (st : Writer * list (list gostring)) (l : nat)
  : option (Writer * list (list gostring)) :=
  let '(w, colorlessFields) := st in
  line ← ranged !! l;
  if len line =? 0 then Some (w, colorlessFields)
  else
    let fields := Split line TAB in
    let maxFieldLen := Z.quot (termCols w) (len fields) - 3 in
    let w :=
      if len fields >? len (columns w)
      then setColumns w
             (columns w
                ++ replicate (length fields - length (columns w)) (mkColumn 0))
      else w in
    if (l <? length colorlessFields)%nat then
      let colorlessFields :=
        <[l := replicate (length fields) []]> colorlessFields in
      forRange (createColumnsField l maxFieldLen fields) (length fields)
        (w, colorlessFields)
    else None.

(** [createColumns]: the Writer after the call and the returned
    [colorlessFields]. *)
Definition createColumns (w : Writer) : option (Writer * list (list gostring)) :=
  forRange (createColumnsLine (lines w)) (length (lines w))
    (w, replicate (length (lines w)) []).

(** [formatBuffer]. *)
Definition formatBuffer (w : Writer) : option (Writer * gostring) :=
  '(w, colorlessFields) ← createColumns w;
  formattedBuffer ← createTable w colorlessFields;
  Some (w, formattedBuffer).

(** The Unicode tables of package [unicode] belong to the Go distribution:
    membership in the categories Cf, Cc, Mn and Zs, and [unicode.IsSpace],
    are parameters. *)
Variable unicode_Cf unicode_Cc unicode_Mn unicode_Zs : Z -> bool.
Variable unicode_IsSpace : Z -> bool.

(** The function [cleanInvisibleChars] maps over the runes. *)
Definition cleanRune (r : Z) : Z :=
  if (r =? 0x20) || (r =? 0x1b) || (r =? 0x09) || (r =? 0x0a) then r
  else if unicode_Cf r || unicode_Cc r || unicode_Mn r || unicode_Zs r then -1
  else if unicode_IsSpace r then -1
  else r.

(** [cleanInvisibleChars]. *)
Definition cleanInvisibleChars (s : gostring) : gostring :=
  strings_Map cleanRune s.

(** What a call of [Flush] comes to: a panic, or a return that handed
    [written] to the destination and reports [io.ErrShortWrite] or nil. *)
Inductive FlushResult :=
| Panicked
| Returned (written : gostring) (errShortWrite : bool).

(** [Flush]: the Writer after the call and the result.  The deferred
    [Clear] runs on every way out. *)
Definition Flush (w : Writer) : Writer * FlushResult :=
  let cleanedBuffer := cleanInvisibleChars (buffer w) in
  let ls := Split cleanedBuffer NL in
  let ls := if len (List.last ls []) =? 0 then removelast ls else ls in
  let w := setLines w ls in
  match formatBuffer w with
  | None => (Clear w, Panicked)
  | Some (w, formattedBuffer) =>
      let '(n, err) := Write (output w) formattedBuffer in
      (Clear w, Returned formattedBuffer (err || negb (n =? len formattedBuffer)))
  end.

End Palette.

(** Tables and colours to run the functions on: the Unicode tables are Go's
    on the code points up to U+00FF and empty above, the colours are two
    common escape sequences. *)
Definition latin1_Cf (r : Z) : bool := r =? 0xAD.
Definition latin1_Cc (r : Z) : bool :=
  ((0 <=? r) && (r <=? 0x1F)) || ((0x7F <=? r) && (r <=? 0x9F)).
Definition latin1_Mn (r : Z) : bool := false.
Definition latin1_Zs (r : Z) : bool := (r =? 0x20) || (r =? 0xA0).
Definition latin1_IsSpace (r : Z) : bool :=
  ((0x09 <=? r) && (r <=? 0x0D)) || (r =? 0x20) || (r =? 0x85) || (r =? 0xA0).

Definition sampleOrange : gostring := ESC :: str "[38;5;208m".
Definition sampleReset : gostring := ESC :: str "[0m".

Definition sampleFlush : Writer -> Writer * FlushResult :=
  Flush sampleOrange sampleReset
    latin1_Cf latin1_Cc latin1_Mn latin1_Zs latin1_IsSpace.

(** A destination that takes every byte. *)
Definition acceptAll : ioWriter := mkIoWriter (fun b => (len b, false)).

(** The bytes a fresh Writer hands to its destination when [input] is written
    to it and it is flushed. *)
Definition render (fl : N) (cols : Z) (input : gostring) : option gostring :=
  match snd (sampleFlush (fst (Writer_Write (NewWriter acceptAll fl cols) input))) with
  | Returned written _ => Some written
  | Panicked => None
  end.


(** Padding made of [n] spaces. *)
Definition spaces (n : Z) : gostring := replicate (Z.to_nat n) SP.

(** A Writer as [NewWriter] makes it for flags [fl] and terminal width [cols],
    holding the lines [ls] and the columns [cs]. *)
Definition writerOf (fl : N) (cols : Z) (ls : list gostring) (cs : list column)
  : Writer :=
  setColumns (setLines (NewWriter acceptAll fl cols) ls) cs.

(** ** Notions the properties are stated with *)

(** The condition under which [truncateLongField] cuts field [c] of a line of
    [n] fields whose colourless text is [colorless]. *)
Definition truncates (w : Writer) (n c : nat) (maxFieldLen : Z) (colorless : gostring)
  : bool :=
  negb (hasFlag w PreserveLongFields) && (termCols w >? 0)
  && (Z.of_nat c =? Z.of_nat n - 1) && (len colorless >? maxFieldLen).

(** The colourless text of a field once [truncateLongField] has returned. *)
Definition finalColorless (w : Writer) (n c : nat) (maxFieldLen : Z)
    (colorless : gostring) : gostring :=
  if truncates w n c maxFieldLen colorless
  then take (Z.to_nat (maxFieldLen - 5)) colorless ++ str "[...]"
  else colorless.

(** The per-field budget [createColumns] computes for a line of [fields]. *)
Definition maxFieldLenOf (w : Writer) (fields : list gostring) : Z :=
  Z.quot (termCols w) (len fields) - 3.

(** The colourless fields of a line once [createColumns] is through with it. *)
Definition finalRow (w : Writer) (fields : list gostring) : list gostring :=
  imap (fun c field =>
          finalColorless w (length fields) c (maxFieldLenOf w fields)
            (stripColorCodes field))
       fields.

(** No cut of a field of the line has a budget below 5: the slice
    [colorless[:maxFieldLen-5]] is in range. *)
Definition cutsInRange (w : Writer) (fields : list gostring) : Prop :=
  forall c field, fields !! c = Some field ->
    truncates w (length fields) c (maxFieldLenOf w fields) (stripColorCodes field) = true ->
    5 <= maxFieldLenOf w fields.

(** The row of [colorlessFields] for a line: none for an empty line, which
    [createColumns] skips. *)
Definition colorlessRow (w : Writer) (line : gostring) : list gostring :=
  match line with
  | [] => []
  | _ :: _ => finalRow w (Split line TAB)
  end.

(** No field of the line is cut. *)
Definition noCut (w : Writer) (fields : list gostring) : Prop :=
  forall c field, fields !! c = Some field ->
    truncates w (length fields) c (maxFieldLenOf w fields) (stripColorCodes field) = false.

(** The glyph at the left end of a divider line: top-left on the first row
    boundary, bottom-left on the last, left-mid in between. *)
Definition leftEdge (d : Dividers) (l : nat) (isLastRow : bool) : gostring :=
  if (l =? 0)%nat then TL d else if isLastRow then BL d else VLeft d.

(** The glyph that closes the segment of a field on a divider line. *)
Definition junction (d : Dividers) (l : nat) (isLastRow isLastField : bool) : gostring :=
  if (l =? 0)%nat then (if isLastField then TR d else TUp d)
  else if isLastRow then (if isLastField then BR d else TDown d)
  else if isLastField then VRight d else Cross d.

(** A segment of a divider line: nothing, or a run of the horizontal glyph
    closed by the junction glyph of the position. *)
Definition isSegment (d : Dividers) (l : nat) (isLastRow isLastField : bool)
    (seg : gostring) : Prop :=
  seg = [] \/
  exists k : nat, seg = concat (replicate k (HLine d)) ++ junction d l isLastRow isLastField.

(** [body] is made of the segments of the fields [0 .. c-1] of a line of [n]
    fields, in order. *)
Definition segmentsOf (d : Dividers) (l : nat) (isLastRow : bool) (n c : nat)
    (body : gostring) : Prop :=
  exists segs : list gostring,
    length segs = c /\ body = concat segs
    /\ forall i seg, segs !! i = Some seg ->
         isSegment d l isLastRow (Z.of_nat i =? Z.of_nat n - 1) seg.

(** A text without escape byte. *)
Definition plain (s : gostring) : Prop := Forall (fun b => b <> ESC) s.

(** A complete colour code: the escape byte, [[], one byte or more of the
    class [[0-9;]], and [m]. *)
Definition colorCode (run : gostring) : gostring := ESC :: x5b :: run ++ [x6d].

Definition isCodeRun (run : gostring) : Prop :=
  run <> [] /\ Forall (fun b => isCodeByte b = true) run.

(** Every escape byte of the text starts a complete colour code. *)
Inductive colorCoded : gostring -> Prop :=
| colorCoded_nil : colorCoded []
| colorCoded_byte (b : byte) (s : gostring) :
    b <> ESC -> colorCoded s -> colorCoded (b :: s)
| colorCoded_code (run s : gostring) :
    isCodeRun run -> colorCoded s -> colorCoded (colorCode run ++ s).

(** The same, as a test: at every escape byte of the text the pattern
    matches. *)
Fixpoint escapesAreCodes (s : gostring) : bool :=
  match s with
  | [] => true
  | b :: s' =>
      (if Byte.eqb b ESC then
         match matchColorCode s with Some _ => true | None => false end
       else true)
      && escapesAreCodes s'
  end.

(** None of the glyphs [createTable] draws with holds an escape byte. *)
Definition dividersPlain (d : Dividers) : Prop :=
  plain (HLine d) /\ plain (VLine d) /\ plain (TL d) /\ plain (TR d)
  /\ plain (BL d) /\ plain (BR d) /\ plain (Cross d) /\ plain (TUp d)
  /\ plain (TDown d) /\ plain (VLeft d) /\ plain (VRight d).

(** A text without tab, and the number of tabs of a text. *)
Definition tabFree (s : gostring) : Prop := Forall (fun b => b <> TAB) s.

Fixpoint tabCount (s : gostring) : nat :=
  match s with
  | [] => O
  | b :: s' => if Byte.eqb b TAB then Datatypes.S (tabCount s') else tabCount s'
  end.

(** The lines [Flush] stores for a sanitized buffer: the buffer split at the
    newlines, without the last line when that one is empty. *)
Definition flushLines (cleanedBuffer : gostring) : list gostring :=
  let ls := Split cleanedBuffer NL in
  if len (List.last ls []) =? 0 then removelast ls else ls.

(** [w'] has the configuration of [w]. *)
Definition sameConfig (w w' : Writer) : Prop :=
  output w' = output w /\ dividers w' = dividers w /\ flags w' = flags w
  /\ termCols w' = termCols w /\ buffer w' = buffer w.

(** Every column of [cs] is a column of [cs'], at least as wide there. *)
Definition colsLe (cs cs' : list column) : Prop :=
  forall j col, cs !! j = Some col ->
    exists col', cs' !! j = Some col' /\ textWidth col <= textWidth col'.

(** Every field of [colorlessFields] fits the column of its index. *)
Definition rowsFit (cs : list column) (colorlessFields : list (list gostring)) : Prop :=
  forall l row c field,
    colorlessFields !! l = Some row -> row !! c = Some field ->
    exists col, cs !! c = Some col /\ len field <= textWidth col.

(** The Writer the inner loop is entered with: the columns are extended to
    the number of fields of the line. *)
Definition withColumnsFor (w : Writer) (fields : list gostring) : Writer :=
  if len fields >? len (columns w)
  then setColumns w
         (columns w ++ replicate (length fields - length (columns w)) (mkColumn 0))
  else w.

(** Row [l] while the inner loop is at field [c]: the final fields up to
    [c], empty strings from there on. *)
Definition rowAt (w : Writer) (fields : list gostring) (c : nat) : list gostring :=
  take c (finalRow w fields) ++ replicate (length fields - c) [].

(** The invariant of the inner loop of [createColumns] for line [l], whose
    fields are [fields]; [w0] and [cf0] are the Writer and the table the
    loop is entered with. *)
Definition lineInv (w0 : Writer) (cf0 : list (list gostring)) (l : nat)
    (fields : list gostring) (c : nat) (st : Writer * list (list gostring)) : Prop :=
  let '(w1, cf1) := st in
  sameConfig w0 w1 /\ colsLe (columns w0) (columns w1)
  /\ length (columns w1) = length (columns w0)
  /\ length (lines w1) = length (lines w0)
  /\ (forall j, j <> l -> lines w1 !! j = lines w0 !! j)
  /\ cf1 = <[l := rowAt w0 fields c]> cf0
  /\ (forall c' v, (c' < c)%nat -> finalRow w0 fields !! c' = Some v ->
        exists col, columns w1 !! c' = Some col /\ len v <= textWidth col)
  /\ (forall c' field, (c' < c)%nat -> fields !! c' = Some field ->
        truncates w0 (length fields) c' (maxFieldLenOf w0 fields)
          (stripColorCodes field) = true -> 5 <= maxFieldLenOf w0 fields)
  /\ (noCut w0 fields -> lines w1 = lines w0).

(** The invariant of the outer loop of [createColumns], entered with the
    Writer [w]: the rows of the lines before [l] are final and fit the
    columns, the rows from [l] on are still empty. *)
Definition tableInv (w : Writer) (l : nat) (st : Writer * list (list gostring))
  : Prop :=
  let '(w1, cf1) := st in
  sameConfig w w1 /\ colsLe (columns w) (columns w1)
  /\ length (lines w1) = length (lines w)
  /\ cf1 = map (colorlessRow w) (take l (lines w))
             ++ replicate (length (lines w) - l) []
  /\ rowsFit (columns w1) cf1
  /\ (forall l' line, (l' < l)%nat -> lines w !! l' = Some line -> line <> [] ->
        cutsInRange w (Split line TAB))
  /\ (forall j line, lines w !! j = Some line ->
        line = [] \/ noCut w (Split line TAB) -> lines w1 !! j = Some line).

(** The two divider lines the inner loop of [createTable] builds for line [l]
    of [fields], after [c] of its fields: the line below the row ([hLine]) and,
    for the first line, the line above it ([prefixHLine]).  Before the last
    field has had its turn they consist of segments only; the left glyph is in
    front of them once it has. *)
Definition dividerInv (w : Writer) (l : nat) (fields : list gostring) (c : nat)
    (st : gostring * gostring * gostring) : Prop :=
  let '(_, hLine, prefixHLine) := st in
  let d := dividers w in
  let isLastRow := Z.of_nat l =? len (lines w) - 1 in
  let allFields := (length fields <=? c)%nat in
  (exists body,
     hLine = (if allFields then leftEdge d (l + 1) isLastRow else []) ++ body
     /\ segmentsOf d (l + 1) isLastRow (length fields) c body)
  /\ (if (l =? 0)%nat then
        exists body,
          prefixHLine = (if allFields then leftEdge d 0 isLastRow else []) ++ body
          /\ segmentsOf d 0 isLastRow (length fields) c body
      else prefixHLine = []).

(** The line [truncateLongField] stores when it cuts [field], whose colourless
    text is [colorless]: in the field every occurrence of the colourless text
    gives way to the cut text and the coloured marker, and in the line every
    occurrence of the field gives way to the new field. *)
Definition cutLine (ColorOrange ColorReset : gostring) (maxFieldLen : Z)
    (line field colorless : gostring) : gostring :=
  Replace line field
    (Replace field colorless
       (take (Z.to_nat (maxFieldLen - 5)) colorless
          ++ ColorOrange ++ str "[...]" ++ ColorReset)).

(** The line [createColumns] leaves stored for a line: the line itself,
    unless its last field is cut. *)
Definition storedLine (ColorOrange ColorReset : gostring) (w : Writer)
    (line : gostring) : gostring :=
  match line with
  | [] => []
  | _ :: _ =>
      let fields := Split line TAB in
      let field := List.last fields [] in
      if truncates w (length fields) (length fields - 1) (maxFieldLenOf w fields)
           (stripColorCodes field)
      then cutLine ColorOrange ColorReset (maxFieldLenOf w fields) line field
             (stripColorCodes field)
      else line
  end.

(** [utf8.ValidRune]: a Unicode scalar value. *)
Definition ValidRune (r : Z) : bool :=
  ((0 <=? r) && (r <? 0xD800)) || ((0xDFFF <? r) && (r <=? 0x10FFFF)).

(** The number of bytes the lead byte announces (0 for a byte that is no
    lead byte of a longer encoding). *)
Definition announced (b0 : byte) : nat :=
  let s0 := byteVal b0 in
  if (s0 <? 0xC2) || (0xF4 <? s0) then 0%nat
  else if s0 <? 0xE0 then 2%nat else if s0 <? 0xF0 then 3%nat else 4%nat.

(** What [strings.Map] writes for a rune [c]: nothing when the image is
    negative, the encoding of the image otherwise. *)
Definition mapped (mapping : Z -> Z) (c : Z) : gostring :=
  if mapping c <? 0 then [] else EncodeRune (mapping c).

(** The bytes [cleanInvisibleChars] lets through before it looks at the
    Unicode tables: space, escape, tab and newline. *)
Definition isKeptByte (b : byte) : bool :=
  Byte.eqb b SP || Byte.eqb b ESC || Byte.eqb b TAB || Byte.eqb b NL.

(** The row of colourless fields of a line none of whose fields is cut:
    none for an empty line, the fields without their colour codes
    otherwise. *)
Definition strippedRow (line : gostring) : list gostring :=
  match line with
  | [] => []
  | _ :: _ => map stripColorCodes (Split line TAB)
  end.

(** The text without the matches of the colour pattern, deleted in one pass
    from left to right (what [ReplaceAllString(s, "")] of the pattern gives);
    [skip] counts the bytes of the last match still to be passed over. *)
Fixpoint eraseFrom (skip : nat) (s : gostring) : gostring :=
  match s with
  | [] => []
  | b :: s' =>
      match skip with
      | Datatypes.S k => eraseFrom k s'
      | O =>
          match matchColorCode s with
          | Some m => eraseFrom (length m - 1) s'
          | None => b :: eraseFrom 0 s'
          end
      end
  end.

Definition withoutCodes (s : gostring) : gostring := eraseFrom 0 s.

(** The columns once the fields of [row] are accounted for, column by
    column: a column that has a field in the row is at least as wide as it. *)
Definition widenCols (cs : list column) (row : list gostring) : list column :=
  imap (fun c col =>
          match row !! c with
          | Some v => mkColumn (Z.max (textWidth col) (len v))
          | None => col
          end) cs.

(** The same, after the columns are extended to the length of the row, as
    [createColumns] does before it looks at the fields of a line. *)
Definition widen (cs : list column) (row : list gostring) : list column :=
  widenCols (cs ++ replicate (length row - length cs) (mkColumn 0)) row.

(** The largest number of fields of a row, and the length of the longest
    field at index [c] of the rows. *)
Definition fieldCount (colorlessFields : list (list gostring)) : nat :=
  foldr Nat.max 0%nat (map (fun row => length row) colorlessFields).

Definition widthOf (colorlessFields : list (list gostring)) (c : nat) : Z :=
  foldr Z.max 0 (map (fun row => from_option len 0 (row !! c)) colorlessFields).

(** The room a cell has beyond the width of its column: the separating
    space, on both sides with middle alignment, unless the remove-minimal-
    padding flag is set. *)
Definition slack (w : Writer) : Z :=
  if hasFlag w RemoveLeastPad then 0
  else if hasFlag w AlignMiddle then 2 else 1.

(** All the glyphs of a divider line have the byte length of the horizontal
    one, which is not empty: the assumption [updateHLine] makes when it
    divides the byte length of the line by that of the horizontal glyph. *)
Definition uniformGlyphs (d : Dividers) : Prop :=
  0 < len (HLine d)
  /\ len (TL d) = len (HLine d) /\ len (TR d) = len (HLine d)
  /\ len (BL d) = len (HLine d) /\ len (BR d) = len (HLine d)
  /\ len (Cross d) = len (HLine d) /\ len (TUp d) = len (HLine d)
  /\ len (TDown d) = len (HLine d) /\ len (VLeft d) = len (HLine d)
  /\ len (VRight d) = len (HLine d).

(** The width of the cell of a colourless field of column [c], with the
    vertical line that closes it: the width of the column and the slack, or,
    without padding (preserve-long-fields), the length of the field. *)
Definition cellWidth (w : Writer) (c : nat) (colorless : gostring) : Z :=
  (if hasFlag w PreserveLongFields then len colorless
   else from_option textWidth 0 (columns w !! c) + slack w) + 1.

(** The width of the cells of a row. *)
Definition rowWidth (w : Writer) (row : list gostring) : Z :=
  foldr Z.add 0 (imap (cellWidth w) row).

(** The state of the loops of [createColumns], with the buffer [b] in the
    Writer. *)
Definition rebuffer (b : gostring) (st : Writer * list (list gostring))
  : Writer * list (list gostring) :=
  (setBuffer (fst st) b, snd st).

(** The calls a program makes on a Writer, and the Writer after a sequence of
    them. *)
Inductive call :=
| CallWrite (buf : gostring)
| CallFlush
| CallClear.

(** The bytes written since the last [Flush] or [Clear] of a sequence of
    calls that started with the bytes [pending]. *)
Fixpoint pendingBytes (pending : gostring) (calls : list call) : gostring :=
  match calls with
  | [] => pending
  | CallWrite buf :: calls' => pendingBytes (pending ++ buf) calls'
  | CallFlush :: calls' => pendingBytes [] calls'
  | CallClear :: calls' => pendingBytes [] calls'
  end.

(** One call, with the parameters of [Flush]. *)
Definition doCall (ColorOrange ColorReset : gostring)
    (unicode_Cf unicode_Cc unicode_Mn unicode_Zs unicode_IsSpace : Z -> bool)
    (w : Writer) (c : call) : Writer :=
  match c with
  | CallWrite buf => fst (Writer_Write w buf)
  | CallFlush =>
      fst (Flush ColorOrange ColorReset
             unicode_Cf unicode_Cc unicode_Mn unicode_Zs unicode_IsSpace w)
  | CallClear => Clear w
  end.

(** The bytes of the glyphs [createTable] draws with. *)
Definition glyphBytes (d : Dividers) : gostring :=
  HLine d ++ VLine d ++ TL d ++ TR d ++ BL d ++ BR d ++ Cross d ++ TUp d
    ++ TDown d ++ VLeft d ++ VRight d.

(** The number of newlines of a text. *)
Definition newlines (s : gostring) : nat :=
  length (List.filter (fun b => Byte.eqb b NL) s).

(** The number of lines of the table a stored line gives: none for a blank
    line; otherwise the row and the divider line below it, and for the line
    of index 0 the divider line above it. *)
Definition outputLines (l : nat) (line : gostring) : nat :=
  if len line =? 0 then 0%nat else if (l =? 0)%nat then 3%nat else 2%nat.

(** The segment of a divider line for a cell of width [width], when the
    terminal has room for it: [width - 1] horizontal glyphs and the junction
    glyph of the position. *)
Definition fullSegment (d : Dividers) (l : nat) (isLastRow isLastField : bool)
    (width : Z) : gostring :=
  concat (replicate (Z.to_nat (width - 1)) (HLine d))
  ++ junction d l isLastRow isLastField.

(** The divider line of row boundary [l] for a row of colourless fields, when
    the terminal has room for all of it. *)
Definition fullDivider (w : Writer) (l : nat) (isLastRow : bool)
    (row : list gostring) : gostring :=
  leftEdge (dividers w) l isLastRow
  ++ concat (imap (fun c v =>
                     fullSegment (dividers w) l isLastRow
                       (Z.of_nat c =? len row - 1) (cellWidth w c v))
                  row).

(* ================================================================== *)
(** * Properties                                                       *)
(* ================================================================== *)

(** ** Loops *)

Lemma loopFrom_app {S : Type} (body : S -> nat -> option S) (i n m : nat) (s : S) :
  loopFrom body i (n + m) s = s' ← loopFrom body i n s; loopFrom body (i + n) m s'.
Proof.
  revert i s. induction n as [|n IH]; intros i s; simpl.
  - by rewrite Nat.add_0_r.
  - destruct (body s i) as [s1|]; simpl; [|done].
    rewrite IH. by replace (Datatypes.S i + n)%nat with (i + Datatypes.S n)%nat by lia.
Qed.

Lemma forRange_S {S : Type} (body : S -> nat -> option S) (n : nat) (s : S) :
  forRange body (Datatypes.S n) s = s' ← forRange body n s; body s' n.
Proof.
  unfold forRange. replace (Datatypes.S n) with (n + 1)%nat by lia.
  rewrite loopFrom_app. simpl.
  destruct (loopFrom body 0 n s) as [s1|]; simpl; [|done].
  by destruct (body s1 n).
Qed.

(** The invariant rule of the counting loop: an invariant that holds on entry
    and is kept by every iteration that does not panic holds on exit. *)
Lemma forRange_invariant {S : Type} (I : nat -> S -> Prop)
    (body : S -> nat -> option S) (n : nat) (s s' : S) :
  I 0%nat s ->
  (forall i t t', (i < n)%nat -> I i t -> body t i = Some t' -> I (Datatypes.S i) t') ->
  forRange body n s = Some s' ->
  I n s'.
Proof.
  intros H0 Hstep. revert s'.
  induction n as [|n IH]; intros s' Hrun.
  - unfold forRange in Hrun. simpl in Hrun. by inversion Hrun; subst.
  - rewrite forRange_S in Hrun.
    destruct (forRange body n s) as [t|] eqn:Hn; simpl in Hrun; [|done].
    apply (Hstep n t s'); [lia| |done].
    apply IH; [|done]. intros i u u' Hi. apply Hstep. lia.
Qed.

(** The same rule for termination: if every iteration started in the
    invariant returns, so does the loop. *)
Lemma forRange_total {S : Type} (I : nat -> S -> Prop)
    (body : S -> nat -> option S) (n : nat) (s : S) :
  I 0%nat s ->
  (forall i t, (i < n)%nat -> I i t ->
     exists t', body t i = Some t' /\ I (Datatypes.S i) t') ->
  exists s', forRange body n s = Some s' /\ I n s'.
Proof.
  intros H0 Hstep.
  induction n as [|n IH].
  - exists s. by split.
  - destruct IH as (t & Hrun & Ht).
    { intros i u Hi. apply Hstep. lia. }
    destruct (Hstep n t) as (t' & Hb & Ht'); [lia|done|].
    exists t'. split; [|done]. rewrite forRange_S, Hrun. simpl. done.
Qed.

(** ** Repetition *)

Lemma Repeat_spaces (n : Z) : 0 <= n -> Repeat [SP] n = Some (spaces n).
Proof.
  intros Hn. unfold Repeat, spaces.
  destruct (n <? 0) eqn:E; [lia|]. f_equal.
  induction (Z.to_nat n) as [|k IH]; simpl; [done|]. by rewrite IH.
Qed.

(** ** Padding *)

Lemma quot_half_pos (t : Z) : 0 <= t -> 0 <= Z.quot t 2.
Proof. intros Ht. by apply Z.quot_pos. Qed.

Lemma quot_half_rest (t : Z) : 0 <= t -> 0 <= t - Z.quot t 2.
Proof.
  intros Ht. assert (Z.quot t 2 <= t); [|lia].
  apply Z.quot_le_upper_bound; lia.
Qed.

(** What [getPadding] returns in each alignment, for a field that fits its
    column. *)
Lemma getPadding_fits (w : Writer) (c : nat) (field : gostring) (col : column) :
  columns w !! c = Some col ->
  len field <= textWidth col ->
  getPadding w c field =
    let least := if hasFlag w RemoveLeastPad then 0 else 1 in
    let base := textWidth col - len field + least in
    if hasFlag w PreserveLongFields then Some (0, [], [])
    else if hasFlag w AlignMiddle then
      Some (base + least, spaces (Z.quot (base + least) 2),
            spaces (base + least - Z.quot (base + least) 2))
    else if hasFlag w AlignRight then Some (base, spaces base, [])
    else Some (base, [], spaces base).
Proof.
  intros Hcol Hfit. unfold getPadding. rewrite Hcol. simpl.
  destruct (hasFlag w PreserveLongFields); simpl; [done|].
  destruct (hasFlag w RemoveLeastPad), (hasFlag w AlignMiddle),
    (hasFlag w AlignRight); simpl;
    rewrite ?Z.add_0_r;
    rewrite ?Repeat_spaces
      by (try apply quot_half_pos; try apply quot_half_rest; lia);
    done.
Qed.

(** With the middle flag set, the right flag is never looked at: two Writers
    that differ in it at most pad alike. *)
Lemma getPadding_middle_ignores_right (w w' : Writer) (c : nat) (field : gostring) :
  columns w = columns w' ->
  hasFlag w RemoveLeastPad = hasFlag w' RemoveLeastPad ->
  hasFlag w PreserveLongFields = hasFlag w' PreserveLongFields ->
  hasFlag w AlignMiddle = true ->
  hasFlag w' AlignMiddle = true ->
  getPadding w c field = getPadding w' c field.
Proof.
  intros Hc Hr Hp Hm Hm'. unfold getPadding.
  by rewrite Hc, Hr, Hp, Hm, Hm'.
Qed.

(** C1 (the code departs from the specification): with both the middle and the right
    flag set, [getPadding] splits the padding as for middle alignment.  In a
    column of width 3 the field [a] gets 2 spaces on each side, while right
    alignment alone puts 3 spaces on the left; the table rendered with both
    flags is the one of middle alignment and is not the one of right
    alignment. *)
Theorem C1_both_flags_align_middle :
  getPadding (writerOf (N.lor AlignMiddle AlignRight) 80 [] [mkColumn 3]) 0 (str "a")
    = Some (4, [SP; SP], [SP; SP])
  /\ getPadding (writerOf AlignRight 80 [] [mkColumn 3]) 0 (str "a")
    = Some (3, [SP; SP; SP], [])
  /\ (let input := str "a" ++ [TAB] ++ str "b" ++ [NL] ++ str "ccc" ++ [TAB] ++ str "d" ++ [NL] in
      render (N.lor AlignMiddle AlignRight) 80 input = render AlignMiddle 80 input
      /\ render (N.lor AlignMiddle AlignRight) 80 input <> render AlignRight 80 input).
Proof. vm_compute. repeat split; try reflexivity. discriminate. Qed.

(** C9, as stated, fails: with the middle and the remove-minimal-padding flags
    both set, a field of 2 bytes in a column of width 5 gets a total padding
    of 3 = 5 - 2, without any separation space. *)
Lemma C9_counterexample :
  getPadding (writerOf (N.lor AlignMiddle RemoveLeastPad) 80 [] [mkColumn 5]) 0 (str "ab")
    = Some (3, [SP], [SP; SP]).
Proof. vm_compute. reflexivity. Qed.

(** C9, amended: under middle alignment (long fields not preserved) the total
    padding of a field that fits its column is [textWidth - len(field)] when
    the remove-minimal-padding flag is set, and [textWidth - len(field) + 2]
    when it is not: both separation spaces are added only without that flag.
    The left padding is half the total, rounded down, the right padding the
    rest. *)
Theorem C9_middle_padding (w : Writer) (c : nat) (field : gostring) (col : column) :
  hasFlag w AlignMiddle = true ->
  hasFlag w PreserveLongFields = false ->
  columns w !! c = Some col ->
  len field <= textWidth col ->
  let total :=
    textWidth col - len field + (if hasFlag w RemoveLeastPad then 0 else 2) in
  getPadding w c field
    = Some (total, spaces (Z.quot total 2), spaces (total - Z.quot total 2)).
Proof.
  intros Hm Hp Hcol Hfit. rewrite (getPadding_fits w c field col Hcol Hfit).
  rewrite Hm, Hp. simpl.
  destruct (hasFlag w RemoveLeastPad); simpl.
  - by rewrite !Z.add_0_r.
  - by replace (textWidth col - len field + 1 + 1)
      with (textWidth col - len field + 2) by lia.
Qed.

Lemma C9_middle_padding_witness :
  getPadding (writerOf (N.lor AlignMiddle RemoveLeastPad) 80 [] [mkColumn 5]) 0 (str "ab")
    = Some (3, spaces (Z.quot 3 2), spaces (3 - Z.quot 3 2)).
Proof.
  apply (C9_middle_padding
           (writerOf (N.lor AlignMiddle RemoveLeastPad) 80 [] [mkColumn 5])
           0%nat (str "ab") (mkColumn 5)).
  - reflexivity.
  - reflexivity.
  - reflexivity.
  - vm_compute. discriminate.
Defined.


(** ** The two-dimensional table of colourless fields *)

Lemma set2_Some (cf cf' : list (list gostring)) (l c : nat) (s : gostring) :
  set2 cf l c s = Some cf' ->
  exists row, cf !! l = Some row /\ (c < length row)%nat
              /\ cf' = <[l := <[c := s]> row]> cf.
Proof.
  unfold set2. destruct (cf !! l) as [row|] eqn:Hrow; simpl; [|done].
  destruct (c <? length row)%nat eqn:Hc; [|done].
  intros [= <-]. exists row. apply Nat.ltb_lt in Hc. done.
Qed.

Lemma set2_in_range (cf : list (list gostring)) (l c : nat) (row : list gostring)
    (s : gostring) :
  cf !! l = Some row -> (c < length row)%nat ->
  set2 cf l c s = Some (<[l := <[c := s]> row]> cf).
Proof.
  intros Hrow Hc. unfold set2. rewrite Hrow. simpl.
  apply Nat.ltb_lt in Hc. by rewrite Hc.
Qed.

Lemma get2_insert (cf : list (list gostring)) (l c : nat) (row : list gostring)
    (s : gostring) :
  cf !! l = Some row -> (c < length row)%nat ->
  get2 (<[l := <[c := s]> row]> cf) l c = Some s.
Proof.
  intros Hrow Hc. unfold get2.
  rewrite list_lookup_insert_eq by (by eapply lookup_lt_Some).
  simpl. by rewrite list_lookup_insert_eq.
Qed.

Lemma insert_insert_row (cf : list (list gostring)) (l : nat) (r1 r2 : list gostring) :
  <[l := r2]> (<[l := r1]> cf) = <[l := r2]> cf.
Proof. apply list_insert_insert_eq. Qed.

(** ** Configuration *)

Lemma sameConfig_refl (w : Writer) : sameConfig w w.
Proof. by repeat split. Qed.

Lemma sameConfig_trans (w1 w2 w3 : Writer) :
  sameConfig w1 w2 -> sameConfig w2 w3 -> sameConfig w1 w3.
Proof. unfold sameConfig. intros (?&?&?&?&?) (?&?&?&?&?). repeat split; congruence. Qed.

Lemma sameConfig_hasFlag (w w' : Writer) (f : N) :
  sameConfig w w' -> hasFlag w' f = hasFlag w f.
Proof. intros (_&_&Hf&_). unfold hasFlag. by rewrite Hf. Qed.

Lemma sameConfig_setColumns (w : Writer) (cs : list column) :
  sameConfig w (setColumns w cs).
Proof. by repeat split. Qed.

Lemma truncates_sameConfig (w w' : Writer) n c m cl :
  sameConfig w w' -> truncates w' n c m cl = truncates w n c m cl.
Proof.
  intros H. unfold truncates. rewrite (sameConfig_hasFlag w w') by done.
  destruct H as (_&_&_&Ht&_). by rewrite Ht.
Qed.

Lemma colsLe_refl (cs : list column) : colsLe cs cs.
Proof. intros j col H. exists col. split; [done|lia]. Qed.

Lemma colsLe_trans (c1 c2 c3 : list column) :
  colsLe c1 c2 -> colsLe c2 c3 -> colsLe c1 c3.
Proof.
  intros H12 H23 j col H.
  destruct (H12 j col H) as (col2 & H2 & Hle2).
  destruct (H23 j col2 H2) as (col3 & H3 & Hle3).
  exists col3. split; [done|lia].
Qed.

Lemma colsLe_app (cs more : list column) : colsLe cs (cs ++ more).
Proof.
  intros j col H. exists col. split; [|lia]. by apply lookup_app_l_Some.
Qed.

Lemma colsLe_insert (cs : list column) (c : nat) (col : column) (width : Z) :
  cs !! c = Some col -> textWidth col <= width ->
  colsLe cs (<[c := mkColumn width]> cs).
Proof.
  intros Hc Hle j colj Hj. destruct (decide (c = j)) as [->|Hne].
  - exists (mkColumn width). rewrite list_lookup_insert_eq by (by eapply lookup_lt_Some).
    split; [done|]. simpl. congruence.
  - exists colj. rewrite list_lookup_insert_ne by done. split; [done|lia].
Qed.

Lemma rowsFit_colsLe (cs cs' : list column) (cf : list (list gostring)) :
  colsLe cs cs' -> rowsFit cs cf -> rowsFit cs' cf.
Proof.
  intros Hle Hfit l row c field Hrow Hfield.
  destruct (Hfit l row c field Hrow Hfield) as (col & Hcol & Hw).
  destruct (Hle c col Hcol) as (col' & Hcol' & Hw').
  exists col'. split; [done|lia].
Qed.

(** ** One field of [createColumns] *)

Section CreateColumns.

Variable ColorOrange ColorReset : gostring.

Local Abbreviation truncateLongField := (truncateLongField ColorOrange ColorReset).
Local Abbreviation createColumnsField := (createColumnsField ColorOrange ColorReset).
Local Abbreviation createColumnsLine := (createColumnsLine ColorOrange ColorReset).
Local Abbreviation createColumns := (createColumns ColorOrange ColorReset).

Lemma sliceTo_Some (s cut : gostring) (n : Z) :
  sliceTo s n = Some cut -> 0 <= n <= len s /\ cut = take (Z.to_nat n) s.
Proof.
  unfold sliceTo. destruct ((0 <=? n) && (n <=? len s)) eqn:E; [|done].
  intros [= <-]. apply andb_true_iff in E as [E1 E2]. split; [lia|done].
Qed.

Lemma sliceTo_in_range (s : gostring) (n : Z) :
  0 <= n <= len s -> sliceTo s n = Some (take (Z.to_nat n) s).
Proof.
  intros H. unfold sliceTo.
  destruct ((0 <=? n) && (n <=? len s)) eqn:E; [done|].
  apply andb_false_iff in E as [E|E]; lia.
Qed.

(** When [truncateLongField] returns, the colourless field is the final
    one, the configuration and the columns are as before, and only line [l]
    may have changed. *)
Lemma truncateLongField_spec (w w' : Writer) (l c : nat) (m : Z)
    (fields : list gostring) (cf cf' : list (list gostring))
    (row : list gostring) (cl : gostring) :
  cf !! l = Some row -> row !! c = Some cl ->
  truncateLongField w l c m fields cf = Some (w', cf') ->
  cf' = <[l := <[c := finalColorless w (length fields) c m cl]> row]> cf
  /\ sameConfig w w' /\ columns w' = columns w
  /\ length (lines w') = length (lines w)
  /\ (forall j, j <> l -> lines w' !! j = lines w !! j)
  /\ (truncates w (length fields) c m cl = true -> 5 <= m)
  /\ (truncates w (length fields) c m cl = false -> lines w' = lines w).
Proof.
  intros Hrow Hcl. unfold truncateLongField, finalColorless, truncates, len.
  assert (Hid : cf = <[l := <[c := cl]> row]> cf).
  { by rewrite (list_insert_id row c cl), (list_insert_id cf l row). }
  destruct (negb (hasFlag w PreserveLongFields) && (termCols w >? 0)
            && (Z.of_nat c =? Z.of_nat (length fields) - 1)) eqn:Hcond; simpl.
  2: { intros [= <- <-]. split_and!; done. }
  unfold get2. rewrite Hrow. simpl. rewrite Hcl. simpl.
  destruct (Z.of_nat (length cl) >? m) eqn:Hlong.
  2: { intros [= <- <-]. split_and!; done. }
  destruct (sliceTo cl (m - 5)) as [cut|] eqn:Hcut; simpl; [|done].
  apply sliceTo_Some in Hcut as [Hm ->].
  destruct (fields !! c) as [field|]; simpl; [|done].
  destruct (lines w !! l) as [line|] eqn:Hline; simpl; [|done].
  destruct (set2 cf l c _) as [cf2|] eqn:Hset; simpl; [|done].
  intros [= <- <-].
  apply set2_Some in Hset as (row' & Hrow' & Hc & ->).
  assert (row' = row) as -> by congruence.
  split_and!; try done.
  - simpl. by rewrite length_insert.
  - intros j Hj. simpl. by rewrite list_lookup_insert_ne.
  - lia.
Qed.

(** [truncateLongField] returns whenever the cut, if there is one, has a
    budget of at least 5. *)
Lemma truncateLongField_total (w : Writer) (l c : nat) (m : Z)
    (fields : list gostring) (cf : list (list gostring))
    (row : list gostring) (cl : gostring) :
  cf !! l = Some row -> row !! c = Some cl ->
  (c < length fields)%nat -> (l < length (lines w))%nat ->
  (truncates w (length fields) c m cl = true -> 5 <= m) ->
  exists r, truncateLongField w l c m fields cf = Some r.
Proof.
  intros Hrow Hcl Hc Hl Hm. unfold truncateLongField, truncates, len in *.
  destruct (negb (hasFlag w PreserveLongFields) && (termCols w >? 0)
            && (Z.of_nat c =? Z.of_nat (length fields) - 1)) eqn:Hcond; simpl;
    [|by eexists].
  unfold get2. rewrite Hrow. simpl. rewrite Hcl. simpl.
  destruct (Z.of_nat (length cl) >? m) eqn:Hlong; [|by eexists].
  specialize (Hm eq_refl).
  rewrite sliceTo_in_range by (unfold len; lia). simpl.
  destruct (lookup_lt_is_Some_2 fields c Hc) as [field ->]. simpl.
  destruct (lookup_lt_is_Some_2 (lines w) l Hl) as [line ->]. simpl.
  rewrite (set2_in_range cf l c row) by (done || by eapply lookup_lt_Some).
  simpl. by eexists.
Qed.

(** What one iteration of the inner loop of [createColumns] does, when it
    returns. *)
Lemma createColumnsField_spec (w w' : Writer) (l c : nat) (m : Z)
    (fields : list gostring) (cf cf' : list (list gostring)) :
  createColumnsField l m fields (w, cf) c = Some (w', cf') ->
  exists field row,
    fields !! c = Some field /\ cf !! l = Some row /\ (c < length row)%nat
    /\ (let v := finalColorless w (length fields) c m (stripColorCodes field) in
        cf' = <[l := <[c := v]> row]> cf
        /\ exists col, columns w' !! c = Some col /\ len v <= textWidth col)
    /\ sameConfig w w' /\ colsLe (columns w) (columns w')
    /\ length (columns w') = length (columns w)
    /\ length (lines w') = length (lines w)
    /\ (forall j, j <> l -> lines w' !! j = lines w !! j)
    /\ (truncates w (length fields) c m (stripColorCodes field) = true -> 5 <= m)
    /\ (truncates w (length fields) c m (stripColorCodes field) = false ->
        lines w' = lines w).
Proof.
  unfold createColumnsField.
  destruct (fields !! c) as [field|] eqn:Hfield; simpl; [|done].
  destruct (set2 cf l c (stripColorCodes field)) as [cf1|] eqn:Hset; simpl; [|done].
  apply set2_Some in Hset as (row & Hrow & Hc & ->).
  destruct (truncateLongField w l c m fields _) as [[w2 cf2]|] eqn:Htr; simpl; [|done].
  eapply truncateLongField_spec in Htr
    as (-> & Hcfg & Hcols & Hlen & Hlines & Hm & Hkeep).
  2: { apply list_lookup_insert_eq. by eapply lookup_lt_Some. }
  2: { by apply list_lookup_insert_eq. }
  rewrite insert_insert_row, list_insert_insert_eq.
  set (v := finalColorless w (length fields) c m (stripColorCodes field)).
  rewrite (get2_insert cf l c row v) by done. simpl.
  destruct (columns w2 !! c) as [col|] eqn:Hcol; simpl; [|done].
  intros Hres. exists field, row. split; [done|]. split; [done|]. split; [done|].
  destruct (len v >? textWidth col) eqn:Hwide; injection Hres as <- <-;
    cbv zeta; fold v.
  - split; [split; [done|] |].
    + exists (mkColumn (len v)). cbn [columns setColumns textWidth].
      rewrite list_lookup_insert_eq by (by eapply lookup_lt_Some). split; [done|lia].
    + split; [apply (sameConfig_trans _ w2); [done|apply sameConfig_setColumns] |].
      split; [rewrite <- Hcols; apply (colsLe_insert _ _ col); [done|lia] |].
      cbn [columns setColumns lines]. rewrite length_insert. rewrite Hcols. done.
  - split; [split; [done|] |].
    + exists col. split; [done|lia].
    + split; [done|]. split; [rewrite Hcols; apply colsLe_refl|].
      rewrite Hcols. done.
Qed.

(** One iteration of the inner loop returns when its indices are in range
    and the cut, if there is one, has a budget of at least 5. *)
Lemma createColumnsField_total (w : Writer) (l c : nat) (m : Z)
    (fields : list gostring) (cf : list (list gostring))
    (field : gostring) (row : list gostring) :
  fields !! c = Some field -> cf !! l = Some row -> (c < length row)%nat ->
  (c < length (columns w))%nat -> (l < length (lines w))%nat ->
  (truncates w (length fields) c m (stripColorCodes field) = true -> 5 <= m) ->
  exists r, createColumnsField l m fields (w, cf) c = Some r.
Proof.
  intros Hfield Hrow Hc Hcols Hl Hm. unfold createColumnsField.
  rewrite Hfield. simpl. rewrite (set2_in_range cf l c row) by done. simpl.
  destruct (truncateLongField_total w l c m fields
              (<[l := <[c := stripColorCodes field]> row]> cf)
              (<[c := stripColorCodes field]> row) (stripColorCodes field))
    as [[w2 cf2] Htr]; try done.
  { apply list_lookup_insert_eq. by eapply lookup_lt_Some. }
  { by apply list_lookup_insert_eq. }
  { by eapply lookup_lt_Some. }
  rewrite Htr. simpl.
  eapply truncateLongField_spec in Htr as (-> & Hcfg & Hcols2 & _).
  2: { apply list_lookup_insert_eq. by eapply lookup_lt_Some. }
  2: { by apply list_lookup_insert_eq. }
  rewrite insert_insert_row, list_insert_insert_eq.
  rewrite (get2_insert cf l c row) by done. simpl.
  rewrite Hcols2. destruct (lookup_lt_is_Some_2 (columns w) c Hcols) as [col ->].
  simpl. destruct (_ >? _); by eexists.
Qed.

(** ** One line of [createColumns] *)

Lemma finalColorless_sameConfig (w w' : Writer) n c m cl :
  sameConfig w w' -> finalColorless w' n c m cl = finalColorless w n c m cl.
Proof.
  intros H. unfold finalColorless. by rewrite (truncates_sameConfig w w').
Qed.

Lemma finalRow_length (w : Writer) (fields : list gostring) :
  length (finalRow w fields) = length fields.
Proof. unfold finalRow. apply length_imap. Qed.

Lemma finalRow_lookup (w : Writer) (fields : list gostring) (c : nat) (field : gostring) :
  fields !! c = Some field ->
  finalRow w fields !! c
  = Some (finalColorless w (length fields) c (maxFieldLenOf w fields)
            (stripColorCodes field)).
Proof. intros H. unfold finalRow. rewrite list_lookup_imap, H. done. Qed.

Lemma rowAt_length (w : Writer) (fields : list gostring) (c : nat) :
  (c <= length fields)%nat -> length (rowAt w fields c) = length fields.
Proof.
  intros Hc. unfold rowAt.
  rewrite length_app, length_take, finalRow_length, length_replicate. lia.
Qed.

Lemma rowAt_step (w : Writer) (fields : list gostring) (c : nat) (field : gostring) :
  fields !! c = Some field ->
  <[c := finalColorless w (length fields) c (maxFieldLenOf w fields)
           (stripColorCodes field)]> (rowAt w fields c)
  = rowAt w fields (Datatypes.S c).
Proof.
  intros Hfield. pose proof (lookup_lt_Some _ _ _ Hfield) as Hlt.
  unfold rowAt.
  rewrite insert_app_r_alt by (rewrite length_take, finalRow_length; lia).
  rewrite length_take, finalRow_length.
  replace (c `min` length fields)%nat with c by lia.
  rewrite Nat.sub_diag.
  replace (length fields - c)%nat with (Datatypes.S (length fields - Datatypes.S c)) by lia.
  simpl. rewrite (take_S_r _ _ _ (finalRow_lookup w fields c field Hfield)).
  by rewrite <- app_assoc.
Qed.

Lemma rowAt_end (w : Writer) (fields : list gostring) :
  rowAt w fields (length fields) = finalRow w fields.
Proof.
  unfold rowAt. rewrite Nat.sub_diag. simpl. rewrite app_nil_r.
  apply take_ge. by rewrite finalRow_length.
Qed.

Lemma lineInv_step (w0 : Writer) (cf0 : list (list gostring)) (l : nat)
    (fields : list gostring) (c : nat) (st st' : Writer * list (list gostring)) :
  (l < length cf0)%nat -> (c < length fields)%nat ->
  lineInv w0 cf0 l fields c st ->
  createColumnsField l (maxFieldLenOf w0 fields) fields st c = Some st' ->
  lineInv w0 cf0 l fields (Datatypes.S c) st'.
Proof.
  intros Hl Hc. destruct st as [w1 cf1], st' as [w2 cf2].
  intros (Hcfg & Hle & Hlenc & Hlenl & Hlines & -> & Hfit & Hcut & Hkeep) Hrun.
  apply createColumnsField_spec in Hrun
    as (field & row & Hfield & Hrow & Hcr & [-> (col & Hcol & Hw)] & Hcfg2 & Hle2
        & Hlenc2 & Hlenl2 & Hlines2 & Hcut2 & Hkeep2).
  rewrite list_lookup_insert_eq in Hrow by done. injection Hrow as <-.
  rewrite (finalColorless_sameConfig w0 w1) in * by done.
  rewrite (truncates_sameConfig w0 w1) in Hcut2, Hkeep2 by done.
  split_and!.
  - by apply (sameConfig_trans _ w1).
  - by apply (colsLe_trans _ (columns w1)).
  - congruence.
  - congruence.
  - intros j Hj. rewrite Hlines2 by done. by apply Hlines.
  - rewrite list_insert_insert_eq. by rewrite (rowAt_step w0 fields c field).
  - intros c' v Hc' Hv. destruct (decide (c' = c)) as [->|Hne].
    + rewrite (finalRow_lookup w0 fields c field Hfield) in Hv.
      injection Hv as <-. by exists col.
    + destruct (Hfit c' v ltac:(lia) Hv) as (colv & Hcolv & Hwv).
      destruct (Hle2 c' colv Hcolv) as (colv' & Hcolv' & Hwv').
      exists colv'. split; [done|lia].
  - intros c' field' Hc' Hfield' Htr. destruct (decide (c' = c)) as [->|Hne].
    + assert (field' = field) as -> by congruence. by apply Hcut2.
    + apply (Hcut c' field'); [lia|done|done].
  - intros Hno. rewrite Hkeep2 by (by apply Hno). by apply Hkeep.
Qed.

Lemma lineInv_total (w0 : Writer) (cf0 : list (list gostring)) (l : nat)
    (fields : list gostring) (c : nat) (st : Writer * list (list gostring)) :
  (l < length cf0)%nat -> (c < length fields)%nat ->
  (length fields <= length (columns w0))%nat -> (l < length (lines w0))%nat ->
  cutsInRange w0 fields ->
  lineInv w0 cf0 l fields c st ->
  exists st', createColumnsField l (maxFieldLenOf w0 fields) fields st c = Some st'.
Proof.
  intros Hl Hc Hcols Hlines Hcuts. destruct st as [w1 cf1].
  intros (Hcfg & Hle & Hlenc & Hlenl & _ & -> & _).
  destruct (lookup_lt_is_Some_2 fields c Hc) as [field Hfield].
  apply (createColumnsField_total w1 l c _ fields _ field (rowAt w0 fields c)).
  - done.
  - by apply list_lookup_insert_eq.
  - rewrite rowAt_length; lia.
  - lia.
  - lia.
  - rewrite (truncates_sameConfig w0 w1) by done. by apply (Hcuts c field).
Qed.

Lemma withColumnsFor_spec (w : Writer) (fields : list gostring) :
  sameConfig w (withColumnsFor w fields)
  /\ colsLe (columns w) (columns (withColumnsFor w fields))
  /\ (length fields <= length (columns (withColumnsFor w fields)))%nat
  /\ lines (withColumnsFor w fields) = lines w.
Proof.
  unfold withColumnsFor, len.
  destruct (Z.of_nat (length fields) >? Z.of_nat (length (columns w))) eqn:E.
  - split_and!; try done.
    + apply colsLe_app.
    + cbn [columns setColumns]. rewrite length_app, length_replicate. lia.
  - split_and!; try done; [apply colsLe_refl|lia].
Qed.

Lemma createColumnsLine_unfold (ranged : list gostring) (w : Writer)
    (cf : list (list gostring)) (l : nat) (line : gostring) :
  ranged !! l = Some line -> line <> [] -> (l < length cf)%nat ->
  createColumnsLine ranged (w, cf) l
  = forRange (createColumnsField l (maxFieldLenOf w (Split line TAB)) (Split line TAB))
      (length (Split line TAB))
      (withColumnsFor w (Split line TAB),
       <[l := replicate (length (Split line TAB)) []]> cf).
Proof.
  intros Hline Hne Hl. unfold createColumnsLine. rewrite Hline. simpl.
  destruct line as [|b line]; [done|].
  replace (len (b :: line) =? 0) with false by (unfold len; simpl; lia).
  apply Nat.ltb_lt in Hl. rewrite Hl. done.
Qed.

Lemma lineInv_entry (w : Writer) (cf : list (list gostring)) (l : nat)
    (fields : list gostring) :
  lineInv (withColumnsFor w fields) (<[l := replicate (length fields) []]> cf)
    l fields 0 (withColumnsFor w fields, <[l := replicate (length fields) []]> cf).
Proof.
  split_and!; try done.
  - apply colsLe_refl.
  - unfold rowAt. simpl. rewrite Nat.sub_0_r. by rewrite list_insert_insert_eq.
  - intros c' v Hc'. lia.
  - intros c' v Hc'. lia.
Qed.

(** ** The whole of [createColumns] *)

Lemma maxFieldLenOf_sameConfig (w w' : Writer) (fields : list gostring) :
  sameConfig w w' -> maxFieldLenOf w' fields = maxFieldLenOf w fields.
Proof. intros (_&_&_&Ht&_). unfold maxFieldLenOf. by rewrite Ht. Qed.

Lemma finalRow_sameConfig (w w' : Writer) (fields : list gostring) :
  sameConfig w w' -> finalRow w' fields = finalRow w fields.
Proof.
  intros H. unfold finalRow. apply imap_ext. intros c field _. simpl.
  rewrite (maxFieldLenOf_sameConfig w w') by done.
  by apply finalColorless_sameConfig.
Qed.

Lemma cutsInRange_sameConfig (w w' : Writer) (fields : list gostring) :
  sameConfig w w' -> cutsInRange w fields -> cutsInRange w' fields.
Proof.
  intros H Hc c field Hf. rewrite (maxFieldLenOf_sameConfig w w') by done.
  rewrite (truncates_sameConfig w w') by done. by apply Hc.
Qed.

Lemma Split_nonempty (s : gostring) (sep : byte) : Split s sep <> [].
Proof.
  destruct s as [|b s]; simpl; [done|].
  destruct (Byte.eqb b sep); [done|]. by destruct (Split s sep).
Qed.

(** What the body of the outer loop does for a non-empty line, when it
    returns. *)
Lemma createColumnsLine_spec (ranged : list gostring) (w w' : Writer)
    (cf cf' : list (list gostring)) (l : nat) (line : gostring) :
  ranged !! l = Some line -> line <> [] ->
  createColumnsLine ranged (w, cf) l = Some (w', cf') ->
  (l < length cf)%nat
  /\ cf' = <[l := finalRow w (Split line TAB)]> cf
  /\ sameConfig w w' /\ colsLe (columns w) (columns w')
  /\ length (lines w') = length (lines w)
  /\ (forall j, j <> l -> lines w' !! j = lines w !! j)
  /\ (forall c v, finalRow w (Split line TAB) !! c = Some v ->
        exists col, columns w' !! c = Some col /\ len v <= textWidth col)
  /\ cutsInRange w (Split line TAB)
  /\ (noCut w (Split line TAB) -> lines w' = lines w).
Proof.
  intros Hline Hne Hrun.
  destruct (decide (l < length cf)%nat) as [Hl|Hl].
  2: { exfalso. unfold createColumnsLine in Hrun. rewrite Hline in Hrun.
       simpl in Hrun. destruct line as [|b line]; [done|].
       replace (len (b :: line) =? 0) with false in Hrun
         by (unfold len; simpl; lia).
       apply Nat.ltb_nlt in Hl. by rewrite Hl in Hrun. }
  rewrite (createColumnsLine_unfold ranged w cf l line) in Hrun by done.
  set (fields := Split line TAB) in *.
  destruct (withColumnsFor_spec w fields) as (Hcfg0 & Hle0 & Hlen0 & Hlines0).
  apply (forRange_invariant
           (lineInv (withColumnsFor w fields)
              (<[l := replicate (length fields) []]> cf) l fields)) in Hrun.
  - destruct Hrun as (Hcfg & Hle & _ & Hlenl & Hlines & -> & Hfit & Hcut & Hkeep).
    rewrite rowAt_end, list_insert_insert_eq in *.
    rewrite (finalRow_sameConfig w (withColumnsFor w fields)) in * by done.
    split_and!; try done.
    + by apply (sameConfig_trans _ (withColumnsFor w fields)).
    + by apply (colsLe_trans _ (columns (withColumnsFor w fields))).
    + by rewrite Hlenl, Hlines0.
    + intros j Hj. by rewrite Hlines, Hlines0.
    + intros c v Hv. apply (Hfit c v); [|done].
      apply lookup_lt_Some in Hv. by rewrite finalRow_length in Hv.
    + intros c field Hfield Htr.
      rewrite <- (maxFieldLenOf_sameConfig w (withColumnsFor w fields)) by done.
      apply (Hcut c field); [by eapply lookup_lt_Some|done|].
      rewrite (truncates_sameConfig w), (maxFieldLenOf_sameConfig w); done.
    + intros Hno. rewrite Hkeep, Hlines0; [done|].
      intros c field Hfield.
      rewrite (truncates_sameConfig w), (maxFieldLenOf_sameConfig w) by done.
      by apply Hno.
  - apply lineInv_entry.
  - intros c t t' Hc Ht Hbody.
    apply (lineInv_step _ _ l fields c t t'); try done.
    + by rewrite length_insert.
    + by rewrite (maxFieldLenOf_sameConfig w).
Qed.

(** The body of the outer loop returns when every cut of the line is in
    range. *)
Lemma createColumnsLine_total (ranged : list gostring) (w : Writer)
    (cf : list (list gostring)) (l : nat) (line : gostring) :
  ranged !! l = Some line -> (l < length cf)%nat -> (l < length (lines w))%nat ->
  (line <> [] -> cutsInRange w (Split line TAB)) ->
  exists r, createColumnsLine ranged (w, cf) l = Some r.
Proof.
  intros Hline Hl Hlw Hcuts.
  destruct (decide (line = [])) as [->|Hne].
  { unfold createColumnsLine. rewrite Hline. simpl. by eexists. }
  rewrite (createColumnsLine_unfold ranged w cf l line) by done.
  set (fields := Split line TAB) in *.
  destruct (withColumnsFor_spec w fields) as (Hcfg0 & Hle0 & Hlen0 & Hlines0).
  destruct (forRange_total
              (lineInv (withColumnsFor w fields)
                 (<[l := replicate (length fields) []]> cf) l fields)
              (createColumnsField l (maxFieldLenOf w fields) fields)
              (length fields)
              (withColumnsFor w fields, <[l := replicate (length fields) []]> cf))
    as (r & Hr & _).
  - apply lineInv_entry.
  - intros c t Hc Ht.
    rewrite <- (maxFieldLenOf_sameConfig w (withColumnsFor w fields)) by done.
    destruct (lineInv_total (withColumnsFor w fields)
                (<[l := replicate (length fields) []]> cf) l fields c t)
      as [t' Ht']; try done.
    + by rewrite length_insert.
    + by rewrite Hlines0.
    + apply (cutsInRange_sameConfig w); [done|]. by apply Hcuts.
    + exists t'. split; [done|].
      apply (lineInv_step _ _ l fields c t t'); try done.
      by rewrite length_insert.
  - by exists r.
Qed.

Lemma filled_insert {A : Type} (pre : list A) (d x : A) (k : nat) :
  <[length pre := x]> (pre ++ replicate (Datatypes.S k) d)
  = (pre ++ [x]) ++ replicate k d.
Proof.
  rewrite insert_app_r_alt by lia. rewrite Nat.sub_diag. simpl.
  by rewrite <- app_assoc.
Qed.

Lemma rowsFit_insert (cs : list column) (cf : list (list gostring)) (l : nat)
    (row : list gostring) :
  rowsFit cs cf ->
  (forall c v, row !! c = Some v ->
     exists col, cs !! c = Some col /\ len v <= textWidth col) ->
  rowsFit cs (<[l := row]> cf).
Proof.
  intros Hfit Hrow l' row' c field Hl' Hc.
  destruct (decide (l = l')) as [<-|Hne].
  - destruct (decide (l < length cf)%nat) as [Hl|Hl].
    + rewrite list_lookup_insert_eq in Hl' by done. injection Hl' as <-.
      by apply Hrow.
    + rewrite list_insert_ge in Hl' by lia. by apply (Hfit l row').
  - rewrite list_lookup_insert_ne in Hl' by done. by apply (Hfit l' row').
Qed.

Lemma tableInv_entry (w : Writer) :
  tableInv w 0 (w, replicate (length (lines w)) []).
Proof.
  split_and!; try done.
  - apply colsLe_refl.
  - simpl. by rewrite Nat.sub_0_r.
  - intros l row c field Hrow Hfield.
    apply lookup_replicate in Hrow as [-> _]. done.
  - intros l' line Hl'. lia.
Qed.

Lemma tableInv_step (w : Writer) (l : nat) (st st' : Writer * list (list gostring)) :
  (l < length (lines w))%nat ->
  tableInv w l st ->
  createColumnsLine (lines w) st l = Some st' ->
  tableInv w (Datatypes.S l) st'.
Proof.
  intros Hl. destruct st as [w1 cf1], st' as [w2 cf2].
  intros (Hcfg & Hle & Hlen & -> & Hfit & Hcuts & Hkept) Hrun.
  destruct (lookup_lt_is_Some_2 (lines w) l Hl) as [line Hline].
  assert (Hpre : length (map (colorlessRow w) (take l (lines w))) = l).
  { rewrite length_map, length_take. lia. }
  assert (Hnext : forall row,
             <[l := row]> (map (colorlessRow w) (take l (lines w))
                           ++ replicate (length (lines w) - l) [])
             = (map (colorlessRow w) (take l (lines w)) ++ [row])
                 ++ replicate (length (lines w) - Datatypes.S l) []).
  { intros row.
    replace (length (lines w) - l)%nat
      with (Datatypes.S (length (lines w) - Datatypes.S l)) by lia.
    rewrite <- Hpre at 1. apply filled_insert. }
  assert (Htake : map (colorlessRow w) (take (Datatypes.S l) (lines w))
                  = map (colorlessRow w) (take l (lines w)) ++ [colorlessRow w line]).
  { rewrite (take_S_r _ _ _ Hline), map_app. done. }
  destruct (decide (line = [])) as [->|Hne].
  - unfold createColumnsLine in Hrun. rewrite Hline in Hrun. simpl in Hrun.
    injection Hrun as <- <-.
    assert (Hsame : map (colorlessRow w) (take l (lines w))
                    ++ replicate (length (lines w) - l) []
                    = map (colorlessRow w) (take (Datatypes.S l) (lines w))
                        ++ replicate (length (lines w) - Datatypes.S l) []).
    { rewrite Htake. simpl. rewrite <- app_assoc. simpl.
      replace (length (lines w) - l)%nat
        with (Datatypes.S (length (lines w) - Datatypes.S l)) by lia.
      done. }
    split_and!; try done.
    intros l' line' Hl' Hline' Hne'. destruct (decide (l' = l)) as [->|Hnl].
    + congruence.
    + apply (Hcuts l' line'); [lia|done|done].
  - destruct (createColumnsLine_spec (lines w) w1 w2 _ cf2 l line Hline Hne Hrun)
      as (_ & Hcf2 & Hcfg2 & Hle2 & Hlen2 & Hother & Hrow & Hcut & Hkeep2).
    subst cf2. rewrite (finalRow_sameConfig w w1) in * by done.
    split_and!.
    + by apply (sameConfig_trans _ w1).
    + by apply (colsLe_trans _ (columns w1)).
    + congruence.
    + rewrite Hnext, Htake. by destruct line.
    + apply rowsFit_insert; [|done]. by apply (rowsFit_colsLe (columns w1)).
    + intros l' line' Hl' Hline' Hne'. destruct (decide (l' = l)) as [->|Hnl].
      * assert (line' = line) as -> by congruence.
        apply (cutsInRange_sameConfig w1); [|done].
        destruct Hcfg as (?&?&?&?&?). by split_and!.
      * apply (Hcuts l' line'); [lia|done|done].
    + intros j line' Hj Hno. destruct (decide (j = l)) as [->|Hnl].
      * assert (line' = line) as -> by congruence.
        destruct Hno as [->|Hno]; [done|].
        rewrite Hkeep2; [by apply Hkept; [|right] |].
        intros c field Hfield.
        rewrite (truncates_sameConfig w), (maxFieldLenOf_sameConfig w) by done.
        by apply Hno.
      * rewrite Hother by done. by apply Hkept.
Qed.

(** What [createColumns] returns, when it returns: the table of final
    colourless fields, every one of which fits its column; the
    configuration is kept, columns only grow, and no cut was out of range. *)
Lemma createColumns_spec (w w' : Writer) (cf : list (list gostring)) :
  createColumns w = Some (w', cf) ->
  cf = map (colorlessRow w) (lines w)
  /\ sameConfig w w' /\ colsLe (columns w) (columns w')
  /\ length (lines w') = length (lines w)
  /\ rowsFit (columns w') cf
  /\ (forall line, line ∈ lines w -> line <> [] -> cutsInRange w (Split line TAB))
  /\ (forall j line, lines w !! j = Some line ->
        line = [] \/ noCut w (Split line TAB) -> lines w' !! j = Some line).
Proof.
  intros Hrun. unfold createColumns in Hrun.
  apply (forRange_invariant (tableInv w)) in Hrun.
  - destruct Hrun as (Hcfg & Hle & Hlen & -> & Hfit & Hcuts & Hkept).
    rewrite take_ge, Nat.sub_diag, app_nil_r in * by lia.
    split_and!; try done.
    intros line Hin Hne. apply list_elem_of_lookup in Hin as [l' Hl'].
    apply (Hcuts l' line); [by eapply lookup_lt_Some|done|done].
  - apply tableInv_entry.
  - intros l t t' Hl. by apply tableInv_step.
Qed.

(** [createColumns] returns when every cut is in range. *)
Lemma createColumns_total (w : Writer) :
  (forall line, line ∈ lines w -> line <> [] -> cutsInRange w (Split line TAB)) ->
  exists r, createColumns w = Some r.
Proof.
  intros Hcuts. unfold createColumns.
  destruct (forRange_total (tableInv w) (createColumnsLine (lines w))
              (length (lines w)) (w, replicate (length (lines w)) []))
    as (r & Hr & _).
  - apply tableInv_entry.
  - intros l [w1 cf1] Hl Ht.
    destruct (lookup_lt_is_Some_2 (lines w) l Hl) as [line Hline].
    destruct (createColumnsLine_total (lines w) w1 cf1 l line) as [t' Ht']; try done.
    + destruct Ht as (_ & _ & _ & -> & _).
      rewrite length_app, length_map, length_take, length_replicate. lia.
    + destruct Ht as (_ & _ & -> & _). done.
    + intros Hne. destruct Ht as (Hcfg & _).
      apply (cutsInRange_sameConfig w); [done|].
      apply Hcuts; [|done]. by eapply list_elem_of_lookup_2.
    + exists t'. split; [done|]. by apply (tableInv_step w l (w1, cf1)).
  - by exists r.
Qed.

End CreateColumns.

(** ** Column widths *)

Lemma len_spaces (n : Z) : 0 <= n -> len (spaces n) = n.
Proof. intros Hn. unfold len, spaces. rewrite length_replicate. lia. Qed.

(** For a field that fits its column, [getPadding] returns a total that is
    not negative and is shared between the two sides. *)
Lemma getPadding_shares (w : Writer) (c : nat) (field : gostring) (col : column) :
  columns w !! c = Some col ->
  len field <= textWidth col ->
  exists total left right,
    getPadding w c field = Some (total, left, right)
    /\ 0 <= total /\ len left + len right = total.
Proof.
  intros Hcol Hw. rewrite (getPadding_fits w c field col Hcol Hw). cbv zeta.
  set (d := textWidth col - len field). assert (Hd : 0 <= d) by (unfold d; lia).
  clearbody d.
  destruct (hasFlag w PreserveLongFields).
  { exists 0, [], []. by split_and!. }
  destruct (hasFlag w RemoveLeastPad), (hasFlag w AlignMiddle),
    (hasFlag w AlignRight);
    eexists _, _, _; (split; [reflexivity|]);
    rewrite ?len_spaces
      by (try apply quot_half_pos; try apply quot_half_rest; lia);
    change (len (@nil byte)) with 0; lia.
Qed.

(** C10: when [createColumns] has returned, every colourless field of every
    line is at most as long as the [textWidth] of the column of its index;
    so [getPadding], called on that field as [createTable] does, returns (no
    repetition with a negative count), with a total padding that is not
    negative and is the sum of the left and the right padding. *)
Theorem C10_fields_fit_columns (ColorOrange ColorReset : gostring) (w w' : Writer)
    (colorlessFields : list (list gostring)) (l c : nat)
    (row : list gostring) (field : gostring) :
  createColumns ColorOrange ColorReset w = Some (w', colorlessFields) ->
  colorlessFields !! l = Some row ->
  row !! c = Some field ->
  exists col total left right,
    columns w' !! c = Some col /\ len field <= textWidth col
    /\ getPadding w' c field = Some (total, left, right)
    /\ 0 <= total /\ len left + len right = total.
Proof.
  intros Hrun Hrow Hfield.
  apply createColumns_spec in Hrun as (_ & _ & _ & _ & Hfit & _).
  destruct (Hfit l row c field Hrow Hfield) as (col & Hcol & Hw).
  destruct (getPadding_shares w' c field col Hcol Hw)
    as (total & left & right & Hpad & Htotal & Hsum).
  exists col, total, left, right. by split_and!.
Qed.

Lemma C10_fields_fit_columns_witness :
  exists col total left right,
    columns (writerOf 0 80 [str "ab" ++ [TAB] ++ str "c"] [mkColumn 2; mkColumn 1])
      !! 1%nat = Some col
    /\ len (str "c") <= textWidth col
    /\ getPadding
         (writerOf 0 80 [str "ab" ++ [TAB] ++ str "c"] [mkColumn 2; mkColumn 1])
         1 (str "c") = Some (total, left, right)
    /\ 0 <= total /\ len left + len right = total.
Proof.
  apply (C10_fields_fit_columns sampleOrange sampleReset
           (writerOf 0 80 [str "ab" ++ [TAB] ++ str "c"] [])
           (writerOf 0 80 [str "ab" ++ [TAB] ++ str "c"] [mkColumn 2; mkColumn 1])
           [[str "ab"; str "c"]] 0%nat 1%nat [str "ab"; str "c"] (str "c")).
  - vm_compute. reflexivity.
  - reflexivity.
  - reflexivity.
Defined.

(** ** Truncation *)

Lemma last_lookup_Split (line : gostring) :
  Split line TAB !! (length (Split line TAB) - 1)%nat
  = Some (List.last (Split line TAB) []).
Proof.
  pose proof (Split_nonempty line TAB) as Hne.
  destruct (Split line TAB) as [|f fs] using rev_ind; [done|].
  rewrite last_last, length_app. simpl.
  replace (length fs + 1 - 1)%nat with (length fs) by lia.
  by rewrite lookup_app_r, Nat.sub_diag by lia.
Qed.

(** Only the last field of a line can be cut. *)
Lemma truncates_last_only (w : Writer) (n c : nat) (m : Z) (cl : gostring) :
  truncates w n c m cl = true -> (c = n - 1)%nat.
Proof.
  unfold truncates. intros H.
  apply andb_true_iff in H as [H _]. apply andb_true_iff in H as [_ H]. lia.
Qed.

(** ** The stored lines *)

Section StoredLines.

Variable ColorOrange ColorReset : gostring.

Local Abbreviation truncateLongField := (truncateLongField ColorOrange ColorReset).
Local Abbreviation createColumnsField := (createColumnsField ColorOrange ColorReset).
Local Abbreviation createColumnsLine := (createColumnsLine ColorOrange ColorReset).
Local Abbreviation createColumns := (createColumns ColorOrange ColorReset).
Local Abbreviation cutLine := (cutLine ColorOrange ColorReset).
Local Abbreviation storedLine := (storedLine ColorOrange ColorReset).

(** Line [l] after [truncateLongField]. *)
Lemma truncateLongField_line (w w' : Writer) (l c : nat) (m : Z)
    (fields : list gostring) (cf cf' : list (list gostring))
    (cl field line : gostring) :
  get2 cf l c = Some cl -> fields !! c = Some field -> lines w !! l = Some line ->
  truncateLongField w l c m fields cf = Some (w', cf') ->
  lines w' !! l
  = Some (if truncates w (length fields) c m cl then cutLine m line field cl
          else line).
Proof.
  intros Hcl Hfield Hline.
  unfold truncateLongField, truncates, cutLine, len.
  destruct (negb (hasFlag w PreserveLongFields) && (termCols w >? 0)
            && (Z.of_nat c =? Z.of_nat (length fields) - 1)) eqn:Hcond; simpl.
  2: { by intros [= <- <-]. }
  rewrite Hcl. simpl.
  destruct (Z.of_nat (length cl) >? m) eqn:Hlong.
  2: { by intros [= <- <-]. }
  destruct (sliceTo cl (m - 5)) as [cut|] eqn:Hcut; simpl; [|done].
  apply sliceTo_Some in Hcut as [Hm ->].
  rewrite Hfield, Hline. simpl.
  destruct (set2 cf l c _) as [cf2|]; simpl; [|done].
  intros [= <- <-]. simpl.
  apply list_lookup_insert_eq. by eapply lookup_lt_Some.
Qed.

(** Line [l] after one iteration of the inner loop of [createColumns]. *)
Lemma createColumnsField_line (w w' : Writer) (l c : nat) (m : Z)
    (fields : list gostring) (cf cf' : list (list gostring)) (field line : gostring) :
  fields !! c = Some field -> lines w !! l = Some line ->
  createColumnsField l m fields (w, cf) c = Some (w', cf') ->
  lines w' !! l
  = Some (if truncates w (length fields) c m (stripColorCodes field)
          then cutLine m line field (stripColorCodes field) else line).
Proof.
  intros Hfield Hline. unfold createColumnsField.
  rewrite Hfield. simpl.
  destruct (set2 cf l c (stripColorCodes field)) as [cf1|] eqn:Hset; simpl; [|done].
  apply set2_Some in Hset as (row & Hrow & Hc & ->).
  destruct (truncateLongField w l c m fields _) as [[w2 cf2]|] eqn:Htr; simpl; [|done].
  apply (truncateLongField_line w w2 l c m fields _ cf2 (stripColorCodes field)
           field line) in Htr; [|by apply get2_insert|done|done].
  destruct (get2 cf2 l c) as [v|]; simpl; [|done].
  destruct (columns w2 !! c) as [col|]; simpl; [|done].
  by destruct (len v >? textWidth col); intros [= <- <-].
Qed.

(** Line [l] after the iteration of the outer loop for it. *)
Lemma createColumnsLine_line (ranged : list gostring) (w w' : Writer)
    (cf cf' : list (list gostring)) (l : nat) (line : gostring) :
  ranged !! l = Some line -> lines w !! l = Some line ->
  createColumnsLine ranged (w, cf) l = Some (w', cf') ->
  lines w' !! l = Some (storedLine w line).
Proof.
  intros Hranged Hline Hrun.
  destruct (decide (line = [])) as [->|Hne].
  { unfold createColumnsLine in Hrun. rewrite Hranged in Hrun.
    simpl in Hrun. by injection Hrun as <- <-. }
  destruct (createColumnsLine_spec ColorOrange ColorReset ranged w w' cf cf' l line
              Hranged Hne Hrun) as (Hl & _).
  rewrite (createColumnsLine_unfold ColorOrange ColorReset ranged w cf l line)
    in Hrun by done.
  set (fields := Split line TAB) in *.
  set (n := length fields) in *.
  set (w0 := withColumnsFor w fields) in *.
  set (cf0 := <[l := replicate n []]> cf) in *.
  destruct (withColumnsFor_spec w fields) as (Hcfg0 & _ & _ & Hlines0). fold w0 in Hcfg0, Hlines0.
  pose proof (last_lookup_Split line) as Hlast. fold fields n in Hlast.
  set (lastField := List.last fields []) in *.
  assert (Hn : (0 < n)%nat).
  { unfold n, fields. pose proof (Split_nonempty line TAB).
    destruct (Split line TAB); [done|simpl; lia]. }
  assert (Hend :
    (let '(w1, _) := (w', cf') in
     lineInv w0 cf0 l fields n (w', cf')
     /\ lines w1 !! l
        = Some (if (n <=? n)%nat
                     && truncates w0 n (n - 1) (maxFieldLenOf w0 fields)
                          (stripColorCodes lastField)
                then cutLine (maxFieldLenOf w0 fields) line lastField
                       (stripColorCodes lastField)
                else line))).
  { refine (forRange_invariant
              (fun c st =>
                 let '(w1, _) := st in
                 lineInv w0 cf0 l fields c st
                 /\ lines w1 !! l
                    = Some (if (n <=? c)%nat
                                 && truncates w0 n (n - 1) (maxFieldLenOf w0 fields)
                                      (stripColorCodes lastField)
                            then cutLine (maxFieldLenOf w0 fields) line lastField
                                   (stripColorCodes lastField)
                            else line))
              _ n (w0, cf0) (w', cf') _ _ Hrun).
    - split; [apply lineInv_entry|].
      rewrite (proj2 (Nat.leb_gt n 0) Hn). simpl. by rewrite Hlines0.
    - intros c [w1 cf1] [w2 cf2] Hc [Hinv Hl1] Hbody.
      rewrite (proj2 (Nat.leb_gt n c) Hc) in Hl1. simpl in Hl1.
      rewrite <- (maxFieldLenOf_sameConfig w w0) in Hbody by done.
      split.
      + apply (lineInv_step ColorOrange ColorReset w0 cf0 l fields c (w1, cf1));
          try done.
        unfold cf0. by rewrite length_insert.
      + destruct (lookup_lt_is_Some_2 fields c Hc) as [field Hfield].
        rewrite (createColumnsField_line w1 w2 l c _ fields cf1 cf2 field line
                   Hfield Hl1 Hbody).
        destruct Hinv as (Hcfg1 & _).
        rewrite (truncates_sameConfig w0 w1) by done. fold n.
        destruct (decide (c = n - 1)%nat) as [->|Hnc].
        * assert (field = lastField) as -> by congruence.
          by replace (n <=? Datatypes.S (n - 1))%nat with true
            by (symmetry; apply Nat.leb_le; lia).
        * replace (n <=? Datatypes.S c)%nat with false
            by (symmetry; apply Nat.leb_gt; lia).
          simpl.
          destruct (truncates w0 n c (maxFieldLenOf w0 fields) (stripColorCodes field))
            eqn:E; [|done].
          apply truncates_last_only in E. lia. }
  destruct Hend as [_ Hend]. rewrite Hend, Nat.leb_refl. simpl.
  rewrite (truncates_sameConfig w w0), (maxFieldLenOf_sameConfig w w0) by done.
  unfold storedLine. destruct line as [|b line']; [done|].
  done.
Qed.

(** The invariant of the outer loop on the stored lines: the lines before
    [l] are as [createColumns] leaves them, the others as they were. *)
Lemma createColumns_lines (w w' : Writer) (cf : list (list gostring)) :
  createColumns w = Some (w', cf) ->
  forall j line, lines w !! j = Some line -> lines w' !! j = Some (storedLine w line).
Proof.
  intros Hrun.
  assert (Hend :
    tableInv w (length (lines w)) (w', cf)
    /\ forall j line, lines w !! j = Some line ->
         lines w' !! j
         = Some (if (j <? length (lines w))%nat then storedLine w line else line)).
  { unfold createColumns in Hrun.
    refine (forRange_invariant
              (fun l st =>
                 tableInv w l st
                 /\ forall j line, lines w !! j = Some line ->
                      lines (fst st) !! j
                      = Some (if (j <? l)%nat then storedLine w line else line))
              _ _ (w, replicate (length (lines w)) []) (w', cf) _ _ Hrun).
    - split; [apply tableInv_entry|]. intros j line Hj. done.
    - intros l [w1 cf1] [w2 cf2] Hl [Hinv Hlines] Hbody. simpl in Hlines.
      split; [by apply (tableInv_step ColorOrange ColorReset w l (w1, cf1))|].
      simpl. intros j line Hj.
      destruct (lookup_lt_is_Some_2 (lines w) l Hl) as [this Hthis].
      destruct (decide (j = l)) as [->|Hne].
      + assert (line = this) as -> by congruence.
        replace (l <? Datatypes.S l)%nat with true by (symmetry; apply Nat.ltb_lt; lia).
        pose proof (Hlines l this Hthis) as Hl1.
        rewrite Nat.ltb_irrefl in Hl1.
        rewrite (createColumnsLine_line (lines w) w1 w2 cf1 cf2 l this Hthis Hl1 Hbody).
        destruct Hinv as (Hcfg & _).
        unfold storedLine. destruct this as [|b this']; [done|].
        by rewrite (truncates_sameConfig w w1), (maxFieldLenOf_sameConfig w w1).
      + assert (Hother : lines w2 !! j = lines w1 !! j).
        { destruct (decide (this = [])) as [->|Hthisne].
          - unfold createColumnsLine in Hbody. rewrite Hthis in Hbody.
            simpl in Hbody. by injection Hbody as <- <-.
          - destruct (createColumnsLine_spec ColorOrange ColorReset (lines w) w1 w2
                        cf1 cf2 l this Hthis Hthisne Hbody)
              as (_ & _ & _ & _ & _ & Hoth & _).
            by apply Hoth. }
        rewrite Hother, (Hlines j line Hj).
        replace (j <? Datatypes.S l)%nat with (j <? l)%nat; [done|].
        destruct (j <? l)%nat eqn:E1.
        * apply Nat.ltb_lt in E1. symmetry. apply Nat.ltb_lt. lia.
        * apply Nat.ltb_ge in E1. symmetry. apply Nat.ltb_ge. lia. }
  destruct Hend as [_ Hend]. intros j line Hj. rewrite (Hend j line Hj).
  by rewrite (proj2 (Nat.ltb_lt j (length (lines w))) (lookup_lt_Some _ _ _ Hj)).
Qed.

End StoredLines.




(** [createColumns] returns exactly when no cut is out of range. *)
Lemma createColumns_returns_iff (ColorOrange ColorReset : gostring) (w : Writer) :
  (exists r, createColumns ColorOrange ColorReset w = Some r)
  <-> (forall ln, ln ∈ lines w -> ln <> [] -> cutsInRange w (Split ln TAB)).
Proof.
  split.
  - intros [[w' cf] Hrun]. by apply createColumns_spec in Hrun as (_&_&_&_&_&H&_).
  - apply createColumns_total.
Qed.

(** C2 (the code departs from the specification): the stages are not total.  On a
    terminal of width 10 the line [a<TAB>bcd] has [maxFieldLen = 10/2 - 3 = 2];
    the last field has 3 bytes, so [truncateLongField] evaluates the slice
    [colorless[:2-5]], whose bound is negative: [createColumns] panics,
    whatever the two colour sequences are, and so does the [Flush] of that
    input. *)
Theorem C2_narrow_terminal_panics (ColorOrange ColorReset : gostring) :
  maxFieldLenOf (writerOf 0 10 [str "a" ++ [TAB] ++ str "bcd"] [])
    (Split (str "a" ++ [TAB] ++ str "bcd") TAB) = 2
  /\ sliceTo (str "bcd") (2 - 5) = None
  /\ createColumns ColorOrange ColorReset
       (writerOf 0 10 [str "a" ++ [TAB] ++ str "bcd"] []) = None
  /\ render 0 10 (str "a" ++ [TAB] ++ str "bcd" ++ [NL]) = None.
Proof. vm_compute. by split_and!. Qed.

(** ** Divider lines *)

(** With an unknown terminal width (0 or negative) [updateHLine] never appends
    a segment: the line only receives its left glyph, at the last field. *)
Lemma updateHLine_unknown_width (w : Writer) (hLine : gostring) (hLineLength : Z)
    (l : nat) (isLastRow isLastField : bool) :
  termCols w <= 0 ->
  HLine (dividers w) <> [] ->
  updateHLine w hLine hLineLength l isLastRow isLastField
  = Some (if isLastField then leftEdge (dividers w) l isLastRow ++ hLine else hLine).
Proof.
  intros Hw Hd. unfold updateHLine, leftEdge.
  destruct (HLine (dividers w)) as [|b hl] eqn:E; [done|].
  replace (len (b :: hl) =? 0) with false by (unfold len; simpl; lia).
  assert (Hq : 0 <= Z.quot (len hLine) (len (b :: hl))).
  { apply Z.quot_pos; unfold len; simpl; lia. }
  replace (termCols w - Z.quot (len hLine) (len (b :: hl)) >? 0) with false by lia.
  by destruct isLastField, (l =? 0)%nat, isLastRow.
Qed.

(** C3 (the code departs from the specification): with terminal width 0 truncation
    is off, but the divider lines are not drawn: [updateHLine] appends a
    segment only while [termCols - width so far > 0], so every divider line is
    its left glyph alone.  The input [a<TAB>b] renders as the three lines
    [┌], [│a │b │] and [└]. *)
Theorem C3_unknown_width_loses_borders :
  render 0 0 (str "a" ++ [TAB] ++ str "b" ++ [NL])
  = Some (str "┌" ++ [NL] ++ str "│a │b │" ++ [NL] ++ str "└" ++ [NL])
  /\ render 0 80 (str "a" ++ [TAB] ++ str "b" ++ [NL])
     = Some (str "┌──┬──┐" ++ [NL] ++ str "│a │b │" ++ [NL] ++ str "└──┴──┘" ++ [NL]).
Proof. vm_compute. by split. Qed.

(** With an unknown terminal width no field is cut. *)
Lemma unknown_width_noCut (w : Writer) (fields : list gostring) :
  termCols w <= 0 -> noCut w fields.
Proof.
  intros Hw c field _. unfold truncates.
  replace (termCols w >? 0) with false by lia.
  by rewrite andb_false_r.
Qed.

(** ** Truncation and the other fields *)

(** C5 (the code departs from the specification): [truncateLongField] rewrites the
    stored line with [strings.Replace(line, lastField, cut, -1)], which
    replaces every occurrence of the last field's text in the line.  On a
    terminal of width 16 the line [abcdefgh<TAB>abcdef] has [maxFieldLen = 5];
    the last field [abcdef] is cut to the marker, and so is its occurrence
    inside the first field: whatever the two colour sequences are, the
    stored first field becomes the coloured marker followed by [gh], and the
    row is rendered with it. *)
Theorem C5_truncation_rewrites_earlier_field (ColorOrange ColorReset : gostring) :
  option_map (fun r => lines (fst r))
    (createColumns ColorOrange ColorReset
       (writerOf 0 16 [str "abcdefgh" ++ [TAB] ++ str "abcdef"] []))
  = Some [ColorOrange ++ str "[...]" ++ ColorReset ++ str "gh" ++ [TAB]
            ++ ColorOrange ++ str "[...]" ++ ColorReset]
  /\ render 0 16 (str "abcdefgh" ++ [TAB] ++ str "abcdef" ++ [NL])
     = Some (str "┌─────────┬─────┐" ++ [NL]
             ++ str "│" ++ sampleOrange ++ str "[...]" ++ sampleReset ++ str "gh │"
             ++ sampleOrange ++ str "[...]" ++ sampleReset ++ str " │" ++ [NL]
             ++ str "└─────────┴─────┘" ++ [NL]).
Proof.
  split; [|vm_compute; reflexivity].
  transitivity
    (Some [((ColorOrange ++ str "[...]" ++ ColorReset) ++ [])
             ++ str "gh" ++ [TAB]
             ++ ((ColorOrange ++ str "[...]" ++ ColorReset) ++ []) ++ []]).
  - vm_compute. reflexivity.
  - rewrite !app_nil_r, <- !app_assoc. reflexivity.
Qed.

(** ** Flush and Clear *)

Lemma formatBuffer_sameConfig (ColorOrange ColorReset : gostring) (w w' : Writer)
    (out : gostring) :
  formatBuffer ColorOrange ColorReset w = Some (w', out) -> sameConfig w w'.
Proof.
  unfold formatBuffer.
  destruct (createColumns ColorOrange ColorReset w) as [[w1 cf]|] eqn:Hcols;
    simpl; [|done].
  destruct (createTable w1 cf); simpl; [|done].
  intros [= <- <-]. by apply createColumns_spec in Hcols as (_&H&_).
Qed.

(** C6: whatever [Flush] comes to (a return without or with the short-write
    error, or a panic, after which the deferred [Clear] still runs), the
    Writer it leaves has an empty buffer, no lines and no columns; its
    configuration is the one it had. *)
Theorem C6_Flush_clears (ColorOrange ColorReset : gostring)
    (unicode_Cf unicode_Cc unicode_Mn unicode_Zs unicode_IsSpace : Z -> bool)
    (w : Writer) :
  let w' := fst (Flush ColorOrange ColorReset
                   unicode_Cf unicode_Cc unicode_Mn unicode_Zs unicode_IsSpace w) in
  buffer w' = [] /\ lines w' = [] /\ columns w' = []
  /\ flags w' = flags w /\ termCols w' = termCols w /\ dividers w' = dividers w
  /\ output w' = output w.
Proof.
  unfold Flush.
  set (w1 := setLines w _).
  destruct (formatBuffer ColorOrange ColorReset w1) as [[w2 fb]|] eqn:Hfmt.
  - destruct (Write (output w2) fb) as [n err]. simpl.
    apply formatBuffer_sameConfig in Hfmt as (Ho & Hd & Hf & Ht & _).
    by rewrite Ho, Hd, Hf, Ht.
  - simpl. by split_and!.
Qed.

(** Both returns of [Flush] occur: a destination that takes every byte gives
    no error, one that takes none gives the short-write error; in both cases
    the Writer is cleared. *)
Example Flush_short_write :
  sampleFlush (fst (Writer_Write (NewWriter (mkIoWriter (fun _ => (0, false))) 0 80)
                      (str "a" ++ [NL])))
  = (NewWriter (mkIoWriter (fun _ => (0, false))) 0 80,
     Returned (str "┌──┐" ++ [NL] ++ str "│a │" ++ [NL] ++ str "└──┘" ++ [NL]) true).
Proof. vm_compute. reflexivity. Qed.

(** ** The left edge of the divider lines *)

(** One call of [updateHLine]: the left glyph is put in front exactly when the
    field is the last one of its line, and one segment is appended. *)
Lemma updateHLine_shape (w : Writer) (hLine h' : gostring) (hLineLength : Z)
    (l : nat) (isLastRow isLastField : bool) :
  updateHLine w hLine hLineLength l isLastRow isLastField = Some h' ->
  exists seg,
    h' = (if isLastField then leftEdge (dividers w) l isLastRow else [])
           ++ hLine ++ seg
    /\ isSegment (dividers w) l isLastRow isLastField seg.
Proof.
  unfold updateHLine.
  destruct (len (HLine (dividers w)) =? 0); [done|].
  set (edged := if isLastField then _ else hLine).
  assert (Hedged : edged = (if isLastField then leftEdge (dividers w) l isLastRow else [])
                             ++ hLine).
  { unfold edged, leftEdge. by destruct isLastField, (l =? 0)%nat, isLastRow. }
  set (x := if (l =? 0)%nat && negb isLastField then _ else _).
  assert (Hx : x = junction (dividers w) l isLastRow isLastField).
  { unfold x, junction. by destruct (l =? 0)%nat, isLastRow, isLastField. }
  rewrite Hedged, Hx. clear Hedged Hx edged x.
  assert (Hrun : forall count run h,
             (run0 ← Repeat (HLine (dividers w)) count;
              Some (h ++ run0 ++ junction (dividers w) l isLastRow isLastField))
             = Some run ->
             exists seg, run = h ++ seg
                         /\ isSegment (dividers w) l isLastRow isLastField seg).
  { intros count run h. unfold Repeat. destruct (count <? 0); simpl; [done|].
    intros [= <-]. eexists. split; [done|]. right. by eexists. }
  destruct (_ >? 0).
  - destruct (_ >=? _); intros H; apply Hrun in H as (seg & -> & Hseg);
      exists seg; by rewrite <- app_assoc.
  - intros [= <-]. exists []. rewrite app_nil_r. split; [done|by left].
Qed.

Lemma segmentsOf_nil (d : Dividers) (l : nat) (isLastRow : bool) (n : nat) :
  segmentsOf d l isLastRow n 0 [].
Proof. exists []. by split_and!. Qed.

Lemma segmentsOf_snoc (d : Dividers) (l : nat) (isLastRow : bool) (n c : nat)
    (body seg : gostring) :
  segmentsOf d l isLastRow n c body ->
  isSegment d l isLastRow (Z.of_nat c =? Z.of_nat n - 1) seg ->
  segmentsOf d l isLastRow n (Datatypes.S c) (body ++ seg).
Proof.
  intros (segs & Hlen & -> & Hsegs) Hseg. exists (segs ++ [seg]). split_and!.
  - rewrite length_app. simpl. lia.
  - rewrite concat_app. simpl. by rewrite app_nil_r.
  - intros i s Hi. apply lookup_app_Some in Hi as [Hi|[Hge Hi]].
    + by apply (Hsegs i).
    + rewrite Hlen in *. destruct (i - c)%nat as [|k] eqn:E; [|by destruct k].
      injection Hi as <-. by replace i with c by lia.
Qed.

Lemma dividerInv_step (w : Writer) (cf : list (list gostring)) (l : nat)
    (fields : list gostring) (c : nat) (st st' : gostring * gostring * gostring) :
  (c < length fields)%nat ->
  dividerInv w l fields c st ->
  createTableField w cf l fields st c = Some st' ->
  dividerInv w l fields (Datatypes.S c) st'.
Proof.
  intros Hc. destruct st as [[fb hLine] prefixHLine], st' as [[fb' hLine'] prefixHLine'].
  unfold dividerInv, createTableField.
  rewrite (proj2 (Nat.leb_gt (length fields) c) Hc).
  intros [(body & -> & Hbody) Hprefix].
  destruct (fields !! c) as [field|]; simpl; [|done].
  destruct (if hasFlag w StripColours then get2 cf l c else Some field) as [shown|];
    simpl; [|done].
  destruct (get2 cf l c) as [colorless|]; simpl; [|done].
  destruct (getPadding w c colorless) as [[[total lp] rp]|]; simpl; [|done].
  unfold len.
  assert (Hlf : (Z.of_nat c =? Z.of_nat (length fields) - 1)
                = (length fields <=? Datatypes.S c)%nat).
  { destruct (length fields <=? Datatypes.S c)%nat eqn:E.
    - apply Nat.leb_le in E. apply Z.eqb_eq. lia.
    - apply Nat.leb_gt in E. apply Z.eqb_neq. lia. }
  rewrite Hlf.
  destruct (if (l =? 0)%nat then _ else Some prefixHLine) as [p1|] eqn:Hp; simpl; [|done].
  destruct (updateHLine w body _ (l + 1) _ _) as [h1|] eqn:Hh; simpl; [|done].
  intros [= <- <- <-].
  apply updateHLine_shape in Hh as (seg & -> & Hseg).
  split.
  - exists (body ++ seg). split; [done|].
    apply segmentsOf_snoc; [done|]. by rewrite Hlf.
  - destruct (l =? 0)%nat eqn:Hl0.
    + destruct Hprefix as (pbody & -> & Hpbody).
      apply Nat.eqb_eq in Hl0 as ->.
      apply updateHLine_shape in Hp as (pseg & -> & Hpseg).
      exists (pbody ++ pseg). split; [done|].
      apply segmentsOf_snoc; [done|]. by rewrite Hlf.
    + congruence.
Qed.

(** C8, as stated, fails: the left glyph is not put in front at the first
    field's turn.  In a table of one line of two fields, after the first
    field the line above is [──┬] and the line below [──┴]; the glyphs [┌] and
    [└] arrive with the second, last field. *)
Lemma C8_counterexample :
  forRange
    (createTableField
       (writerOf 0 80 [str "a" ++ [TAB] ++ str "b"] [mkColumn 1; mkColumn 1])
       [[str "a"; str "b"]] 0 [str "a"; str "b"])
    1 ([], [], [])
  = Some (str "│a │", str "──┴", str "──┬")
  /\ forRange
       (createTableField
          (writerOf 0 80 [str "a" ++ [TAB] ++ str "b"] [mkColumn 1; mkColumn 1])
          [[str "a"; str "b"]] 0 [str "a"; str "b"])
       2 ([], [], [])
     = Some (str "│a │b │", str "└──┴──┘", str "┌──┬──┐").
Proof. vm_compute. by split. Qed.

(** C8, amended: every divider line [createTable] builds for a line of the
    table gets exactly one left glyph (top-left on the first row boundary,
    bottom-left on the last, left-mid otherwise), put in front at the LAST
    field's turn.  After [c] fields of line [l], the line below the row, and
    for [l = 0] the line above it, consist of the segments of those fields
    alone while [c] is less than the number of fields, and of the left glyph
    followed by the segments once all fields are through. *)
Theorem C8_left_edge_at_last_field (w : Writer) (colorlessFields : list (list gostring))
    (l : nat) (fields : list gostring) (c : nat)
    (formattedBuffer0 formattedBuffer hLine prefixHLine : gostring) :
  (c <= length fields)%nat ->
  fields <> [] ->
  forRange (createTableField w colorlessFields l fields) c (formattedBuffer0, [], [])
  = Some (formattedBuffer, hLine, prefixHLine) ->
  let d := dividers w in
  let isLastRow := Z.of_nat l =? len (lines w) - 1 in
  let allFields := (length fields <=? c)%nat in
  (exists body,
     hLine = (if allFields then leftEdge d (l + 1) isLastRow else []) ++ body
     /\ segmentsOf d (l + 1) isLastRow (length fields) c body)
  /\ (if (l =? 0)%nat then
        exists body,
          prefixHLine = (if allFields then leftEdge d 0 isLastRow else []) ++ body
          /\ segmentsOf d 0 isLastRow (length fields) c body
      else prefixHLine = []).
Proof.
  intros Hc Hne Hrun.
  apply (forRange_invariant (dividerInv w l fields)) in Hrun.
  - exact Hrun.
  - unfold dividerInv. destruct fields as [|f fs]; [done|]. simpl.
    split.
    + exists []. split; [done|apply segmentsOf_nil].
    + destruct (l =? 0)%nat; [|done].
      exists []. split; [done|apply segmentsOf_nil].
  - intros i t t' Hi. apply dividerInv_step. lia.
Qed.

Lemma C8_left_edge_at_last_field_witness :
  (exists body,
     str "└──┴──┘" = leftEdge boxDividers 1 true ++ body
     /\ segmentsOf boxDividers 1 true 2 2 body)
  /\ (exists body,
        str "┌──┬──┐" = leftEdge boxDividers 0 true ++ body
        /\ segmentsOf boxDividers 0 true 2 2 body).
Proof.
  apply (C8_left_edge_at_last_field
           (writerOf 0 80 [str "a" ++ [TAB] ++ str "b"] [mkColumn 1; mkColumn 1])
           [[str "a"; str "b"]] 0%nat [str "a"; str "b"] 2%nat
           [] (str "│a │b │") (str "└──┴──┘") (str "┌──┬──┐")).
  - simpl. lia.
  - discriminate.
  - vm_compute. reflexivity.
Defined.

(** ** Colour codes and their removal *)

Lemma isCodeByte_not_ESC (b : byte) : isCodeByte b = true -> b <> ESC.
Proof. intros H ->. vm_compute in H. done. Qed.

Lemma isCodeByte_not_m (b : byte) : isCodeByte b = true -> b <> x6d.
Proof. intros H ->. vm_compute in H. done. Qed.

Lemma byte_eqb_refl (b : byte) : Byte.eqb b b = true.
Proof. by apply byte_dec_lb. Qed.

Lemma byte_eqb_ne (a b : byte) : a <> b -> Byte.eqb a b = false.
Proof.
  intros Hne. destruct (Byte.eqb a b) eqn:E; [|done].
  by apply byte_dec_bl in E.
Qed.

Lemma plain_app (s t : gostring) : plain (s ++ t) <-> plain s /\ plain t.
Proof. apply Forall_app. Qed.

Lemma plain_nil : plain [].
Proof. constructor. Qed.

Lemma plain_cons (b : byte) (s : gostring) : b <> ESC -> plain s -> plain (b :: s).
Proof. by constructor. Qed.

Lemma plain_app_2 (s t : gostring) : plain s -> plain t -> plain (s ++ t).
Proof. intros. by apply plain_app. Qed.

Create HintDb plain.
#[local] Hint Resolve plain_nil plain_cons plain_app_2 : plain.
#[local] Hint Extern 1 (_ <> ESC) => discriminate : plain.

Lemma isCodeRun_plain (run : gostring) :
  Forall (fun b => isCodeByte b = true) run -> plain run.
Proof. apply Forall_impl. intros b. apply isCodeByte_not_ESC. Qed.

Lemma spanCode_run (run rest : gostring) :
  Forall (fun b => isCodeByte b = true) run ->
  spanCode (run ++ x6d :: rest) = (run, x6d :: rest).
Proof.
  induction 1 as [|b run Hb _ IH]; simpl; [done|]. by rewrite Hb, IH.
Qed.

Lemma matchColorCode_code (run rest : gostring) :
  isCodeRun run -> matchColorCode (colorCode run ++ rest) = Some (colorCode run).
Proof.
  intros [Hne Hrun]. unfold colorCode, matchColorCode. simpl.
  rewrite <- app_assoc. simpl. rewrite (spanCode_run run rest Hrun).
  by destruct run.
Qed.

Lemma matchColorCode_plain (b : byte) (s : gostring) :
  b <> ESC -> matchColorCode (b :: s) = None.
Proof.
  intros Hb. unfold matchColorCode. destruct s as [|b1 s]; [done|].
  by rewrite (byte_eqb_ne b ESC).
Qed.

Lemma HasPrefix_app (p rest : gostring) : HasPrefix (p ++ rest) p = true.
Proof.
  induction p as [|b p IH]; simpl; [by destruct rest|]. by rewrite byte_eqb_refl.
Qed.

Lemma HasPrefix_plain (b : byte) (s old : gostring) :
  b <> ESC -> HasPrefix (b :: s) (ESC :: old) = false.
Proof. intros Hb. simpl. by rewrite (byte_eqb_ne b ESC). Qed.

(** Colour codes are prefix free: a code at the head of a text is the only
    code that is a prefix of the text. *)
Lemma HasPrefix_run (run run' rest : gostring) :
  Forall (fun b => isCodeByte b = true) run ->
  Forall (fun b => isCodeByte b = true) run' ->
  HasPrefix (run ++ x6d :: rest) (run' ++ [x6d]) = true -> run = run'.
Proof.
  intros Hrun. revert run'.
  induction Hrun as [|b run Hb _ IH]; intros run' Hrun' Hpre.
  - destruct Hrun' as [|b' run' Hb' _]; [done|]. simpl in Hpre.
    apply andb_true_iff in Hpre as [Hpre _]. apply byte_dec_bl in Hpre.
    by apply isCodeByte_not_m in Hb'.
  - destruct Hrun' as [|b' run' Hb' Hrun']; simpl in Hpre.
    + apply andb_true_iff in Hpre as [Hpre _]. apply byte_dec_bl in Hpre.
      by apply isCodeByte_not_m in Hb.
    + apply andb_true_iff in Hpre as [Hpre Hrest]. apply byte_dec_bl in Hpre.
      subst b'. f_equal. by apply IH.
Qed.

Lemma HasPrefix_code (run run' rest : gostring) :
  isCodeRun run -> isCodeRun run' ->
  HasPrefix (colorCode run ++ rest) (colorCode run') = true -> run = run'.
Proof.
  intros [_ Hrun] [_ Hrun']. unfold colorCode. simpl.
  rewrite <- app_assoc. simpl. apply HasPrefix_run; done.
Qed.

Lemma replaceFrom_skip (old new t rest : gostring) :
  replaceFrom old new (length t) (t ++ rest) = replaceFrom old new 0 rest.
Proof.
  induction t as [|b t IH]; simpl; [|done].
  destruct rest; done.
Qed.

Lemma replaceFrom_plain (old new t rest : gostring) :
  plain t ->
  replaceFrom (ESC :: old) new 0 (t ++ rest)
  = t ++ replaceFrom (ESC :: old) new 0 rest.
Proof.
  induction 1 as [|b t Hb _ IH]; [done|].
  change ((b :: t) ++ rest) with (b :: (t ++ rest)).
  cbn [replaceFrom]. rewrite (HasPrefix_plain b _ old Hb). by rewrite IH.
Qed.

Lemma findAllFrom_skip (t rest : gostring) :
  findAllFrom (length t) (t ++ rest) = findAllFrom 0 rest.
Proof.
  induction t as [|b t IH]; simpl; [|done].
  destruct rest; done.
Qed.

Lemma findAllFrom_plain_byte (b : byte) (s : gostring) :
  b <> ESC -> findAllFrom 0 (b :: s) = findAllFrom 0 s.
Proof. intros Hb. cbn [findAllFrom]. by rewrite (matchColorCode_plain b s Hb). Qed.

Lemma findAllFrom_code (run rest : gostring) :
  isCodeRun run ->
  findAllFrom 0 (colorCode run ++ rest) = colorCode run :: findAllFrom 0 rest.
Proof.
  intros Hrun.
  change (colorCode run ++ rest) with (ESC :: (x5b :: run ++ [x6d]) ++ rest) at 1.
  cbn [findAllFrom].
  change (ESC :: (x5b :: run ++ [x6d]) ++ rest) with (colorCode run ++ rest).
  rewrite (matchColorCode_code run rest Hrun). f_equal.
  replace (length (colorCode run) - 1)%nat with (length (x5b :: run ++ [x6d]))
    by (unfold colorCode; simpl; lia).
  apply findAllFrom_skip.
Qed.

(** The codes [FindAllString] finds in a text whose escapes are all codes. *)
Lemma FindAllString_codes (s : gostring) :
  colorCoded s ->
  Forall (fun cc => exists run, isCodeRun run /\ cc = colorCode run) (FindAllString s).
Proof.
  unfold FindAllString.
  induction 1 as [|b s Hb _ IH|run s Hrun _ IH].
  - constructor.
  - by rewrite findAllFrom_plain_byte.
  - rewrite findAllFrom_code by done. constructor; [|done]. by exists run.
Qed.

(** A text in which [FindAllString] finds nothing has no escape byte. *)
Lemma FindAllString_none (s : gostring) :
  colorCoded s -> FindAllString s = [] -> plain s.
Proof.
  unfold FindAllString.
  induction 1 as [|b s Hb _ IH|run s Hrun _ IH]; intros Hnone.
  - constructor.
  - rewrite findAllFrom_plain_byte in Hnone by done. constructor; [done|by apply IH].
  - by rewrite findAllFrom_code in Hnone.
Qed.

Lemma replaceFrom_plain_byte (old new : gostring) (b : byte) (s : gostring) :
  b <> ESC ->
  replaceFrom (ESC :: old) new 0 (b :: s) = b :: replaceFrom (ESC :: old) new 0 s.
Proof. intros Hb. apply (replaceFrom_plain old new [b] s). by constructor. Qed.

Lemma replaceFrom_code_byte (run : gostring) (b : byte) (s : gostring) :
  b <> ESC ->
  replaceFrom (colorCode run) [] 0 (b :: s) = b :: replaceFrom (colorCode run) [] 0 s.
Proof. apply replaceFrom_plain_byte. Qed.

Lemma replaceFrom_code_same (run s : gostring) :
  replaceFrom (colorCode run) [] 0 (colorCode run ++ s)
  = replaceFrom (colorCode run) [] 0 s.
Proof.
  pose proof (HasPrefix_app (colorCode run) s) as Hpre.
  unfold colorCode in *.
  change ((ESC :: x5b :: run ++ [x6d]) ++ s)
    with (ESC :: ((x5b :: run ++ [x6d]) ++ s)) in *.
  cbn [replaceFrom]. rewrite Hpre. cbn [app].
  replace (length (ESC :: x5b :: run ++ [x6d]) - 1)%nat
    with (length (x5b :: run ++ [x6d])) by (simpl; lia).
  apply replaceFrom_skip.
Qed.

Lemma replaceFrom_code_other (run run' s : gostring) :
  isCodeRun run' ->
  HasPrefix (colorCode run' ++ s) (colorCode run) = false ->
  replaceFrom (colorCode run) [] 0 (colorCode run' ++ s)
  = colorCode run' ++ replaceFrom (colorCode run) [] 0 s.
Proof.
  intros [_ Hrun'] Hpre. unfold colorCode in *.
  change ((ESC :: x5b :: run' ++ [x6d]) ++ s)
    with (ESC :: ((x5b :: run' ++ [x6d]) ++ s)) in *.
  cbn [replaceFrom]. rewrite Hpre. cbn [app]. f_equal.
  apply (replaceFrom_plain _ [] (x5b :: run' ++ [x6d]) s).
  constructor; [done|]. apply plain_app. split.
  - by apply isCodeRun_plain.
  - by constructor.
Qed.

(** Removing one code keeps the text well formed and leaves only codes that
    were there and differ from the one removed. *)
Lemma Replace_code (s run : gostring) :
  colorCoded s -> isCodeRun run ->
  colorCoded (Replace s (colorCode run) [])
  /\ forall cc, cc ∈ FindAllString (Replace s (colorCode run) []) ->
       cc ∈ FindAllString s /\ cc <> colorCode run.
Proof.
  intros Hs Hrun.
  assert (HR : forall t, Replace t (colorCode run) [] = replaceFrom (colorCode run) [] 0 t)
    by done.
  rewrite HR. clear HR. unfold FindAllString.
  induction Hs as [|b s Hb _ [IH1 IH2]|run' s Hrun' _ [IH1 IH2]].
  - split; [constructor|]. intros cc Hcc. by apply elem_of_nil in Hcc.
  - rewrite !replaceFrom_code_byte by done. split; [by constructor|].
    intros cc. rewrite !findAllFrom_plain_byte by done. apply IH2.
  - destruct (HasPrefix (colorCode run' ++ s) (colorCode run)) eqn:Hpre.
    + pose proof (HasPrefix_code run' run s Hrun' Hrun Hpre) as ->.
      rewrite replaceFrom_code_same. split; [done|].
      intros cc Hcc. destruct (IH2 cc Hcc) as [Hin Hne]. split; [|done].
      rewrite findAllFrom_code by done. by apply list_elem_of_further.
    + assert (Hne : colorCode run' <> colorCode run).
      { intros Heq. rewrite Heq, HasPrefix_app in Hpre. done. }
      rewrite replaceFrom_code_other by done.
      split; [by constructor|].
      intros cc. rewrite !findAllFrom_code by done.
      intros [->|Hcc]%elem_of_cons.
      * split; [apply list_elem_of_here|done].
      * destruct (IH2 cc Hcc) as [Hin Hne']. split; [|done].
        by apply list_elem_of_further.
Qed.

(** Removing, one after the other, a list of codes that holds every code of
    the text leaves no escape byte. *)
Lemma remove_codes_plain (codes : list gostring) (s : gostring) :
  colorCoded s ->
  Forall (fun cc => exists run, isCodeRun run /\ cc = colorCode run) codes ->
  (forall cc, cc ∈ FindAllString s -> cc ∈ codes) ->
  plain (fold_left (fun colorless cc => Replace colorless cc []) codes s).
Proof.
  intros Hs Hcodes. revert s Hs.
  induction Hcodes as [|cc codes (run & Hrun & ->) _ IH]; intros s Hs Hall; simpl.
  - apply FindAllString_none; [done|].
    destruct (FindAllString s) as [|x xs]; [done|].
    exfalso. eapply elem_of_nil. apply (Hall x). apply list_elem_of_here.
  - destruct (Replace_code s run Hs Hrun) as [Hs' Hin'].
    apply IH; [done|]. intros cc Hcc. destruct (Hin' cc Hcc) as [Hin Hne].
    apply Hall in Hin. apply elem_of_cons in Hin as [->|Hin]; done.
Qed.

(** The colourless copy of a field whose escapes are all codes has no escape
    byte. *)
Lemma stripColorCodes_plain (field : gostring) :
  colorCoded field -> plain (stripColorCodes field).
Proof.
  intros Hs. unfold stripColorCodes.
  apply remove_codes_plain; [done|by apply FindAllString_codes|done].
Qed.

Lemma spanCode_spec (s run rest : gostring) :
  spanCode s = (run, rest) ->
  s = run ++ rest /\ Forall (fun b => isCodeByte b = true) run.
Proof.
  revert run rest. induction s as [|b s IH]; intros run rest; simpl.
  - intros [= <- <-]. by split.
  - destruct (isCodeByte b) eqn:Hb.
    + destruct (spanCode s) as [run' rest'] eqn:E. intros [= <- <-].
      destruct (IH run' rest' eq_refl) as [-> Hrun]. split; [done|by constructor].
    + intros [= <- <-]. by split.
Qed.

Lemma matchColorCode_Some (s m : gostring) :
  matchColorCode s = Some m ->
  exists run rest, isCodeRun run /\ m = colorCode run /\ s = colorCode run ++ rest.
Proof.
  unfold matchColorCode. destruct s as [|b0 [|b1 t]]; [done|done|].
  destruct (Byte.eqb b0 ESC && Byte.eqb b1 x5b) eqn:E; [|done].
  apply andb_true_iff in E as [E0 E1].
  apply byte_dec_bl in E0, E1. subst b0 b1.
  destruct (spanCode t) as [run rest] eqn:Hspan.
  apply spanCode_spec in Hspan as [-> Hrun].
  destruct run as [|r run]; [done|]. destruct rest as [|b rest]; [done|].
  destruct (Byte.eqb b x6d) eqn:Eb; [|done]. apply byte_dec_bl in Eb. subst b.
  intros [= <-]. exists (r :: run), rest. split; [by split|]. split; [done|].
  unfold colorCode. simpl. by rewrite <- app_assoc.
Qed.

Lemma escapesAreCodes_suffix (t rest : gostring) :
  escapesAreCodes (t ++ rest) = true -> escapesAreCodes rest = true.
Proof.
  induction t as [|b t IH]; [done|]. simpl.
  intros H. apply andb_true_iff in H as [_ H]. by apply IH.
Qed.

(** The test is sound. *)
Lemma escapesAreCodes_sound (s : gostring) :
  escapesAreCodes s = true -> colorCoded s.
Proof.
  remember (length s) as n eqn:Hn. revert s Hn.
  induction n as [n IH] using lt_wf_ind. intros s Hn Hs.
  destruct s as [|b s']; [constructor|].
  cbn [escapesAreCodes] in Hs. apply andb_true_iff in Hs as [Hhead Htail].
  destruct (Byte.eqb b ESC) eqn:Hb.
  - destruct (matchColorCode (b :: s')) as [m|] eqn:Hm; [|done].
    apply matchColorCode_Some in Hm as (run & rest & Hrun & -> & Heq).
    rewrite Heq. constructor; [done|].
    assert (Hs' : s' = (x5b :: run ++ [x6d]) ++ rest).
    { unfold colorCode in Heq. simpl in Heq. by injection Heq. }
    apply (IH (length rest)); [|done|].
    + subst n s'. simpl. rewrite !length_app. simpl. lia.
    + rewrite Hs' in Htail. by apply escapesAreCodes_suffix in Htail.
  - constructor; [by apply eqb_false|].
    apply (IH (length s')); [subst n; simpl; lia|done|done].
Qed.

(** ** The rendered table without colours *)

Lemma Repeat_plain (s r : gostring) (n : Z) :
  plain s -> Repeat s n = Some r -> plain r.
Proof.
  intros Hs. unfold Repeat. destruct (n <? 0); [done|]. intros [= <-].
  induction (Z.to_nat n) as [|k IH]; simpl; [constructor|].
  apply plain_app. by split.
Qed.

Lemma plain_SP : plain [SP].
Proof. by repeat constructor. Qed.

Lemma getPadding_plain (w : Writer) (c : nat) (s : gostring) (total : Z)
    (lp rp : gostring) :
  getPadding w c s = Some (total, lp, rp) -> plain lp /\ plain rp.
Proof.
  unfold getPadding. destruct (columns w !! c) as [col|]; simpl; [|done].
  destruct (negb (hasFlag w PreserveLongFields)).
  2: { intros [= <- <- <-]. split; constructor. }
  destruct (hasFlag w AlignMiddle), (hasFlag w AlignRight);
    repeat match goal with
      | |- context [Repeat [SP] ?n ≫= _] =>
          let E := fresh "E" in
          destruct (Repeat [SP] n) eqn:E; simpl; [|done]
      end;
    intros [= <- <- <-]; split; try constructor;
    eapply Repeat_plain; eauto using plain_SP.
Qed.

Lemma leftEdge_plain (d : Dividers) (l : nat) (isLastRow : bool) :
  dividersPlain d -> plain (leftEdge d l isLastRow).
Proof.
  intros (?&?&?&?&?&?&?&?&?&?&?). unfold leftEdge.
  by destruct (l =? 0)%nat, isLastRow.
Qed.

Lemma junction_plain (d : Dividers) (l : nat) (isLastRow isLastField : bool) :
  dividersPlain d -> plain (junction d l isLastRow isLastField).
Proof.
  intros (?&?&?&?&?&?&?&?&?&?&?). unfold junction.
  by destruct (l =? 0)%nat, isLastRow, isLastField.
Qed.

Lemma isSegment_plain (d : Dividers) (l : nat) (isLastRow isLastField : bool)
    (seg : gostring) :
  dividersPlain d -> isSegment d l isLastRow isLastField seg -> plain seg.
Proof.
  intros Hd [->|[k ->]]; [constructor|].
  apply plain_app. split; [|by apply junction_plain].
  destruct Hd as (Hh & _).
  induction k as [|k IH]; simpl; [constructor|]. apply plain_app. by split.
Qed.

Lemma updateHLine_plain (w : Writer) (hLine h' : gostring) (hLineLength : Z)
    (l : nat) (isLastRow isLastField : bool) :
  dividersPlain (dividers w) -> plain hLine ->
  updateHLine w hLine hLineLength l isLastRow isLastField = Some h' ->
  plain h'.
Proof.
  intros Hd Hh Hrun. apply updateHLine_shape in Hrun as (seg & -> & Hseg).
  apply plain_app. split.
  - destruct isLastField; [by apply leftEdge_plain|constructor].
  - apply plain_app. split; [done|]. by eapply isSegment_plain.
Qed.

Lemma asciiDividers_plain : dividersPlain asciiDividers.
Proof. unfold dividersPlain, plain. vm_compute. split_and!; by repeat constructor. Qed.

Lemma boxDividers_plain : dividersPlain boxDividers.
Proof. unfold dividersPlain, plain. vm_compute. split_and!; by repeat constructor. Qed.

(** With the strip-colours flag, glyphs without escape byte and colourless
    fields without escape byte, [createTable] writes no escape byte. *)
Lemma createTable_plain (w : Writer) (cf : list (list gostring)) (out : gostring) :
  hasFlag w StripColours = true ->
  dividersPlain (dividers w) ->
  (forall l c v, get2 cf l c = Some v -> plain v) ->
  createTable w cf = Some out ->
  plain out.
Proof.
  intros Hstrip Hd Hcf Hrun. unfold createTable in Hrun.
  apply (forRange_invariant (fun _ fb => plain fb)) in Hrun; [done|constructor|].
  intros l fb fb' _ Hfb. unfold createTableLine.
  destruct (lines w !! l) as [line|]; simpl; [|done].
  destruct (len line =? 0); [by intros [= <-]|].
  clear Hrun.
  destruct (forRange (createTableField w cf l (Split line TAB)) _ _)
    as [[[fb1 h1] p1]|] eqn:Hinner; simpl; [|done].
  intros [= <-].
  apply (forRange_invariant
           (fun _ st => let '(b, h, p) := st in plain b /\ plain h /\ plain p))
    in Hinner.
  - destruct Hinner as (Hb & Hh & Hp).
    destruct (l =? 0)%nat; auto 10 with plain.
  - split_and!; [done|constructor|constructor].
  - intros c [[b h] p] [[b' h'] p'] _ (Hb & Hh & Hp). unfold createTableField.
    destruct (Split line TAB !! c) as [field|]; simpl; [|done].
    rewrite Hstrip.
    destruct (get2 cf l c) as [v|] eqn:Hv; simpl; [|done].
    destruct (getPadding w c v) as [[[total lp] rp]|] eqn:Hpad; simpl; [|done].
    destruct (if (l =? 0)%nat then _ else Some p) as [p2|] eqn:Hp2; simpl; [|done].
    destruct (updateHLine w h _ _ _ _) as [h2|] eqn:Hh2; simpl; [|done].
    intros [= <- <- <-].
    apply getPadding_plain in Hpad as [Hlp Hrp].
    pose proof (Hcf l c v Hv) as Hplain.
    pose proof Hd as (Hhl & Hvl & _).
    split_and!.
    + destruct (c =? 0)%nat; auto 10 with plain.
    + by eapply updateHLine_plain; [|exact Hh|exact Hh2].
    + destruct (l =? 0)%nat; [|by injection Hp2 as <-].
      by eapply updateHLine_plain; [|exact Hp|exact Hp2].
Qed.

Lemma finalColorless_plain (w : Writer) (n c : nat) (m : Z) (cl : gostring) :
  plain cl -> plain (finalColorless w n c m cl).
Proof.
  intros Hcl. unfold finalColorless. destruct (truncates w n c m cl); [|done].
  apply plain_app_2; [by apply Forall_take|].
  vm_compute. by repeat constructor.
Qed.

(** The colourless fields [createColumns] returns have no escape byte when
    every escape byte of every field starts a complete colour code. *)
Lemma createColumns_plain (ColorOrange ColorReset : gostring) (w w' : Writer)
    (cf : list (list gostring)) :
  createColumns ColorOrange ColorReset w = Some (w', cf) ->
  (forall line field, line ∈ lines w -> field ∈ Split line TAB -> colorCoded field) ->
  forall l c v, get2 cf l c = Some v -> plain v.
Proof.
  intros Hrun Hcoded l c v Hv.
  apply createColumns_spec in Hrun as (-> & _).
  unfold get2 in Hv. rewrite list_lookup_fmap in Hv.
  destruct (lines w !! l) as [line|] eqn:Hline; [|done].
  change (colorlessRow w line !! c = Some v) in Hv.
  destruct (decide (line = [])) as [->|Hne]; [done|].
  assert (Hrow : colorlessRow w line = finalRow w (Split line TAB))
    by (by destruct line).
  rewrite Hrow in Hv.
  destruct (Split line TAB !! c) as [field|] eqn:Hfield.
  2: { apply lookup_lt_Some in Hv. rewrite finalRow_length in Hv.
       apply lookup_ge_None in Hfield. lia. }
  rewrite (finalRow_lookup w _ c field Hfield) in Hv.
  injection Hv as <-. apply finalColorless_plain, stripColorCodes_plain.
  apply (Hcoded line field); by eapply list_elem_of_lookup_2.
Qed.

Lemma formatBuffer_plain (ColorOrange ColorReset : gostring) (w w' : Writer)
    (out : gostring) :
  hasFlag w StripColours = true ->
  dividersPlain (dividers w) ->
  (forall line field, line ∈ lines w -> field ∈ Split line TAB -> colorCoded field) ->
  formatBuffer ColorOrange ColorReset w = Some (w', out) ->
  plain out.
Proof.
  intros Hstrip Hd Hcoded. unfold formatBuffer.
  destruct (createColumns ColorOrange ColorReset w) as [[w1 cf]|] eqn:Hcols;
    simpl; [|done].
  destruct (createTable w1 cf) as [fb|] eqn:Htable; simpl; [|done].
  intros [= <- <-].
  pose proof (createColumns_spec _ _ _ _ _ Hcols) as (_ & Hcfg & _).
  apply (createTable_plain w1 cf fb); try done.
  - by rewrite (sameConfig_hasFlag w w1).
  - destruct Hcfg as (_ & -> & _). done.
  - by eapply createColumns_plain.
Qed.

Lemma In_removelast {A : Type} (x : A) (l : list A) :
  In x (removelast l) -> In x l.
Proof.
  induction l as [|a l IH]; [done|]. simpl.
  destruct l as [|b l]; [done|]. intros [->|H]; [by left|right; by apply IH].
Qed.

(** C7, as stated, fails: an escape byte that starts no complete colour code
    is neither removed by [cleanInvisibleChars], which keeps the escape byte,
    nor by the pattern, which only matches whole codes.  With strip-colours
    set, the buffer made of one escape byte and a newline is rendered with
    the escape byte in its only cell. *)
Lemma C7_counterexample :
  render StripColours 80 [ESC; NL]
  = Some (str "┌──┐" ++ [NL] ++ str "│" ++ [ESC; SP] ++ str "│" ++ [NL]
          ++ str "└──┘" ++ [NL])
  /\ In ESC (str "┌──┐" ++ [NL] ++ str "│" ++ [ESC; SP] ++ str "│" ++ [NL]
             ++ str "└──┘" ++ [NL]).
Proof.
  vm_compute. split; [reflexivity|].
  repeat first [left; reflexivity | right].
Qed.

(** C7, amended: when the strip-colours flag is set, the glyphs are those
    [NewWriter] chooses, and in every field of the sanitized buffer every
    escape byte starts a complete colour code (escape, [[], one or more of
    [0-9;], [m]), the bytes [Flush] hands to its destination hold no escape
    byte. *)
Theorem C7_strip_colours_no_escape (ColorOrange ColorReset : gostring)
    (unicode_Cf unicode_Cc unicode_Mn unicode_Zs unicode_IsSpace : Z -> bool)
    (w : Writer) (out : gostring) (err : bool) :
  hasFlag w StripColours = true ->
  dividers w = asciiDividers \/ dividers w = boxDividers ->
  forallb (fun line => forallb escapesAreCodes (Split line TAB))
    (Split (cleanInvisibleChars unicode_Cf unicode_Cc unicode_Mn unicode_Zs
              unicode_IsSpace (buffer w)) NL) = true ->
  snd (Flush ColorOrange ColorReset
         unicode_Cf unicode_Cc unicode_Mn unicode_Zs unicode_IsSpace w)
  = Returned out err ->
  ~ In ESC out.
Proof.
  intros Hstrip Hd Hcodes. unfold Flush.
  set (ls := Split _ NL) in *.
  set (ls' := if len (List.last ls []) =? 0 then removelast ls else ls).
  destruct (formatBuffer ColorOrange ColorReset (setLines w ls'))
    as [[w2 fb]|] eqn:Hfmt; [|done].
  destruct (Write (output w2) fb) as [n e]. simpl. intros [= <- _].
  assert (Hplain : plain fb).
  { apply (formatBuffer_plain ColorOrange ColorReset (setLines w ls') w2 fb);
      try done.
    - simpl. destruct Hd as [-> | ->];
        [apply asciiDividers_plain|apply boxDividers_plain].
    - simpl. intros line field Hline Hfield.
      apply escapesAreCodes_sound.
      rewrite forallb_forall in Hcodes.
      assert (Hin : In line ls).
      { apply list_elem_of_In in Hline. unfold ls' in Hline.
        destruct (len (List.last ls []) =? 0); [by apply In_removelast|done]. }
      specialize (Hcodes line Hin). rewrite forallb_forall in Hcodes.
      apply Hcodes. by apply list_elem_of_In. }
  intros Hin. unfold plain in Hplain. rewrite List.Forall_forall in Hplain.
  exact (Hplain ESC Hin eq_refl).
Qed.

Lemma C7_strip_colours_no_escape_witness :
  ~ In ESC (str "┌────┬──┐" ++ [NL] ++ str "│red │b │" ++ [NL]
            ++ str "└────┴──┘" ++ [NL]).
Proof.
  apply (C7_strip_colours_no_escape sampleOrange sampleReset
           latin1_Cf latin1_Cc latin1_Mn latin1_Zs latin1_IsSpace
           (fst (Writer_Write (NewWriter acceptAll StripColours 80)
                   ([ESC] ++ str "[31mred" ++ [ESC] ++ str "[0m" ++ [TAB]
                      ++ str "b" ++ [NL])))
           _ false).
  - reflexivity.
  - right. reflexivity.
  - vm_compute. reflexivity.
  - vm_compute. reflexivity.
Defined.

(** ** Replacement, tabs and emptiness *)

Lemma tabCount_app (s t : gostring) : tabCount (s ++ t) = (tabCount s + tabCount t)%nat.
Proof.
  induction s as [|b s IH]; simpl; [done|].
  destruct (Byte.eqb b TAB); simpl; by rewrite IH.
Qed.

Lemma tabCount_tabFree (s : gostring) : tabFree s -> tabCount s = O.
Proof.
  induction 1 as [|b s Hb _ IH]; simpl; [done|]. by rewrite (byte_eqb_ne b TAB).
Qed.

(** A text of [k] tabs splits into [k + 1] fields, none of which has a tab. *)
Lemma Split_length (s : gostring) :
  length (Split s TAB) = Datatypes.S (tabCount s).
Proof.
  induction s as [|b s IH]; simpl; [done|].
  destruct (Byte.eqb b TAB); simpl; [by rewrite IH|].
  destruct (Split s TAB); simpl in *; lia.
Qed.

Lemma Split_tabFree (s : gostring) : Forall tabFree (Split s TAB).
Proof.
  induction s as [|b s IH]; simpl.
  - repeat constructor.
  - destruct (Byte.eqb b TAB) eqn:Hb.
    + constructor; [constructor|done].
    + destruct (Split s TAB) as [|f fs]; [repeat constructor; by apply eqb_false|].
      inversion IH as [|? ? Hf Hfs]; subst.
      constructor; [|done]. constructor; [by apply eqb_false|done].
Qed.

Lemma HasPrefix_true (s old : gostring) :
  HasPrefix s old = true -> s = old ++ drop (length old) s.
Proof.
  revert s. induction old as [|o old IH]; intros s H; [by destruct s|].
  destruct s as [|b s]; [done|]. simpl in H.
  apply andb_true_iff in H as [Hb H]. apply byte_dec_bl in Hb. subst o.
  simpl. f_equal. by apply IH.
Qed.

Lemma replaceFrom_drop (old new : gostring) (skip : nat) (s : gostring) :
  replaceFrom old new skip s = replaceFrom old new 0 (drop skip s).
Proof.
  revert skip. induction s as [|b s IH]; intros skip.
  - by destruct skip.
  - destruct skip as [|k]; [done|]. simpl. apply IH.
Qed.

(** One step of the scan, from a position where nothing is to be skipped. *)
Lemma replaceFrom_unfold (old new : gostring) (b : byte) (s : gostring) :
  replaceFrom old new 0 (b :: s)
  = if HasPrefix (b :: s) old
    then new ++ replaceFrom old new 0 (drop (length old - 1) s)
    else b :: replaceFrom old new 0 s.
Proof.
  cbn [replaceFrom]. destruct (HasPrefix (b :: s) old); [|done].
  by rewrite replaceFrom_drop.
Qed.

(** What holds of [replaceFrom old new 0 s] for every [s], by induction on
    the scan. *)
Lemma replaceFrom_ind (old new : gostring) (P : gostring -> gostring -> Prop) :
  old <> [] ->
  P [] [] ->
  (forall rest r, P rest r -> P (old ++ rest) (new ++ r)) ->
  (forall b s r, HasPrefix (b :: s) old = false -> P s r -> P (b :: s) (b :: r)) ->
  forall s, P s (replaceFrom old new 0 s).
Proof.
  intros Hold Hnil Hhit Hmiss s.
  remember (length s) as n eqn:Hn. revert s Hn.
  induction n as [n IH] using lt_wf_ind. intros s Hn.
  destruct s as [|b s]; [done|].
  rewrite replaceFrom_unfold.
  destruct (HasPrefix (b :: s) old) eqn:Hpre.
  - pose proof (HasPrefix_true _ _ Hpre) as Heq.
    destruct old as [|o old]; [done|]. simpl in Heq.
    injection Heq as <- Hs.
    replace (length (b :: old) - 1)%nat with (length old) by (simpl; lia).
    rewrite Hs at 1.
    apply (Hhit (drop (length old) s)).
    apply (IH (length (drop (length old) s))); [|done].
    rewrite length_drop. subst n. simpl. lia.
  - apply Hmiss; [done|]. apply (IH (length s)); [subst n; simpl; lia|done].
Qed.

Lemma insertAtRunes_Forall (P : byte -> Prop) (fuel : nat) (new s : gostring) :
  Forall P s -> Forall P new -> Forall P (insertAtRunes fuel new s).
Proof.
  revert s. induction fuel as [|fuel IH]; intros s Hs Hnew; simpl; [done|].
  destruct s as [|b s]; [done|].
  apply Forall_app_2; [done|]. apply Forall_app_2.
  - by apply Forall_take.
  - apply IH; [by apply Forall_drop|done].
Qed.

(** Replacement keeps what holds of every byte of the text and of [new]. *)
Lemma Replace_Forall (P : byte -> Prop) (s old new : gostring) :
  Forall P s -> Forall P new -> Forall P (Replace s old new).
Proof.
  intros Hs Hnew. unfold Replace. destruct old as [|o old].
  - by apply insertAtRunes_Forall.
  - revert Hs.
    apply (replaceFrom_ind (o :: old) new
             (fun s r => Forall P s -> Forall P r)); [done|done| |].
    + intros rest r IH Hall. apply Forall_app in Hall as [_ Hrest].
      apply Forall_app_2; [done|by apply IH].
    + intros b t r _ IH Hall. inversion Hall as [|? ? Hb Ht]; subst.
      constructor; [done|by apply IH].
Qed.

(** Replacing a text without tab by a text without tab keeps the number of
    tabs. *)
Lemma Replace_tabCount (s old new : gostring) :
  old <> [] -> tabFree old -> tabFree new ->
  tabCount (Replace s old new) = tabCount s.
Proof.
  intros Hne Hold Hnew. unfold Replace. destruct old as [|o old]; [done|].
  apply (replaceFrom_ind (o :: old) new (fun s r => tabCount r = tabCount s));
    [done|done| |].
  - intros rest r IH. rewrite !tabCount_app, IH.
    by rewrite (tabCount_tabFree _ Hold), (tabCount_tabFree _ Hnew).
  - intros b t r _ IH. simpl. by rewrite IH.
Qed.

Lemma Replace_nonempty (s old new : gostring) :
  s <> [] -> new <> [] -> Replace s old new <> [].
Proof.
  intros Hs Hnew. unfold Replace. destruct s as [|b s]; [done|].
  destruct old as [|o old].
  - simpl. by destruct new.
  - rewrite replaceFrom_unfold. destruct (HasPrefix _ _); [by destruct new|done].
Qed.

Lemma stripColorCodes_Forall (P : byte -> Prop) (field : gostring) :
  Forall P field -> Forall P (stripColorCodes field).
Proof.
  unfold stripColorCodes. generalize (FindAllString field) as codes.
  intros codes. revert field.
  induction codes as [|cc codes IH]; intros field Hf; simpl; [done|].
  apply IH. apply Replace_Forall; [done|constructor].
Qed.

Lemma stripColorCodes_nil : stripColorCodes [] = [].
Proof. reflexivity. Qed.

(** ** The shape of the stored lines after [createColumns] *)

Section Shape.

Variable ColorOrange ColorReset : gostring.

(** The two colour sequences hold no tab. *)
Hypothesis ColorOrange_tabFree : tabFree ColorOrange.
Hypothesis ColorReset_tabFree : tabFree ColorReset.

Local Abbreviation truncateLongField := (truncateLongField ColorOrange ColorReset).
Local Abbreviation createColumnsField := (createColumnsField ColorOrange ColorReset).
Local Abbreviation createColumnsLine := (createColumnsLine ColorOrange ColorReset).
Local Abbreviation createColumns := (createColumns ColorOrange ColorReset).

(** A cut rewrites the stored line into one that is not empty and has as
    many tabs. *)
Lemma truncateLongField_shape (w w' : Writer) (l c : nat) (m : Z)
    (fields : list gostring) (cf cf' : list (list gostring))
    (field line : gostring) :
  fields !! c = Some field -> tabFree field ->
  get2 cf l c = Some (stripColorCodes field) ->
  lines w !! l = Some line -> line <> [] ->
  truncateLongField w l c m fields cf = Some (w', cf') ->
  exists line', lines w' !! l = Some line' /\ line' <> []
                /\ tabCount line' = tabCount line.
Proof.
  intros Hfield Htab Hget Hline Hne. unfold truncateLongField.
  destruct (negb (hasFlag w PreserveLongFields) && (termCols w >? 0)
            && (Z.of_nat c =? len fields - 1)).
  2: { intros [= <- <-]. by exists line. }
  rewrite Hget. simpl.
  destruct (len (stripColorCodes field) >? m) eqn:Hlong.
  2: { intros [= <- <-]. by exists line. }
  destruct (sliceTo (stripColorCodes field) (m - 5)) as [cut|] eqn:Hcut;
    simpl; [|done].
  apply sliceTo_Some in Hcut as [Hm ->].
  rewrite Hfield, Hline. simpl.
  destruct (set2 cf l c _) as [cf2|]; simpl; [|done].
  intros [= <- <-]. simpl.
  rewrite list_lookup_insert_eq by (by eapply lookup_lt_Some).
  eexists. split; [done|].
  assert (Hfne : field <> []).
  { intros ->. rewrite stripColorCodes_nil in Hlong, Hm. unfold len in Hlong, Hm.
    simpl in Hlong, Hm. apply Z.gtb_lt in Hlong. lia. }
  set (marked := take (Z.to_nat (m - 5)) (stripColorCodes field)
                   ++ ColorOrange ++ str "[...]" ++ ColorReset).
  assert (Hmarked : tabFree marked).
  { unfold marked, tabFree. repeat apply Forall_app_2; try done.
    - apply Forall_take. by apply stripColorCodes_Forall.
    - vm_compute. by repeat constructor. }
  assert (Hmne : marked <> []).
  { unfold marked. intros Heq. apply app_eq_nil in Heq as [_ Heq].
    apply app_eq_nil in Heq as [_ Heq]. apply app_eq_nil in Heq as [Heq _].
    done. }
  split.
  - apply Replace_nonempty; [done|]. by apply Replace_nonempty.
  - apply Replace_tabCount; [done|done|]. by apply Replace_Forall.
Qed.

Lemma createColumnsField_shape (w w' : Writer) (l c : nat) (m : Z)
    (fields : list gostring) (cf cf' : list (list gostring)) (line : gostring) :
  Forall tabFree fields ->
  lines w !! l = Some line -> line <> [] ->
  createColumnsField l m fields (w, cf) c = Some (w', cf') ->
  exists line', lines w' !! l = Some line' /\ line' <> []
                /\ tabCount line' = tabCount line.
Proof.
  intros Htab Hline Hne. unfold createColumnsField.
  destruct (fields !! c) as [field|] eqn:Hfield; simpl; [|done].
  destruct (set2 cf l c (stripColorCodes field)) as [cf1|] eqn:Hset; simpl; [|done].
  apply set2_Some in Hset as (row & Hrow & Hc & ->).
  destruct (truncateLongField w l c m fields _) as [[w2 cf2]|] eqn:Htr; simpl; [|done].
  apply (truncateLongField_shape w w2 l c m fields _ cf2 field line) in Htr
    as (line' & Hline' & Hne' & Hcount); try done.
  2: { by eapply Forall_lookup_1. }
  2: { by apply get2_insert. }
  destruct (get2 cf2 l c); simpl; [|done].
  destruct (columns w2 !! c) as [col|]; simpl; [|done].
  destruct (_ >? _); intros [= <- <-]; by exists line'.
Qed.

Lemma createColumnsLine_shape (ranged : list gostring) (w w' : Writer)
    (cf cf' : list (list gostring)) (l : nat) (line : gostring) :
  lines w !! l = Some line -> line <> [] ->
  createColumnsLine ranged (w, cf) l = Some (w', cf') ->
  exists line', lines w' !! l = Some line' /\ line' <> []
                /\ tabCount line' = tabCount line.
Proof.
  intros Hline Hne. unfold createColumnsLine.
  destruct (ranged !! l) as [rl|]; simpl; [|done].
  destruct (len rl =? 0); [intros [= <- <-]; by exists line|].
  destruct (_ <? _)%nat; [|done].
  set (w0 := if len (Split rl TAB) >? len (columns w) then _ else w).
  assert (Hw0 : lines w0 = lines w) by (unfold w0; by destruct (_ >? _)).
  intros Hrun.
  apply (forRange_invariant
           (fun _ st => exists line', lines (fst st) !! l = Some line' /\ line' <> []
                                      /\ tabCount line' = tabCount line)) in Hrun.
  - exact Hrun.
  - exists line. simpl. by rewrite Hw0.
  - intros c [w1 cf1] [w2 cf2] _ (line1 & Hline1 & Hne1 & Hcount1) Hstep.
    simpl in *.
    apply (createColumnsField_shape w1 w2 l c _ _ cf1 cf2 line1) in Hstep
      as (line2 & Hline2 & Hne2 & Hcount2); try done.
    + exists line2. split_and!; [done|done|congruence].
    + apply Split_tabFree.
Qed.

(** After [createColumns] every stored line is empty if it was, and has as
    many fields as before otherwise. *)
Lemma createColumns_shape (w w' : Writer) (cf : list (list gostring))
    (j : nat) (line : gostring) :
  createColumns w = Some (w', cf) ->
  lines w !! j = Some line ->
  exists line', lines w' !! j = Some line'
                /\ (line = [] -> line' = [])
                /\ (line <> [] ->
                    line' <> [] /\ length (Split line' TAB) = length (Split line TAB)).
Proof.
  intros Hrun. revert j line. unfold createColumns in Hrun.
  refine (forRange_invariant
            (fun _ st => forall j line, lines w !! j = Some line ->
               exists line', lines (fst st) !! j = Some line'
                             /\ (line = [] -> line' = [])
                             /\ (line <> [] ->
                                 line' <> []
                                 /\ length (Split line' TAB) = length (Split line TAB)))
            _ _ _ (w', cf) _ _ Hrun).
  - intros j line Hline. exists line. by split_and!.
  - intros l [w1 cf1] [w2 cf2] Hl Hinv Hstep j line Hline. simpl in *.
    destruct (lookup_lt_is_Some_2 (lines w) l Hl) as [rl Hrl].
    destruct (decide (rl = [])) as [->|Hrne].
    { unfold createColumnsLine in Hstep. rewrite Hrl in Hstep. simpl in Hstep.
      injection Hstep as <- <-. by apply Hinv. }
    destruct (decide (j = l)) as [->|Hjl].
    + assert (line = rl) as -> by congruence.
      destruct (Hinv l rl Hrl) as (line1 & Hline1 & _ & Hshape).
      destruct (Hshape Hrne) as [Hne1 Hlen1].
      destruct (createColumnsLine_shape (lines w) w1 w2 cf1 cf2 l line1 Hline1 Hne1 Hstep)
        as (line2 & Hline2 & Hne2 & Hcount2).
      exists line2. split_and!; [done|done|].
      intros _. split; [done|].
      rewrite !Split_length in *. congruence.
    + destruct (createColumnsLine_spec ColorOrange ColorReset (lines w) w1 w2 cf1 cf2
                  l rl Hrl Hrne Hstep) as (_ & _ & _ & _ & _ & Hother & _).
      rewrite Hother by done. by apply Hinv.
Qed.

End Shape.

(** ** When [Flush] returns *)

Lemma updateHLine_total (w : Writer) (hLine : gostring) (hLineLength : Z)
    (l : nat) (isLastRow isLastField : bool) :
  HLine (dividers w) <> [] -> 1 <= hLineLength ->
  exists h', updateHLine w hLine hLineLength l isLastRow isLastField = Some h'.
Proof.
  intros Hd Hn. unfold updateHLine.
  destruct (HLine (dividers w)) as [|b hl] eqn:E; [done|].
  replace (len (b :: hl) =? 0) with false by (unfold len; simpl; lia).
  set (avail := termCols w - _).
  destruct (avail >? 0) eqn:Ha; [|by eexists].
  destruct (avail >=? hLineLength).
  - unfold Repeat. replace (hLineLength - 1 <? 0) with false by lia.
    simpl. by eexists.
  - unfold Repeat. replace (avail - 1 <? 0) with false by lia.
    simpl. by eexists.
Qed.

Lemma createTableField_total (w : Writer) (cf : list (list gostring)) (l : nat)
    (fields row : list gostring) (c : nat) (st : gostring * gostring * gostring) :
  HLine (dividers w) <> [] -> rowsFit (columns w) cf ->
  cf !! l = Some row -> length row = length fields -> (c < length fields)%nat ->
  exists st', createTableField w cf l fields st c = Some st'.
Proof.
  intros Hd Hfit Hrow Hlen Hc. destruct st as [[fb h] p]. unfold createTableField.
  destruct (lookup_lt_is_Some_2 fields c Hc) as [field ->]. simpl.
  destruct (lookup_lt_is_Some_2 row c ltac:(lia)) as [v Hv].
  assert (Hget : get2 cf l c = Some v) by (unfold get2; by rewrite Hrow).
  rewrite Hget.
  assert (Hshown : exists shown,
             (if hasFlag w StripColours then Some v else Some field) = Some shown)
    by (destruct (hasFlag w StripColours); by eexists).
  destruct Hshown as [shown ->]. simpl.
  destruct (Hfit l row c v Hrow Hv) as (col & Hcol & Hw).
  destruct (getPadding_shares w c v col Hcol Hw) as (total & lp & rp & -> & Htotal & _).
  simpl.
  assert (Hlen1 : 1 <= len v + total + 1) by (unfold len; lia).
  destruct (l =? 0)%nat.
  - destruct (updateHLine_total w p (len v + total + 1) l
                (Z.of_nat l =? len (lines w) - 1) (Z.of_nat c =? len fields - 1) Hd Hlen1)
      as [p' ->]. simpl.
    destruct (updateHLine_total w h (len v + total + 1) (l + 1)
                (Z.of_nat l =? len (lines w) - 1) (Z.of_nat c =? len fields - 1) Hd Hlen1)
      as [h' ->]. simpl. by eexists.
  - simpl.
    destruct (updateHLine_total w h (len v + total + 1) (l + 1)
                (Z.of_nat l =? len (lines w) - 1) (Z.of_nat c =? len fields - 1) Hd Hlen1)
      as [h' ->]. simpl. by eexists.
Qed.

(** [createTable] returns when the glyph of the horizontal line is not empty,
    every colourless field fits its column, and every stored line that is not
    empty has as many fields as its row of colourless fields. *)
Lemma createTable_total (w : Writer) (cf : list (list gostring)) :
  HLine (dividers w) <> [] -> rowsFit (columns w) cf ->
  (forall l line, lines w !! l = Some line -> line <> [] ->
     exists row, cf !! l = Some row /\ length row = length (Split line TAB)) ->
  exists out, createTable w cf = Some out.
Proof.
  intros Hd Hfit Hrows. unfold createTable.
  destruct (forRange_total (fun _ _ => True) (createTableLine w cf)
              (length (lines w)) []) as (out & Hout & _); [done| |by exists out].
  intros l fb Hl _. unfold createTableLine.
  destruct (lookup_lt_is_Some_2 (lines w) l Hl) as [line Hline]. rewrite Hline. simpl.
  destruct (len line =? 0) eqn:Hempty; [by eexists|].
  assert (Hne : line <> []) by (intros ->; done).
  destruct (Hrows l line Hline Hne) as (row & Hrow & Hlen).
  destruct (forRange_total (fun _ _ => True)
              (createTableField w cf l (Split line TAB))
              (length (Split line TAB)) (fb, [], [])) as ([[fb1 h1] p1] & -> & _);
    [done| |simpl; by eexists].
  intros c st Hc _.
  destruct (createTableField_total w cf l (Split line TAB) row c st) as [st' Hst'];
    try done.
  by exists st'.
Qed.

Section Returns.

Variable ColorOrange ColorReset : gostring.
Hypothesis ColorOrange_tabFree : tabFree ColorOrange.
Hypothesis ColorReset_tabFree : tabFree ColorReset.

(** [formatBuffer] returns exactly when no cut is out of range: the slice in
    [truncateLongField] is the only place where it can panic. *)
Lemma formatBuffer_returns_iff (w : Writer) :
  HLine (dividers w) <> [] ->
  (exists r, formatBuffer ColorOrange ColorReset w = Some r)
  <-> (forall ln, ln ∈ lines w -> ln <> [] -> cutsInRange w (Split ln TAB)).
Proof.
  intros Hd. unfold formatBuffer. split.
  - intros [r Hr].
    destruct (createColumns ColorOrange ColorReset w) as [[w1 cf]|] eqn:Hcols; [|done].
    apply (createColumns_returns_iff ColorOrange ColorReset w). by eexists.
  - intros Hcuts.
    destruct (createColumns_total ColorOrange ColorReset w Hcuts) as [[w1 cf] Hcols].
    rewrite Hcols. simpl.
    pose proof (createColumns_spec _ _ _ _ _ Hcols)
      as (Hcf & Hcfg & _ & Hlen & Hfit & _).
    destruct (createTable_total w1 cf) as [out ->]; [| |
      |simpl; by eexists].
    + destruct Hcfg as (_ & -> & _). done.
    + done.
    + intros l line' Hline' Hne'.
      assert (Hl : (l < length (lines w))%nat).
      { rewrite <- Hlen. by eapply lookup_lt_Some. }
      destruct (lookup_lt_is_Some_2 (lines w) l Hl) as [line Hline].
      destruct (createColumns_shape ColorOrange ColorReset ColorOrange_tabFree
                  ColorReset_tabFree w w1 cf l line Hcols Hline)
        as (line2 & Hline2 & Hempty & Hshape).
      assert (line2 = line') as -> by congruence.
      destruct (decide (line = [])) as [->|Hne]; [by specialize (Hempty eq_refl)|].
      destruct (Hshape Hne) as [_ Hcount].
      exists (finalRow w (Split line TAB)). split.
      * rewrite Hcf, list_lookup_fmap, Hline. simpl. by destruct line.
      * rewrite finalRow_length. done.
Qed.

End Returns.

(** X1: [Flush] returns exactly when no cut of a line of the sanitized buffer is
    out of range, and panics otherwise (for colour sequences without tab and
    a horizontal glyph that is not empty, as in every Writer [NewWriter]
    makes). *)
Theorem Flush_returns_iff (ColorOrange ColorReset : gostring)
    (unicode_Cf unicode_Cc unicode_Mn unicode_Zs unicode_IsSpace : Z -> bool)
    (w : Writer) :
  tabFree ColorOrange -> tabFree ColorReset ->
  HLine (dividers w) <> [] ->
  (exists out err,
     snd (Flush ColorOrange ColorReset
            unicode_Cf unicode_Cc unicode_Mn unicode_Zs unicode_IsSpace w)
     = Returned out err)
  <-> (forall ln,
         ln ∈ flushLines (cleanInvisibleChars unicode_Cf unicode_Cc unicode_Mn
                            unicode_Zs unicode_IsSpace (buffer w)) ->
         ln <> [] -> cutsInRange w (Split ln TAB)).
Proof.
  intros Ho Hr Hd. unfold Flush.
  set (ls := if len (List.last (Split _ NL) []) =? 0 then _ else _).
  change (flushLines _) with ls.
  pose proof (formatBuffer_returns_iff ColorOrange ColorReset Ho Hr (setLines w ls) Hd)
    as Hiff.
  assert (Hcuts : (forall ln, ln ∈ lines (setLines w ls) -> ln <> [] ->
                     cutsInRange (setLines w ls) (Split ln TAB))
                  <-> (forall ln, ln ∈ ls -> ln <> [] -> cutsInRange w (Split ln TAB))).
  { split; intros H ln Hin Hne.
    - apply (cutsInRange_sameConfig (setLines w ls));
        [unfold sameConfig; by split_and!|].
      exact (H ln Hin Hne).
    - apply (cutsInRange_sameConfig w); [unfold sameConfig; by split_and!|].
      exact (H ln Hin Hne). }
  rewrite <- Hcuts, <- Hiff.
  destruct (formatBuffer ColorOrange ColorReset (setLines w ls)) as [[w2 fb]|].
  - destruct (Write (output w2) fb) as [n err]. simpl.
    split; intros _; [by eexists|by eexists _, _].
  - simpl. split; [by intros (? & ? & ?)|by intros [? ?]].
Qed.

(* ================================================================== *)
(** * Further properties of the package                               *)
(* ================================================================== *)

(** ** Bytes and bits *)

Lemma byteVal_range (b : byte) : 0 <= byteVal b <= 255.
Proof. unfold byteVal. pose proof (Byte.to_N_bounded b). lia. Qed.

Lemma toByte_byteVal (b : byte) : toByte (byteVal b) = b.
Proof. unfold toByte, byteVal. by rewrite N2Z.id, Byte.of_to_N. Qed.

Lemma byteVal_toByte (z : Z) : 0 <= z <= 255 -> byteVal (toByte z) = z.
Proof.
  intros Hz. unfold toByte, byteVal.
  pose proof (Byte.to_of_N_option_map (Z.to_N z)) as H.
  destruct (Byte.of_N (Z.to_N z)) as [b|] eqn:E.
  - apply Byte.to_of_N in E. rewrite E. lia.
  - simpl in H. destruct (N.leb_spec (Z.to_N z) 255); [done|lia].
Qed.

Lemma byteVal_inj (a b : byte) : byteVal a = byteVal b -> a = b.
Proof. intros H. by rewrite <- (toByte_byteVal a), H, toByte_byteVal. Qed.

Lemma lor_shiftl_add (a b n : Z) :
  0 <= n -> 0 <= b < 2 ^ n -> Z.lor (Z.shiftl a n) b = a * 2 ^ n + b.
Proof.
  intros Hn Hb. rewrite <- (Z.shiftl_mul_pow2 a n Hn).
  pose proof (Z.add_lor_land (Z.shiftl a n) b) as Hadd.
  assert (Hland : Z.land (Z.shiftl a n) b = 0); [|lia].
  apply Z.bits_inj'. intros i Hi. rewrite Z.land_spec, Z.bits_0.
  destruct (Z.lt_ge_cases i n) as [Hlt|Hge].
  - by rewrite Z.shiftl_spec_low.
  - destruct (Z.eq_dec b 0) as [->|Hb0]; [by rewrite Z.bits_0, andb_false_r|].
    rewrite (Z.bits_above_log2 b i), andb_false_r; [done|lia|].
    apply Z.log2_lt_pow2; [lia|].
    apply Z.lt_le_trans with (2 ^ n); [lia|]. apply Z.pow_le_mono_r; lia.
Qed.

Lemma land_mask (a n : Z) : 0 <= n -> Z.land a (2 ^ n - 1) = a mod 2 ^ n.
Proof. intros Hn. rewrite <- Z.land_ones by done. by rewrite Z.ones_equiv, Z.sub_1_r. Qed.

Lemma lor_lead (a n y : Z) :
  0 <= n -> 0 <= y < 2 ^ n -> Z.lor (a * 2 ^ n) y = a * 2 ^ n + y.
Proof.
  intros Hn Hy. rewrite <- (Z.shiftl_mul_pow2 a n Hn), lor_shiftl_add by done.
  by rewrite Z.shiftl_mul_pow2.
Qed.

Lemma lor_80 (y : Z) : 0 <= y < 64 -> Z.lor 0x80 y = 0x80 + y.
Proof. intros Hy. exact (lor_lead 2 6 y ltac:(lia) Hy). Qed.

Lemma lor_C0 (y : Z) : 0 <= y < 64 -> Z.lor 0xC0 y = 0xC0 + y.
Proof. intros Hy. exact (lor_lead 3 6 y ltac:(lia) Hy). Qed.

Lemma lor_E0 (y : Z) : 0 <= y < 32 -> Z.lor 0xE0 y = 0xE0 + y.
Proof. intros Hy. exact (lor_lead 7 5 y ltac:(lia) Hy). Qed.

Lemma lor_F0 (y : Z) : 0 <= y < 16 -> Z.lor 0xF0 y = 0xF0 + y.
Proof. intros Hy. exact (lor_lead 15 4 y ltac:(lia) Hy). Qed.

Lemma land_3F (a : Z) : Z.land a 0x3F = a mod 64.
Proof. exact (land_mask a 6 ltac:(lia)). Qed.

Lemma land_1F (a : Z) : Z.land a 0x1F = a mod 32.
Proof. exact (land_mask a 5 ltac:(lia)). Qed.

Lemma land_0F (a : Z) : Z.land a 0x0F = a mod 16.
Proof. exact (land_mask a 4 ltac:(lia)). Qed.

Lemma land_07 (a : Z) : Z.land a 0x07 = a mod 8.
Proof. exact (land_mask a 3 ltac:(lia)). Qed.

Ltac divlia := Z.to_euclidean_division_equations; lia.

(** ** The encoding, in arithmetic *)

Lemma EncodeRune_1 (r : Z) : 0 <= r < 0x80 -> EncodeRune r = [toByte r].
Proof.
  intros Hr. unfold EncodeRune.
  by replace ((0 <=? r) && (r <? 0x80)) with true by lia.
Qed.

Lemma EncodeRune_2 (r : Z) :
  0x80 <= r < 0x800 ->
  EncodeRune r = [toByte (0xC0 + r / 64); toByte (0x80 + r mod 64)].
Proof.
  intros Hr. unfold EncodeRune.
  replace ((0 <=? r) && (r <? 0x80)) with false by lia.
  replace ((0 <=? r) && (r <? 0x800)) with true by lia.
  rewrite land_3F, (Z.shiftr_div_pow2 r 6) by lia. change (2 ^ 6) with 64.
  rewrite lor_C0, lor_80 by divlia. done.
Qed.

Lemma EncodeRune_3 (r : Z) :
  0x800 <= r < 0x10000 -> ValidRune r = true ->
  EncodeRune r = [toByte (0xE0 + r / 4096); toByte (0x80 + (r / 64) mod 64);
                  toByte (0x80 + r mod 64)].
Proof.
  intros Hr Hv. unfold ValidRune in Hv. unfold EncodeRune.
  replace ((0 <=? r) && (r <? 0x80)) with false by lia.
  replace ((0 <=? r) && (r <? 0x800)) with false by lia.
  replace ((r <? 0) || (0x10FFFF <? r) || ((0xD800 <=? r) && (r <=? 0xDFFF)))
    with false by lia.
  replace (r <? 0x10000) with true by lia.
  rewrite !land_3F, (Z.shiftr_div_pow2 r 6), (Z.shiftr_div_pow2 r 12) by lia.
  change (2 ^ 6) with 64. change (2 ^ 12) with 4096.
  rewrite lor_E0, !lor_80 by divlia. done.
Qed.

Lemma EncodeRune_4 (r : Z) :
  0x10000 <= r <= 0x10FFFF ->
  EncodeRune r = [toByte (0xF0 + r / 262144); toByte (0x80 + (r / 4096) mod 64);
                  toByte (0x80 + (r / 64) mod 64); toByte (0x80 + r mod 64)].
Proof.
  intros Hr. unfold EncodeRune.
  replace ((0 <=? r) && (r <? 0x80)) with false by lia.
  replace ((0 <=? r) && (r <? 0x800)) with false by lia.
  replace ((r <? 0) || (0x10FFFF <? r) || ((0xD800 <=? r) && (r <=? 0xDFFF)))
    with false by lia.
  replace (r <? 0x10000) with false by lia.
  rewrite !land_3F, (Z.shiftr_div_pow2 r 6), (Z.shiftr_div_pow2 r 12),
    (Z.shiftr_div_pow2 r 18) by lia.
  change (2 ^ 6) with 64. change (2 ^ 12) with 4096. change (2 ^ 18) with 262144.
  rewrite lor_F0, !lor_80 by divlia. done.
Qed.

Lemma EncodeRune_invalid (r : Z) : ValidRune r = false -> EncodeRune r = [xef; xbf; xbd].
Proof.
  intros Hv. unfold ValidRune in Hv. unfold EncodeRune.
  replace ((0 <=? r) && (r <? 0x80)) with false by lia.
  replace ((0 <=? r) && (r <? 0x800)) with false by lia.
  by replace ((r <? 0) || (0x10FFFF <? r) || ((0xD800 <=? r) && (r <=? 0xDFFF)))
    with true by lia.
Qed.

Lemma DecodeRune_ascii (b : byte) (t : gostring) :
  byteVal b < 0x80 -> DecodeRune (b :: t) = (byteVal b, 1%nat).
Proof. intros Hb. unfold DecodeRune. by replace (byteVal b <? 0x80) with true by lia. Qed.

Lemma inRange_spec (lo hi : Z) (b : byte) :
  inRange lo hi b = true <-> lo <= byteVal b <= hi.
Proof. unfold inRange. lia. Qed.

Lemma DecodeRune_2 (b0 b1 : byte) (t : gostring) :
  0xC2 <= byteVal b0 < 0xE0 ->
  DecodeRune (b0 :: b1 :: t)
  = if inRange 0x80 0xBF b1
    then ((byteVal b0 mod 32) * 64 + byteVal b1 mod 64, 2%nat)
    else (RuneError, 1%nat).
Proof.
  intros H0. unfold DecodeRune.
  replace (byteVal b0 <? 0x80) with false by lia.
  replace ((byteVal b0 <? 0xC2) || (0xF4 <? byteVal b0)) with false by lia.
  replace (byteVal b0 <? 0xE0) with true by lia.
  replace (byteVal b0 =? 0xE0) with false by lia.
  replace (byteVal b0 =? 0xF0) with false by lia.
  replace (byteVal b0 =? 0xED) with false by lia.
  replace (byteVal b0 =? 0xF4) with false by lia.
  cbn [length Nat.ltb Nat.leb nth negb].
  destruct (inRange 0x80 0xBF b1) eqn:Hb1; [|done].
  cbn [negb]. 
  rewrite land_1F, land_3F.
  rewrite (Z.shiftl_mul_pow2 _ 6) by lia. change (2 ^ 6) with 64.
  rewrite (lor_lead _ 6) by divlia. done.
Qed.

Lemma DecodeRune_3 (b0 b1 b2 : byte) (t : gostring) :
  0xE0 <= byteVal b0 < 0xF0 ->
  DecodeRune (b0 :: b1 :: b2 :: t)
  = if inRange (if byteVal b0 =? 0xE0 then 0xA0 else 0x80)
         (if byteVal b0 =? 0xED then 0x9F else 0xBF) b1
       && inRange 0x80 0xBF b2
    then ((byteVal b0 mod 16) * 4096 + ((byteVal b1 mod 64) * 64 + byteVal b2 mod 64),
          3%nat)
    else (RuneError, 1%nat).
Proof.
  intros H0. unfold DecodeRune.
  replace (byteVal b0 <? 0x80) with false by lia.
  replace ((byteVal b0 <? 0xC2) || (0xF4 <? byteVal b0)) with false by lia.
  replace (byteVal b0 <? 0xE0) with false by lia.
  replace (byteVal b0 <? 0xF0) with true by lia.
  replace (byteVal b0 =? 0xF0) with false by lia.
  replace (byteVal b0 =? 0xF4) with false by lia.
  cbn [length Nat.ltb Nat.leb nth negb].
  destruct (inRange _ _ b1) eqn:Hb1; [|done].
  destruct (inRange 0x80 0xBF b2) eqn:Hb2; [|done].
  cbn [negb andb].
  rewrite land_0F, !land_3F.
  rewrite (Z.shiftl_mul_pow2 _ 6), (Z.shiftl_mul_pow2 _ 12) by lia.
  change (2 ^ 6) with 64. change (2 ^ 12) with 4096.
  rewrite (lor_lead _ 6) by divlia. rewrite (lor_lead _ 12) by divlia. done.
Qed.

Lemma DecodeRune_4 (b0 b1 b2 b3 : byte) (t : gostring) :
  0xF0 <= byteVal b0 <= 0xF4 ->
  DecodeRune (b0 :: b1 :: b2 :: b3 :: t)
  = if inRange (if byteVal b0 =? 0xF0 then 0x90 else 0x80)
         (if byteVal b0 =? 0xF4 then 0x8F else 0xBF) b1
       && inRange 0x80 0xBF b2 && inRange 0x80 0xBF b3
    then ((byteVal b0 mod 8) * 262144
          + ((byteVal b1 mod 64) * 4096
             + ((byteVal b2 mod 64) * 64 + byteVal b3 mod 64)), 4%nat)
    else (RuneError, 1%nat).
Proof.
  intros H0. unfold DecodeRune.
  replace (byteVal b0 <? 0x80) with false by lia.
  replace ((byteVal b0 <? 0xC2) || (0xF4 <? byteVal b0)) with false by lia.
  replace (byteVal b0 <? 0xE0) with false by lia.
  replace (byteVal b0 <? 0xF0) with false by lia.
  replace (byteVal b0 =? 0xE0) with false by lia.
  replace (byteVal b0 =? 0xED) with false by lia.
  cbn [length Nat.ltb Nat.leb nth negb].
  destruct (inRange _ _ b1) eqn:Hb1; [|done].
  destruct (inRange 0x80 0xBF b2) eqn:Hb2; [|done].
  destruct (inRange 0x80 0xBF b3) eqn:Hb3; [|done].
  cbn [negb andb].
  rewrite land_07, !land_3F.
  rewrite (Z.shiftl_mul_pow2 _ 6), (Z.shiftl_mul_pow2 _ 12), (Z.shiftl_mul_pow2 _ 18)
    by lia.
  change (2 ^ 6) with 64. change (2 ^ 12) with 4096. change (2 ^ 18) with 262144.
  rewrite (lor_lead _ 6) by divlia. rewrite (lor_lead _ 12) by divlia.
  rewrite (lor_lead _ 18) by divlia. done.
Qed.

Lemma DecodeRune_short (b0 : byte) (t : gostring) :
  0x80 <= byteVal b0 ->
  (length (b0 :: t) < announced b0)%nat \/ announced b0 = 0%nat ->
  DecodeRune (b0 :: t) = (RuneError, 1%nat).
Proof.
  intros H0 Hshort. unfold announced in Hshort. unfold DecodeRune.
  replace (byteVal b0 <? 0x80) with false by lia.
  destruct ((byteVal b0 <? 0xC2) || (0xF4 <? byteVal b0)); [done|].
  destruct Hshort as [Hshort|Hshort];
    [|by destruct (byteVal b0 <? 0xE0), (byteVal b0 <? 0xF0)].
  apply Nat.ltb_lt in Hshort. by rewrite Hshort.
Qed.

(** A multi-byte decoding either fails, with width 1, or reads the encoding
    of a scalar value above the ASCII range. *)
Lemma DecodeRune_multibyte (b0 : byte) (t : gostring) :
  0x80 <= byteVal b0 ->
  DecodeRune (b0 :: t) = (RuneError, 1%nat)
  \/ exists c rest, ValidRune c = true /\ 0x80 <= c
       /\ b0 :: t = EncodeRune c ++ rest
       /\ DecodeRune (b0 :: t) = (c, length (EncodeRune c)).
Proof.
  intros H0. pose proof (byteVal_range b0) as R0.
  destruct (Z.lt_ge_cases (byteVal b0) 0xC2) as [Hlo|Hlo].
  { left. apply DecodeRune_short; [done|]. right. unfold announced.
    by replace (byteVal b0 <? 0xC2) with true by lia. }
  destruct (Z.lt_ge_cases 0xF4 (byteVal b0)) as [Hhi|Hhi].
  { left. apply DecodeRune_short; [done|]. right. unfold announced.
    replace (0xF4 <? byteVal b0) with true by lia. by rewrite orb_true_r. }
  destruct (Z.lt_ge_cases (byteVal b0) 0xE0) as [H2|H2].
  { destruct t as [|b1 t].
    { left. apply DecodeRune_short; [done|]. left. unfold announced.
      replace ((byteVal b0 <? 0xC2) || (0xF4 <? byteVal b0)) with false by lia.
      replace (byteVal b0 <? 0xE0) with true by lia. simpl. lia. }
    rewrite DecodeRune_2 by lia.
    destruct (inRange 0x80 0xBF b1) eqn:Hb1; [|by left].
    apply inRange_spec in Hb1. right.
    set (c := byteVal b0 mod 32 * 64 + byteVal b1 mod 64).
    assert (Hc : 0x80 <= c < 0x800) by (unfold c; divlia).
    exists c, t. rewrite (EncodeRune_2 c Hc). split_and!; [unfold ValidRune; lia|lia| |done].
    simpl. f_equal; [|f_equal].
    - rewrite <- (toByte_byteVal b0) at 1. f_equal. unfold c. divlia.
    - rewrite <- (toByte_byteVal b1) at 1. f_equal. unfold c. divlia. }
  destruct (Z.lt_ge_cases (byteVal b0) 0xF0) as [H3|H3].
  { destruct t as [|b1 [|b2 t]].
    1,2: left; apply DecodeRune_short; [done|]; left; unfold announced;
      replace ((byteVal b0 <? 0xC2) || (0xF4 <? byteVal b0)) with false by lia;
      replace (byteVal b0 <? 0xE0) with false by lia;
      replace (byteVal b0 <? 0xF0) with true by lia; simpl; lia.
    rewrite DecodeRune_3 by lia.
    destruct (inRange _ _ b1) eqn:Hb1; [|by left].
    destruct (inRange 0x80 0xBF b2) eqn:Hb2; [|by left].
    apply inRange_spec in Hb1, Hb2. right. cbn [andb].
    set (c := byteVal b0 mod 16 * 4096 + (byteVal b1 mod 64 * 64 + byteVal b2 mod 64)).
    assert (Hc : 0x800 <= c < 0x10000 /\ ValidRune c = true).
    { unfold ValidRune, c.
      destruct (byteVal b0 =? 0xE0) eqn:E0, (byteVal b0 =? 0xED) eqn:ED; divlia. }
    destruct Hc as [Hc Hv].
    exists c, t. rewrite (EncodeRune_3 c Hc Hv). split_and!; [done|lia| |done].
    simpl. f_equal; [|f_equal; [|f_equal]].
    - rewrite <- (toByte_byteVal b0) at 1. f_equal. unfold c.
      destruct (byteVal b0 =? 0xE0) eqn:E0, (byteVal b0 =? 0xED) eqn:ED; divlia.
    - rewrite <- (toByte_byteVal b1) at 1. f_equal. unfold c.
      destruct (byteVal b0 =? 0xE0) eqn:E0, (byteVal b0 =? 0xED) eqn:ED; divlia.
    - rewrite <- (toByte_byteVal b2) at 1. f_equal. unfold c. divlia. }
  destruct t as [|b1 [|b2 [|b3 t]]].
  1,2,3: left; apply DecodeRune_short; [done|]; left; unfold announced;
    replace ((byteVal b0 <? 0xC2) || (0xF4 <? byteVal b0)) with false by lia;
    replace (byteVal b0 <? 0xE0) with false by lia;
    replace (byteVal b0 <? 0xF0) with false by lia; simpl; lia.
  rewrite DecodeRune_4 by lia.
  destruct (inRange _ _ b1) eqn:Hb1; [|by left].
  destruct (inRange 0x80 0xBF b2) eqn:Hb2; [|by left].
  destruct (inRange 0x80 0xBF b3) eqn:Hb3; [|by left].
  apply inRange_spec in Hb1, Hb2, Hb3. right. cbn [andb].
  set (c := byteVal b0 mod 8 * 262144
            + (byteVal b1 mod 64 * 4096
               + (byteVal b2 mod 64 * 64 + byteVal b3 mod 64))).
  assert (Hc : 0x10000 <= c <= 0x10FFFF).
  { unfold c. destruct (byteVal b0 =? 0xF0) eqn:E0, (byteVal b0 =? 0xF4) eqn:E4; divlia. }
  exists c, t. rewrite (EncodeRune_4 c Hc).
  split_and!; [unfold ValidRune; lia|lia| |done].
  simpl. f_equal; [|f_equal; [|f_equal; [|f_equal]]].
  - rewrite <- (toByte_byteVal b0) at 1. f_equal. unfold c.
    destruct (byteVal b0 =? 0xF0) eqn:E0, (byteVal b0 =? 0xF4) eqn:E4; divlia.
  - rewrite <- (toByte_byteVal b1) at 1. f_equal. unfold c.
    destruct (byteVal b0 =? 0xF0) eqn:E0, (byteVal b0 =? 0xF4) eqn:E4; divlia.
  - rewrite <- (toByte_byteVal b2) at 1. f_equal. unfold c. divlia.
  - rewrite <- (toByte_byteVal b3) at 1. f_equal. unfold c. divlia.
Qed.

(** Decoding an encoding gives the scalar value back. *)
Lemma DecodeRune_EncodeRune (r : Z) (rest : gostring) :
  ValidRune r = true ->
  DecodeRune (EncodeRune r ++ rest) = (r, length (EncodeRune r)).
Proof.
  intros Hv. pose proof Hv as Hv'. unfold ValidRune in Hv'.
  destruct (Z.lt_ge_cases r 0x80) as [H1|H1].
  { rewrite EncodeRune_1 by lia. cbn [app length].
    rewrite DecodeRune_ascii; rewrite byteVal_toByte; (done || lia). }
  destruct (Z.lt_ge_cases r 0x800) as [H2|H2].
  { rewrite EncodeRune_2 by lia. cbn [app length].
    rewrite DecodeRune_2; rewrite ?byteVal_toByte; try divlia.
    replace (inRange 0x80 0xBF (toByte (0x80 + r mod 64))) with true.
    2: { symmetry. apply inRange_spec. rewrite byteVal_toByte; divlia. }
    f_equal. rewrite ?byteVal_toByte by divlia. divlia. }
  destruct (Z.lt_ge_cases r 0x10000) as [H3|H3].
  { rewrite EncodeRune_3 by (done || lia). cbn [app length].
    rewrite DecodeRune_3; rewrite ?byteVal_toByte; try divlia.
    replace (inRange _ _ (toByte (0x80 + (r / 64) mod 64))) with true.
    2: { symmetry. apply inRange_spec. rewrite byteVal_toByte by divlia.
         destruct (0xE0 + r / 4096 =? 0xE0) eqn:E0, (0xE0 + r / 4096 =? 0xED) eqn:ED;
           divlia. }
    replace (inRange 0x80 0xBF (toByte (0x80 + r mod 64))) with true.
    2: { symmetry. apply inRange_spec. rewrite byteVal_toByte; divlia. }
    cbn [andb]. f_equal. rewrite ?byteVal_toByte by divlia. divlia. }
  rewrite EncodeRune_4 by lia. cbn [app length].
  rewrite DecodeRune_4; rewrite ?byteVal_toByte; try divlia.
  replace (inRange _ _ (toByte (0x80 + (r / 4096) mod 64))) with true.
  2: { symmetry. apply inRange_spec. rewrite byteVal_toByte by divlia.
       destruct (0xF0 + r / 262144 =? 0xF0) eqn:E0, (0xF0 + r / 262144 =? 0xF4) eqn:E4;
         divlia. }
  replace (inRange 0x80 0xBF (toByte (0x80 + (r / 64) mod 64))) with true.
  2: { symmetry. apply inRange_spec. rewrite byteVal_toByte; divlia. }
  replace (inRange 0x80 0xBF (toByte (0x80 + r mod 64))) with true.
  2: { symmetry. apply inRange_spec. rewrite byteVal_toByte; divlia. }
  cbn [andb]. f_equal. rewrite ?byteVal_toByte by divlia. divlia.
Qed.

(** An encoding of a value above the ASCII range, or of an invalid one, has
    no ASCII byte. *)
Lemma EncodeRune_high (r : Z) :
  r < 0 \/ 0x80 <= r -> Forall (fun b => 0x80 <= byteVal b) (EncodeRune r).
Proof.
  intros Hr. destruct (ValidRune r) eqn:Hv.
  2: { rewrite EncodeRune_invalid by done. repeat constructor; by vm_compute. }
  pose proof Hv as Hv'. unfold ValidRune in Hv'.
  destruct (Z.lt_ge_cases r 0x800) as [H2|H2].
  { rewrite EncodeRune_2 by lia.
    repeat constructor; rewrite byteVal_toByte; divlia. }
  destruct (Z.lt_ge_cases r 0x10000) as [H3|H3].
  { rewrite EncodeRune_3 by (done || lia).
    repeat constructor; rewrite byteVal_toByte; divlia. }
  rewrite EncodeRune_4 by lia.
  repeat constructor; rewrite byteVal_toByte; divlia.
Qed.

Lemma EncodeRune_nonempty (r : Z) : EncodeRune r <> [].
Proof.
  unfold EncodeRune.
  by destruct ((0 <=? r) && (r <? 0x80)), ((0 <=? r) && (r <? 0x800)),
    ((r <? 0) || (0x10FFFF <? r) || ((0xD800 <=? r) && (r <=? 0xDFFF))),
    (r <? 0x10000).
Qed.

Lemma high_prefix (e rest s : gostring) (b : byte) (t : gostring) :
  Forall (fun x => 0x80 <= byteVal x) e -> byteVal b < 0x80 ->
  e ++ rest = s ++ b :: t -> exists rest', s = e ++ rest'.
Proof.
  intros He Hb. revert s. induction He as [|x e Hx He IH]; intros s Heq.
  - by exists s.
  - destruct s as [|y s]; simpl in Heq.
    + injection Heq as -> _. lia.
    + injection Heq as -> Heq. destruct (IH s Heq) as [rest' ->]. by exists rest'.
Qed.

(** An ASCII byte ends the rune before it: what follows it has no part in
    the decoding of what precedes it. *)
Lemma DecodeRune_app_ascii (s : gostring) (b : byte) (t : gostring) :
  s <> [] -> byteVal b < 0x80 -> DecodeRune (s ++ b :: t) = DecodeRune s.
Proof.
  intros Hs Hb. destruct s as [|b0 t0]; [done|].
  destruct (Z.lt_ge_cases (byteVal b0) 0x80) as [H0|H0].
  { cbn [app]. by rewrite !DecodeRune_ascii. }
  destruct (DecodeRune_multibyte b0 (t0 ++ b :: t) H0)
    as [Hlong|(c & rest & Hv & Hc & Heq & Hlong)].
  - destruct (DecodeRune_multibyte b0 t0 H0)
      as [Hshort|(c & rest & Hv & Hc & Heq & Hshort)].
    + cbn [app]. by rewrite Hlong, Hshort.
    + rewrite Hshort, Heq, <- app_assoc. by apply DecodeRune_EncodeRune.
  - destruct (high_prefix (EncodeRune c) rest (b0 :: t0) b t) as [rest' Hpre];
      [apply EncodeRune_high; lia|done|done|].
    rewrite Hpre, <- app_assoc, !DecodeRune_EncodeRune; done.
Qed.

(** The width of a decoding: at least one byte, at most the bytes at hand. *)
Lemma DecodeRune_width (s : gostring) :
  s <> [] -> (1 <= snd (DecodeRune s) <= length s)%nat.
Proof.
  intros Hs. destruct s as [|b0 t]; [done|].
  destruct (Z.lt_ge_cases (byteVal b0) 0x80) as [H0|H0].
  { rewrite DecodeRune_ascii by done. simpl. lia. }
  destruct (DecodeRune_multibyte b0 t H0) as [->|(c & rest & Hv & Hc & Hs' & ->)].
  - simpl. lia.
  - cbn [snd]. rewrite Hs', length_app.
    pose proof (EncodeRune_nonempty c). destruct (EncodeRune c); [done|]. simpl. lia.
Qed.

(** ** [strings.Map], rune by rune *)

Lemma mapRunes_fuel (mapping : Z -> Z) (n f1 f2 : nat) (s : gostring) :
  (length s <= n)%nat -> (length s <= f1)%nat -> (length s <= f2)%nat ->
  mapRunes f1 mapping s = mapRunes f2 mapping s.
Proof.
  revert f1 f2 s. induction n as [|n IH]; intros f1 f2 s Hn H1 H2.
  - destruct s; [|simpl in Hn; lia]. by destruct f1, f2.
  - destruct s as [|b t]; [by destruct f1, f2|].
    destruct f1 as [|f1]; [simpl in H1; lia|].
    destruct f2 as [|f2]; [simpl in H2; lia|].
    cbn [mapRunes].
    pose proof (DecodeRune_width (b :: t) ltac:(done)) as Hw.
    destruct (DecodeRune (b :: t)) as [c width]. cbn [snd] in Hw.
    f_equal. apply IH; rewrite length_drop; simpl in *; lia.
Qed.

Lemma strings_Map_nil (mapping : Z -> Z) : strings_Map mapping [] = [].
Proof. done. Qed.

Lemma strings_Map_step (mapping : Z -> Z) (s : gostring) :
  s <> [] ->
  strings_Map mapping s
  = mapped mapping (fst (DecodeRune s))
      ++ strings_Map mapping (drop (snd (DecodeRune s)) s).
Proof.
  intros Hs. destruct s as [|b t]; [done|].
  unfold strings_Map at 1. cbn [length mapRunes].
  pose proof (DecodeRune_width (b :: t) ltac:(done)) as Hw.
  destruct (DecodeRune (b :: t)) as [c width]. cbn [fst snd] in *.
  unfold mapped. f_equal. unfold strings_Map.
  apply (mapRunes_fuel mapping (length t)); rewrite ?length_drop; simpl in *; lia.
Qed.

Lemma strings_Map_ascii_cons (mapping : Z -> Z) (b : byte) (t : gostring) :
  byteVal b < 0x80 ->
  strings_Map mapping (b :: t) = mapped mapping (byteVal b) ++ strings_Map mapping t.
Proof.
  intros Hb. rewrite strings_Map_step by done.
  by rewrite DecodeRune_ascii.
Qed.

Lemma strings_Map_encoded (mapping : Z -> Z) (r : Z) (rest : gostring) :
  ValidRune r = true ->
  strings_Map mapping (EncodeRune r ++ rest)
  = mapped mapping r ++ strings_Map mapping rest.
Proof.
  intros Hv. rewrite strings_Map_step.
  - rewrite DecodeRune_EncodeRune by done. cbn [fst snd].
    by rewrite drop_app_length.
  - pose proof (EncodeRune_nonempty r). by destruct (EncodeRune r).
Qed.

(** An ASCII byte is a boundary for [strings.Map]. *)
Lemma strings_Map_app_ascii (mapping : Z -> Z) (s : gostring) (b : byte) (t : gostring) :
  byteVal b < 0x80 ->
  strings_Map mapping (s ++ b :: t)
  = strings_Map mapping s ++ strings_Map mapping (b :: t).
Proof.
  intros Hb. remember (length s) as n eqn:Hn. revert s Hn.
  induction (lt_wf n) as [n _ IH]. intros s Hn.
  destruct (decide (s = [])) as [->|Hs]; [done|].
  rewrite (strings_Map_step mapping (s ++ b :: t)) by (by destruct s).
  rewrite (strings_Map_step mapping s Hs).
  rewrite DecodeRune_app_ascii by done.
  pose proof (DecodeRune_width s Hs) as Hw.
  destruct (DecodeRune s) as [c width]. cbn [fst snd] in *.
  rewrite drop_app_le by lia.
  rewrite (IH (length (drop width s))); [by rewrite app_assoc| |done].
  rewrite length_drop. lia.
Qed.

(** ** Splitting *)

Lemma Split_sep_free (a : gostring) (sep : byte) :
  Forall (fun b => b <> sep) a -> Split a sep = [a].
Proof.
  induction 1 as [|b a Hb Ha IH]; [done|]. simpl.
  rewrite byte_eqb_ne by done. by rewrite IH.
Qed.

Lemma Split_app_sep (a rest : gostring) (sep : byte) :
  Forall (fun b => b <> sep) a ->
  Split (a ++ sep :: rest) sep = a :: Split rest sep.
Proof.
  induction 1 as [|b a Hb Ha IH]; simpl.
  - by rewrite byte_eqb_refl.
  - rewrite byte_eqb_ne by done. by rewrite IH.
Qed.

Lemma sep_decompose (s : gostring) (sep : byte) :
  Forall (fun b => b <> sep) s
  \/ exists a rest, s = a ++ sep :: rest /\ Forall (fun b => b <> sep) a.
Proof.
  induction s as [|b s IH]; [by left|].
  destruct (Byte.byte_eq_dec b sep) as [->|Hb].
  - right. by exists [], s.
  - destruct IH as [Hfree|(a & rest & -> & Ha)].
    + left. by constructor.
    + right. exists (b :: a), rest. split; [done|by constructor].
Qed.

Section Clean.

Variable unicode_Cf unicode_Cc unicode_Mn unicode_Zs unicode_IsSpace : Z -> bool.

Local Abbreviation keep :=
  (cleanRune unicode_Cf unicode_Cc unicode_Mn unicode_Zs unicode_IsSpace).
Local Abbreviation clean :=
  (cleanInvisibleChars unicode_Cf unicode_Cc unicode_Mn unicode_Zs unicode_IsSpace).

Lemma cleanRune_cases (r : Z) : keep r = r \/ keep r = -1.
Proof.
  unfold cleanRune.
  destruct ((r =? 0x20) || (r =? 0x1b) || (r =? 0x09) || (r =? 0x0a)); [by left|].
  destruct (unicode_Cf r || unicode_Cc r || unicode_Mn r || unicode_Zs r); [by right|].
  destruct (unicode_IsSpace r); [by right|by left].
Qed.

Lemma isKeptByte_spec (b : byte) :
  isKeptByte b = true -> byteVal b < 0x80 /\ keep (byteVal b) = byteVal b.
Proof.
  unfold isKeptByte. intros H.
  repeat (apply orb_prop in H as [H|H]); apply byte_dec_bl in H; by subst b.
Qed.

Lemma mapped_ascii (b : byte) :
  byteVal b < 0x80 ->
  mapped keep (byteVal b)
  = if keep (byteVal b) <? 0 then [] else [b].
Proof.
  intros Hb. unfold mapped. pose proof (byteVal_range b).
  destruct (cleanRune_cases (byteVal b)) as [-> | ->]; [|done].
  replace (byteVal b <? 0) with false by lia.
  by rewrite EncodeRune_1, toByte_byteVal by lia.
Qed.

(** The four kept bytes are boundaries of the cleaning, and stay. *)
Lemma cleanInvisibleChars_kept (s : gostring) (b : byte) (t : gostring) :
  isKeptByte b = true ->
  clean (s ++ b :: t)
  = clean s ++ b :: clean t.
Proof.
  intros Hb. apply isKeptByte_spec in Hb as [Hascii Hkeep].
  unfold cleanInvisibleChars.
  rewrite strings_Map_app_ascii, strings_Map_ascii_cons by done.
  rewrite mapped_ascii, Hkeep by done. pose proof (byteVal_range b).
  by replace (byteVal b <? 0) with false by lia.
Qed.

Lemma ValidRune_RuneError : ValidRune RuneError = true.
Proof. done. Qed.

(** What the head of a text turns into. *)
Lemma cleanInvisibleChars_step (s : gostring) :
  s <> [] ->
  exists chunk width,
    (1 <= width <= length s)%nat
    /\ clean s = chunk ++ clean (drop width s)
    /\ (chunk = []
        \/ (exists b, chunk = [b] /\ List.hd x00 s = b /\ byteVal b < 0x80
                      /\ keep (byteVal b) = byteVal b)
        \/ (exists c, chunk = EncodeRune c /\ ValidRune c = true /\ 0x80 <= c
                      /\ keep c = c)).
Proof.
  intros Hs. unfold cleanInvisibleChars.
  rewrite (strings_Map_step _ s Hs).
  pose proof (DecodeRune_width s Hs) as Hw.
  exists (mapped keep (fst (DecodeRune s))), (snd (DecodeRune s)).
  split; [done|]. split; [done|].
  destruct s as [|b0 t]; [done|].
  destruct (Z.lt_ge_cases (byteVal b0) 0x80) as [H0|H0].
  - rewrite DecodeRune_ascii by done. cbn [fst]. rewrite mapped_ascii by done.
    pose proof (byteVal_range b0).
    destruct (cleanRune_cases (byteVal b0)) as [E|E]; rewrite E.
    + replace (byteVal b0 <? 0) with false by lia. right; left. by exists b0.
    + by left.
  - assert (Hc : exists c, fst (DecodeRune (b0 :: t)) = c /\ ValidRune c = true
                           /\ 0x80 <= c).
    { destruct (DecodeRune_multibyte b0 t H0) as [->|(c & rest & Hv & Hc & _ & ->)].
      - by exists RuneError.
      - by exists c. }
    destruct Hc as (c & -> & Hv & Hc). unfold mapped.
    destruct (cleanRune_cases c) as [E|E]; rewrite E.
    + replace (c <? 0) with false by lia. right; right. by exists c.
    + by left.
Qed.

(** Every byte of the cleaned text is a byte of the text or a byte above the
    ASCII range. *)
Lemma cleanInvisibleChars_Forall (P : byte -> Prop) (s : gostring) :
  (forall b, 0x80 <= byteVal b -> P b) ->
  Forall P s -> Forall P (clean s).
Proof.
  intros Hhigh. remember (length s) as n eqn:Hn. revert s Hn.
  induction (lt_wf n) as [n _ IH]. intros s Hn Hs.
  destruct (decide (s = [])) as [->|Hne]; [done|].
  destruct (cleanInvisibleChars_step s Hne) as (chunk & width & Hw & -> & Hchunk).
  apply Forall_app. split.
  - destruct Hchunk as [->|[(b & -> & Hb & _)|(c & -> & _ & Hc & _)]].
    + done.
    + destruct s as [|b0 t]; [done|]. simpl in Hb. subst b0.
      constructor; [by inversion Hs|done].
    + pose proof (EncodeRune_high c (or_intror Hc)) as He.
      rewrite List.Forall_forall in He. apply List.Forall_forall. auto.
  - apply (IH (length (drop width s))); [rewrite length_drop; lia|done|].
    by apply Forall_drop.
Qed.

Lemma cleanInvisibleChars_nil : clean [] = [].
Proof. done. Qed.

(** Cleaning and splitting at a kept byte commute. *)
Lemma cleanInvisibleChars_Split (s : gostring) (sep : byte) :
  isKeptByte sep = true ->
  Split (clean s) sep = map clean (Split s sep).
Proof.
  intros Hsep. pose proof (isKeptByte_spec sep Hsep) as [Hascii _].
  assert (Hfree : forall a, Forall (fun b => b <> sep) a ->
                    Forall (fun b => b <> sep) (clean a)).
  { intros a. apply cleanInvisibleChars_Forall. intros b Hb ->. lia. }
  remember (length s) as n eqn:Hn. revert s Hn.
  induction (lt_wf n) as [n _ IH]. intros s Hn.
  destruct (sep_decompose s sep) as [Hs|(a & rest & -> & Ha)].
  - rewrite (Split_sep_free s) by done. simpl. by rewrite Split_sep_free by auto.
  - rewrite cleanInvisibleChars_kept by done.
    rewrite !Split_app_sep by auto. simpl. f_equal.
    apply (IH (length rest)); [|done]. rewrite Hn, length_app. simpl. lia.
Qed.

(** On an ASCII byte the cleaning keeps or drops the byte, and goes on. *)
Lemma cleanInvisibleChars_ascii_cons (b : byte) (s : gostring) :
  byteVal b < 0x80 ->
  clean (b :: s) = (if keep (byteVal b) <? 0 then [] else [b]) ++ clean s.
Proof.
  intros Hb. unfold cleanInvisibleChars.
  by rewrite strings_Map_ascii_cons, mapped_ascii.
Qed.

Lemma cleanInvisibleChars_ascii_Forall (s : gostring) :
  Forall (fun b => byteVal b < 0x80) s ->
  Forall (fun b => byteVal b < 0x80) (clean s).
Proof.
  induction 1 as [|b s Hb Hs IH]; [done|].
  rewrite cleanInvisibleChars_ascii_cons by done.
  destruct (keep (byteVal b) <? 0); [done|by constructor].
Qed.

End Clean.

(** X2: [cleanInvisibleChars] works line by line and field by field.  The
    newline and the tab are kept wherever they stand, and no rune is decoded
    across them: the lines of the sanitized text are the sanitized lines of
    the text, and the fields of a sanitized line are the sanitized fields of
    the line.  So the numbers of rows and of fields of the table are those of
    the text as written. *)
Theorem cleanInvisibleChars_lines_and_fields
    (unicode_Cf unicode_Cc unicode_Mn unicode_Zs unicode_IsSpace : Z -> bool)
    (s : gostring) :
  Split (cleanInvisibleChars unicode_Cf unicode_Cc unicode_Mn unicode_Zs
           unicode_IsSpace s) NL
  = map (cleanInvisibleChars unicode_Cf unicode_Cc unicode_Mn unicode_Zs
           unicode_IsSpace) (Split s NL)
  /\ Split (cleanInvisibleChars unicode_Cf unicode_Cc unicode_Mn unicode_Zs
              unicode_IsSpace s) TAB
     = map (cleanInvisibleChars unicode_Cf unicode_Cc unicode_Mn unicode_Zs
              unicode_IsSpace) (Split s TAB).
Proof. split; by apply cleanInvisibleChars_Split. Qed.

(** X3: sanitizing twice is sanitizing once.  What [cleanInvisibleChars]
    returns is valid UTF-8 made of runes it keeps (an invalid byte has become
    the replacement character, or is gone), so a second pass decodes the
    runes the first one encoded and changes nothing. *)
Theorem cleanInvisibleChars_idempotent
    (unicode_Cf unicode_Cc unicode_Mn unicode_Zs unicode_IsSpace : Z -> bool)
    (s : gostring) :
  cleanInvisibleChars unicode_Cf unicode_Cc unicode_Mn unicode_Zs unicode_IsSpace
    (cleanInvisibleChars unicode_Cf unicode_Cc unicode_Mn unicode_Zs
       unicode_IsSpace s)
  = cleanInvisibleChars unicode_Cf unicode_Cc unicode_Mn unicode_Zs
      unicode_IsSpace s.
Proof.
  set (clean := cleanInvisibleChars unicode_Cf unicode_Cc unicode_Mn unicode_Zs
                  unicode_IsSpace).
  remember (length s) as n eqn:Hn. revert s Hn.
  induction (lt_wf n) as [n _ IH]. intros s Hn.
  destruct (decide (s = [])) as [->|Hne]; [done|].
  destruct (cleanInvisibleChars_step unicode_Cf unicode_Cc unicode_Mn unicode_Zs
              unicode_IsSpace s Hne) as (chunk & width & Hw & Hs & Hchunk).
  fold clean in Hs. rewrite Hs.
  assert (Hrest : clean (clean (drop width s)) = clean (drop width s))
    by (apply (IH (length (drop width s))); [rewrite length_drop; lia|done]).
  destruct Hchunk as [->|[(b & -> & _ & Hb & Hkeep)|(c & -> & Hv & Hc & Hkeep)]].
  - done.
  - cbn [app]. unfold clean at 1.
    rewrite cleanInvisibleChars_ascii_cons, Hkeep by done.
    pose proof (byteVal_range b). replace (byteVal b <? 0) with false by lia.
    cbn [app]. f_equal. exact Hrest.
  - unfold clean at 1, cleanInvisibleChars.
    rewrite strings_Map_encoded by done. unfold mapped. rewrite Hkeep.
    replace (c <? 0) with false by lia. f_equal. exact Hrest.
Qed.

(** X4: on ASCII text [cleanInvisibleChars] is a filter.  It drops the
    bytes whose code point the rune function maps to -1 and keeps all others,
    in order and unchanged. *)
Theorem cleanInvisibleChars_ascii_filter
    (unicode_Cf unicode_Cc unicode_Mn unicode_Zs unicode_IsSpace : Z -> bool)
    (s : gostring) :
  Forall (fun b => byteVal b < 0x80) s ->
  cleanInvisibleChars unicode_Cf unicode_Cc unicode_Mn unicode_Zs unicode_IsSpace s
  = List.filter
      (fun b => negb (cleanRune unicode_Cf unicode_Cc unicode_Mn unicode_Zs
                        unicode_IsSpace (byteVal b) <? 0)) s.
Proof.
  induction 1 as [|b s Hb Hs IH]; [done|].
  rewrite cleanInvisibleChars_ascii_cons by done. simpl. rewrite IH.
  by destruct (cleanRune _ _ _ _ _ (byteVal b) <? 0).
Qed.

Lemma cleanInvisibleChars_ascii_filter_witness :
  cleanInvisibleChars latin1_Cf latin1_Cc latin1_Mn latin1_Zs latin1_IsSpace
    (str "a" ++ [x0d; x00; TAB] ++ str "b c" ++ [x7f; NL])
  = List.filter
      (fun b => negb (cleanRune latin1_Cf latin1_Cc latin1_Mn latin1_Zs
                        latin1_IsSpace (byteVal b) <? 0))
      (str "a" ++ [x0d; x00; TAB] ++ str "b c" ++ [x7f; NL]).
Proof.
  apply cleanInvisibleChars_ascii_filter.
  vm_compute. by repeat constructor.
Defined.

(** ** When [Flush] returns, continued *)

(** What [Flush] hands to [formatBuffer]. *)
Lemma Flush_returns_formatBuffer (ColorOrange ColorReset : gostring)
    (unicode_Cf unicode_Cc unicode_Mn unicode_Zs unicode_IsSpace : Z -> bool)
    (w : Writer) :
  (exists out err,
     snd (Flush ColorOrange ColorReset
            unicode_Cf unicode_Cc unicode_Mn unicode_Zs unicode_IsSpace w)
     = Returned out err)
  <-> (exists r,
         formatBuffer ColorOrange ColorReset
           (setLines w
              (flushLines (cleanInvisibleChars unicode_Cf unicode_Cc unicode_Mn
                             unicode_Zs unicode_IsSpace (buffer w)))) = Some r).
Proof.
  unfold Flush, flushLines.
  destruct (formatBuffer _ _ _) as [[w2 fb]|].
  - destruct (Write (output w2) fb) as [n err]. simpl.
    split; intros _; [by eexists|by eexists _, _].
  - simpl. split; [by intros (? & ? & ?)|by intros [? ?]].
Qed.

(** The colourless fields of a line when nothing is cut. *)
Lemma finalRow_noCut (w : Writer) (fields : list gostring) :
  noCut w fields -> finalRow w fields = map stripColorCodes fields.
Proof.
  intros Hno. apply list_eq. intros c. unfold finalRow.
  rewrite list_lookup_imap, list_lookup_fmap.
  destruct (fields !! c) as [field|] eqn:Hf; [|done]. simpl.
  unfold finalColorless. by rewrite (Hno c field Hf).
Qed.

Lemma noCut_cutsInRange (w : Writer) (fields : list gostring) :
  noCut w fields -> cutsInRange w fields.
Proof. intros Hno c field Hf Ht. by rewrite (Hno c field Hf) in Ht. Qed.

Lemma preserve_noCut (w : Writer) (fields : list gostring) :
  hasFlag w PreserveLongFields = true -> noCut w fields.
Proof. intros Hp c field _. unfold truncates. by rewrite Hp. Qed.

(** Without any cut [createColumns] returns, keeps the lines as they are and
    strips the colour codes of every field. *)
Lemma createColumns_noCut (ColorOrange ColorReset : gostring) (w : Writer) :
  (forall ln, ln ∈ lines w -> noCut w (Split ln TAB)) ->
  exists w',
    createColumns ColorOrange ColorReset w = Some (w', map strippedRow (lines w))
    /\ lines w' = lines w /\ sameConfig w w'
    /\ rowsFit (columns w') (map strippedRow (lines w)).
Proof.
  intros Hno.
  destruct (createColumns_total ColorOrange ColorReset w) as [[w' cf] Hrun].
  { intros ln Hin _. by apply noCut_cutsInRange, Hno. }
  pose proof (createColumns_spec _ _ _ _ _ Hrun)
    as (Hcf & Hcfg & _ & Hlen & Hfit & _ & Hkeep).
  assert (Hrows : cf = map strippedRow (lines w)).
  { rewrite Hcf. apply map_ext_in. intros ln Hin. unfold colorlessRow, strippedRow.
    destruct ln as [|b ln]; [done|].
    apply finalRow_noCut, Hno. by apply list_elem_of_In. }
  exists w'. rewrite <- Hrows. split_and!; try done.
  apply list_eq. intros j.
  destruct (lines w !! j) as [ln|] eqn:Hj.
  - apply (Hkeep j ln Hj). right. apply Hno. by eapply list_elem_of_lookup_2.
  - apply lookup_ge_None. rewrite Hlen. by apply lookup_ge_None.
Qed.

Lemma formatBuffer_noCut (ColorOrange ColorReset : gostring) (w : Writer) :
  HLine (dividers w) <> [] ->
  (forall ln, ln ∈ lines w -> noCut w (Split ln TAB)) ->
  exists r, formatBuffer ColorOrange ColorReset w = Some r.
Proof.
  intros Hd Hno. unfold formatBuffer.
  destruct (createColumns_noCut ColorOrange ColorReset w Hno)
    as (w' & -> & Hlines & Hcfg & Hfit). simpl.
  destruct (createTable_total w' (map strippedRow (lines w))) as [out ->];
    [| | |simpl; by eexists].
  - destruct Hcfg as (_ & -> & _). done.
  - done.
  - rewrite Hlines. intros l line Hl Hne. rewrite list_lookup_fmap, Hl. simpl.
    destruct line as [|b line]; [done|]. eexists. split; [done|].
    unfold strippedRow. by rewrite length_map.
Qed.

(** X5: without truncation [createColumns] only measures.  With the
    preserve-long-fields flag, or a terminal width of 0 or less (unknown), it
    returns for every text, leaves the stored lines as they are, and the
    colourless fields it returns are the fields of the lines without their
    colour codes. *)
Theorem createColumns_without_truncation (ColorOrange ColorReset : gostring)
    (w : Writer) :
  hasFlag w PreserveLongFields = true \/ termCols w <= 0 ->
  exists w',
    createColumns ColorOrange ColorReset w = Some (w', map strippedRow (lines w))
    /\ lines w' = lines w.
Proof.
  intros Hcase.
  destruct (createColumns_noCut ColorOrange ColorReset w) as (w' & Hrun & Hl & _).
  - intros ln _. destruct Hcase as [Hp|Ht];
      [by apply preserve_noCut|by apply unknown_width_noCut].
  - by exists w'.
Qed.

Lemma createColumns_without_truncation_witness :
  exists w',
    createColumns sampleOrange sampleReset
      (writerOf PreserveLongFields 10 [str "a" ++ [TAB] ++ str "0123456789"] [])
    = Some (w', map strippedRow
                  (lines (writerOf PreserveLongFields 10
                            [str "a" ++ [TAB] ++ str "0123456789"] [])))
    /\ lines w'
       = lines (writerOf PreserveLongFields 10
                  [str "a" ++ [TAB] ++ str "0123456789"] []).
Proof.
  apply (createColumns_without_truncation sampleOrange sampleReset
           (writerOf PreserveLongFields 10 [str "a" ++ [TAB] ++ str "0123456789"] [])).
  left. reflexivity.
Defined.

Lemma flushLines_subset (s ln : gostring) : ln ∈ flushLines s -> ln ∈ Split s NL.
Proof.
  unfold flushLines. destruct (len (List.last (Split s NL) []) =? 0); [|done].
  intros Hin. apply list_elem_of_In. apply In_removelast. by apply list_elem_of_In.
Qed.

Lemma cutsInRange_setLines (w : Writer) (ls : list gostring) (fields : list gostring) :
  cutsInRange (setLines w ls) fields <-> cutsInRange w fields.
Proof.
  split; apply cutsInRange_sameConfig; unfold sameConfig; by split_and!.
Qed.

Lemma noCut_setLines (w : Writer) (ls : list gostring) (fields : list gostring) :
  noCut w fields -> noCut (setLines w ls) fields.
Proof. intros Hno c field Hf. exact (Hno c field Hf). Qed.

(** X6: without truncation [Flush] never panics.  With the
    preserve-long-fields flag, or with a terminal width of 0 or less (the
    width is unknown), [Flush] returns whatever the buffer holds, for any
    glyph set whose horizontal glyph is not empty. *)
Theorem Flush_returns_without_cut (ColorOrange ColorReset : gostring)
    (unicode_Cf unicode_Cc unicode_Mn unicode_Zs unicode_IsSpace : Z -> bool)
    (w : Writer) :
  HLine (dividers w) <> [] ->
  hasFlag w PreserveLongFields = true \/ termCols w <= 0 ->
  exists out err,
    snd (Flush ColorOrange ColorReset
           unicode_Cf unicode_Cc unicode_Mn unicode_Zs unicode_IsSpace w)
    = Returned out err.
Proof.
  intros Hd Hcase. apply Flush_returns_formatBuffer.
  apply formatBuffer_noCut; [done|].
  intros ln _. apply noCut_setLines.
  destruct Hcase as [Hp|Ht]; [by apply preserve_noCut|by apply unknown_width_noCut].
Qed.

Lemma Flush_returns_without_cut_witness :
  exists out err,
    snd (sampleFlush
           (fst (Writer_Write (NewWriter acceptAll PreserveLongFields 10)
                   (str "a" ++ [TAB] ++ str "bcd" ++ [NL]))))
    = Returned out err.
Proof.
  apply (Flush_returns_without_cut sampleOrange sampleReset
           latin1_Cf latin1_Cc latin1_Mn latin1_Zs latin1_IsSpace).
  - vm_compute. discriminate.
  - left. reflexivity.
Defined.

(** X7: eight columns per field are enough.  When the terminal has at least
    8 columns for every field of every line of the buffer, the budget of a
    last field is at least 5 and [Flush] returns, whether it cuts a field or
    not.  (The two colour sequences hold no tab, the horizontal glyph is not
    empty.) *)
Theorem Flush_returns_on_wide_terminal (ColorOrange ColorReset : gostring)
    (unicode_Cf unicode_Cc unicode_Mn unicode_Zs unicode_IsSpace : Z -> bool)
    (w : Writer) :
  tabFree ColorOrange -> tabFree ColorReset ->
  HLine (dividers w) <> [] ->
  (forall ln, ln ∈ Split (buffer w) NL -> 8 * len (Split ln TAB) <= termCols w) ->
  exists out err,
    snd (Flush ColorOrange ColorReset
           unicode_Cf unicode_Cc unicode_Mn unicode_Zs unicode_IsSpace w)
    = Returned out err.
Proof.
  intros Ho Hr Hd Hwide. apply Flush_returns_formatBuffer.
  apply (formatBuffer_returns_iff ColorOrange ColorReset Ho Hr); [done|].
  simpl. intros ln Hin Hne. apply cutsInRange_setLines.
  apply flushLines_subset in Hin.
  rewrite cleanInvisibleChars_Split in Hin by done.
  apply list_elem_of_fmap in Hin as (raw & -> & Hraw).
  specialize (Hwide raw Hraw).
  intros c field _ _. unfold maxFieldLenOf.
  rewrite cleanInvisibleChars_Split by done.
  unfold len in *. rewrite length_map.
  pose proof (Split_nonempty raw TAB) as Hn.
  destruct (Split raw TAB) as [|f fs]; [done|]. clear Hn.
  set (n := Z.of_nat (length (f :: fs))) in *.
  assert (0 < n) by (unfold n; simpl; lia).
  rewrite Z.quot_div_nonneg by lia.
  assert (8 <= termCols w / n) by (apply Z.div_le_lower_bound; lia). lia.
Qed.

Lemma Flush_returns_on_wide_terminal_witness :
  exists out err,
    snd (sampleFlush
           (fst (Writer_Write (NewWriter acceptAll 0 16)
                   (str "a" ++ [TAB] ++ str "0123456789" ++ [NL]))))
    = Returned out err.
Proof.
  apply (Flush_returns_on_wide_terminal sampleOrange sampleReset
           latin1_Cf latin1_Cc latin1_Mn latin1_Zs latin1_IsSpace).
  - unfold tabFree. vm_compute. repeat constructor; discriminate.
  - unfold tabFree. vm_compute. repeat constructor; discriminate.
  - vm_compute. discriminate.
  - intros ln Hin. vm_compute in Hin.
    repeat (apply elem_of_cons in Hin as [->|Hin]; [vm_compute; discriminate|]).
    by apply elem_of_nil in Hin.
Defined.

Lemma Flush_returns_iff_witness :
  exists out err,
    snd (sampleFlush
           (fst (Writer_Write (NewWriter acceptAll 0 16)
                   (str "a" ++ [TAB] ++ str "0123456789" ++ [NL]))))
    = Returned out err.
Proof.
  apply (Flush_returns_iff sampleOrange sampleReset
           latin1_Cf latin1_Cc latin1_Mn latin1_Zs latin1_IsSpace).
  - unfold tabFree. vm_compute. repeat constructor; discriminate.
  - unfold tabFree. vm_compute. repeat constructor; discriminate.
  - vm_compute. discriminate.
  - intros ln Hin. vm_compute in Hin.
    apply list_elem_of_singleton in Hin. subst ln.
    intros _ c field _ _. vm_compute. discriminate.
Defined.

(** ** The colourless text *)

Lemma eraseFrom_skip (t rest : gostring) :
  eraseFrom (length t) (t ++ rest) = eraseFrom 0 rest.
Proof.
  induction t as [|b t IH]; simpl; [|done].
  destruct rest; done.
Qed.

Lemma withoutCodes_byte (b : byte) (s : gostring) :
  b <> ESC -> withoutCodes (b :: s) = b :: withoutCodes s.
Proof.
  intros Hb. unfold withoutCodes. cbn [eraseFrom].
  by rewrite (matchColorCode_plain b s Hb).
Qed.

Lemma withoutCodes_code (run rest : gostring) :
  isCodeRun run -> withoutCodes (colorCode run ++ rest) = withoutCodes rest.
Proof.
  intros Hrun. unfold withoutCodes.
  change (colorCode run ++ rest) with (ESC :: (x5b :: run ++ [x6d]) ++ rest) at 1.
  cbn [eraseFrom].
  change (ESC :: (x5b :: run ++ [x6d]) ++ rest) with (colorCode run ++ rest).
  rewrite (matchColorCode_code run rest Hrun).
  replace (length (colorCode run) - 1)%nat with (length (x5b :: run ++ [x6d]))
    by (unfold colorCode; simpl; lia).
  apply eraseFrom_skip.
Qed.

Lemma withoutCodes_plain (s : gostring) : plain s -> withoutCodes s = s.
Proof.
  induction 1 as [|b s Hb _ IH]; [done|]. by rewrite withoutCodes_byte, IH.
Qed.

(** Removing every occurrence of one code does not change what is left once
    all codes are deleted. *)
Lemma withoutCodes_Replace (s run : gostring) :
  colorCoded s -> isCodeRun run ->
  withoutCodes (Replace s (colorCode run) []) = withoutCodes s.
Proof.
  intros Hs Hrun.
  change (Replace s (colorCode run) []) with (replaceFrom (colorCode run) [] 0 s).
  induction Hs as [|b s Hb _ IH|run' s Hrun' _ IH].
  - done.
  - rewrite replaceFrom_code_byte by done. by rewrite !withoutCodes_byte, IH.
  - destruct (HasPrefix (colorCode run' ++ s) (colorCode run)) eqn:Hpre.
    + pose proof (HasPrefix_code run' run s Hrun' Hrun Hpre) as ->.
      by rewrite replaceFrom_code_same, withoutCodes_code.
    + rewrite replaceFrom_code_other by done.
      by rewrite !withoutCodes_code, IH.
Qed.

Lemma withoutCodes_remove (codes : list gostring) (s : gostring) :
  colorCoded s ->
  Forall (fun cc => exists run, isCodeRun run /\ cc = colorCode run) codes ->
  withoutCodes (fold_left (fun colorless cc => Replace colorless cc []) codes s)
  = withoutCodes s.
Proof.
  intros Hs Hcodes. revert s Hs.
  induction Hcodes as [|cc codes (run & Hrun & ->) _ IH]; intros s Hs; simpl; [done|].
  rewrite IH; [by apply withoutCodes_Replace|].
  by apply Replace_code.
Qed.

(** X8: on a field in which every escape byte starts a complete colour code,
    the loop of [createColumns] that removes the codes found by the pattern,
    one [strings.Replace] per code, leaves exactly the field without its
    codes: every code is gone and every other byte is kept, in order. *)
Theorem stripColorCodes_withoutCodes (field : gostring) :
  colorCoded field -> stripColorCodes field = withoutCodes field.
Proof.
  intros Hs.
  rewrite <- (withoutCodes_plain (stripColorCodes field))
    by (by apply stripColorCodes_plain).
  unfold stripColorCodes. apply withoutCodes_remove; [done|].
  by apply FindAllString_codes.
Qed.

Lemma stripColorCodes_withoutCodes_witness :
  stripColorCodes ([ESC] ++ str "[1;31mred" ++ [ESC] ++ str "[0m!")
  = withoutCodes ([ESC] ++ str "[1;31mred" ++ [ESC] ++ str "[0m!").
Proof.
  apply stripColorCodes_withoutCodes.
  apply escapesAreCodes_sound. vm_compute. reflexivity.
Defined.

(** ** The columns [createColumns] computes *)

Lemma widenCols_length (cs : list column) (row : list gostring) :
  length (widenCols cs row) = length cs.
Proof. unfold widenCols. by rewrite length_imap. Qed.

Lemma widenCols_nil (cs : list column) : widenCols cs [] = cs.
Proof.
  apply list_eq. intros c. unfold widenCols. rewrite list_lookup_imap.
  by destruct (cs !! c).
Qed.

Lemma widenCols_step (cs : list column) (row : list gostring) (c : nat)
    (col : column) (v : gostring) :
  cs !! c = Some col -> row !! c = Some v ->
  <[c := mkColumn (Z.max (textWidth col) (len v))]> (widenCols cs (take c row))
  = widenCols cs (take (Datatypes.S c) row).
Proof.
  intros Hcol Hv. apply list_eq. intros i. unfold widenCols.
  destruct (decide (i = c)) as [->|Hne].
  - rewrite list_lookup_insert_eq by (rewrite length_imap; by eapply lookup_lt_Some).
    rewrite list_lookup_imap, Hcol. simpl.
    by rewrite lookup_take_lt, Hv by lia.
  - rewrite list_lookup_insert_ne by done. rewrite !list_lookup_imap.
    destruct (cs !! i) as [coli|]; [|done]. simpl.
    destruct (decide (i < c)%nat).
    + by rewrite !lookup_take_lt by lia.
    + by rewrite !lookup_take_ge by lia.
Qed.

Lemma widenCols_lookup_untouched (cs : list column) (row : list gostring) (c : nat) :
  widenCols cs (take c row) !! c = cs !! c.
Proof.
  unfold widenCols. rewrite list_lookup_imap.
  destruct (cs !! c); [|done]. simpl. by rewrite lookup_take_ge by lia.
Qed.

Section Columns.

Variable ColorOrange ColorReset : gostring.

(** How one iteration of the inner loop of [createColumns] changes the
    columns. *)
Lemma createColumnsField_columns (w w' : Writer) (l c : nat) (m : Z)
    (fields : list gostring) (cf cf' : list (list gostring)) :
  createColumnsField ColorOrange ColorReset l m fields (w, cf) c = Some (w', cf') ->
  exists col v,
    columns w !! c = Some col /\ get2 cf' l c = Some v
    /\ columns w' = <[c := mkColumn (Z.max (textWidth col) (len v))]> (columns w).
Proof.
  unfold createColumnsField.
  destruct (fields !! c) as [field|] eqn:Hfield; simpl; [|done].
  destruct (set2 cf l c (stripColorCodes field)) as [cf1|] eqn:Hset; simpl; [|done].
  apply set2_Some in Hset as (row & Hrow & Hc & ->).
  destruct (truncateLongField _ _ w l c m fields _) as [[w2 cf2]|] eqn:Htr;
    simpl; [|done].
  eapply truncateLongField_spec in Htr as (-> & _ & Hcols & _).
  2: { apply list_lookup_insert_eq. by eapply lookup_lt_Some. }
  2: { by apply list_lookup_insert_eq. }
  rewrite insert_insert_row, list_insert_insert_eq.
  set (v := finalColorless w (length fields) c m (stripColorCodes field)).
  rewrite (get2_insert cf l c row v) by done. simpl.
  destruct (columns w2 !! c) as [col|] eqn:Hcol; simpl; [|done].
  intros Hres. exists col, v. rewrite <- Hcols. split; [done|].
  destruct (len v >? textWidth col) eqn:Hwide; injection Hres as <- <-.
  - split; [by apply get2_insert|]. cbn [columns setColumns].
    by rewrite Z.max_r by lia.
  - split; [by apply get2_insert|].
    rewrite Z.max_l by lia. destruct col as [tw]. simpl.
    by rewrite list_insert_id.
Qed.

Lemma rowAt_lookup_last (w : Writer) (fields : list gostring) (c : nat) :
  (c < length fields)%nat ->
  rowAt w fields (Datatypes.S c) !! c = finalRow w fields !! c.
Proof.
  intros Hc. unfold rowAt.
  rewrite lookup_app_l by (rewrite length_take, finalRow_length; lia).
  by rewrite lookup_take_lt by lia.
Qed.

Lemma withColumnsFor_columns (w : Writer) (fields : list gostring) :
  columns (withColumnsFor w fields)
  = columns w ++ replicate (length fields - length (columns w)) (mkColumn 0).
Proof.
  unfold withColumnsFor, len.
  destruct (Z.of_nat (length fields) >? Z.of_nat (length (columns w))) eqn:E; [done|].
  replace (length fields - length (columns w))%nat with 0%nat by lia.
  simpl. by rewrite app_nil_r.
Qed.

(** The columns after a line: those before it, widened by the colourless
    fields of the line. *)
Lemma createColumnsLine_columns (ranged : list gostring) (w w' : Writer)
    (cf cf' : list (list gostring)) (l : nat) (line : gostring) :
  ranged !! l = Some line -> line <> [] ->
  createColumnsLine ColorOrange ColorReset ranged (w, cf) l = Some (w', cf') ->
  columns w' = widen (columns w) (finalRow w (Split line TAB)).
Proof.
  intros Hline Hne Hrun.
  pose proof (createColumnsLine_spec _ _ _ _ _ _ _ _ _ Hline Hne Hrun) as (Hl & _).
  rewrite (createColumnsLine_unfold _ _ ranged w cf l line) in Hrun by done.
  set (fields := Split line TAB) in *.
  destruct (withColumnsFor_spec w fields) as (Hcfg0 & _).
  set (w0 := withColumnsFor w fields) in *.
  set (cf0 := <[l := replicate (length fields) []]> cf) in *.
  apply (forRange_invariant
           (fun c st => lineInv w0 cf0 l fields c st
                        /\ columns (fst st)
                           = widenCols (columns w0) (take c (finalRow w0 fields))))
    in Hrun.
  - destruct Hrun as [_ Hcols]. cbn [fst] in Hcols. rewrite Hcols.
    rewrite take_ge by (by rewrite finalRow_length).
    unfold widen, w0. rewrite withColumnsFor_columns, finalRow_length.
    by rewrite (finalRow_sameConfig w (withColumnsFor w fields)).
  - split; [apply lineInv_entry|]. cbn [fst]. by rewrite take_0, widenCols_nil.
  - intros c [w1 cf1] [w2 cf2] Hc [Hinv Hcols] Hbody. cbn [fst] in *.
    assert (Hinv' : lineInv w0 cf0 l fields (Datatypes.S c) (w2, cf2)).
    { apply (lineInv_step ColorOrange ColorReset w0 cf0 l fields c (w1, cf1));
        try done.
      - unfold cf0. by rewrite length_insert.
      - by rewrite (maxFieldLenOf_sameConfig w w0). }
    split; [done|].
    apply createColumnsField_columns in Hbody as (col & v & Hcol & Hv & ->).
    destruct Hinv' as (_ & _ & _ & _ & _ & -> & _).
    unfold get2 in Hv.
    rewrite list_lookup_insert_eq in Hv by (unfold cf0; by rewrite length_insert).
    simpl in Hv. rewrite rowAt_lookup_last in Hv by done.
    rewrite Hcols in Hcol |- *. rewrite widenCols_lookup_untouched in Hcol.
    by apply widenCols_step.
Qed.

Lemma widen_nil (cs : list column) : widen cs [] = cs.
Proof. unfold widen. simpl. by rewrite app_nil_r, widenCols_nil. Qed.

(** The columns [createColumns] leaves: those it was entered with, widened
    by every row of colourless fields in turn. *)
Lemma createColumns_columns (w w' : Writer) (cf : list (list gostring)) :
  createColumns ColorOrange ColorReset w = Some (w', cf) ->
  columns w' = fold_left widen cf (columns w).
Proof.
  intros Hrun.
  pose proof (createColumns_spec _ _ _ _ _ Hrun) as (-> & _).
  unfold createColumns in Hrun.
  apply (forRange_invariant
           (fun l st => tableInv w l st
                        /\ columns (fst st)
                           = fold_left widen (map (colorlessRow w) (take l (lines w)))
                               (columns w)))
    in Hrun.
  - destruct Hrun as [_ Hcols]. cbn [fst] in Hcols.
    by rewrite Hcols, firstn_all.
  - split; [apply tableInv_entry|]. by rewrite take_0.
  - intros l [w1 cf1] [w2 cf2] Hl [Hinv Hcols] Hbody. cbn [fst] in *.
    split; [by apply (tableInv_step ColorOrange ColorReset w l (w1, cf1))|].
    destruct (lookup_lt_is_Some_2 (lines w) l Hl) as [line Hline].
    rewrite (take_S_r _ _ line Hline), map_app, fold_left_app, <- Hcols. simpl.
    destruct (decide (line = [])) as [->|Hne].
    + unfold createColumnsLine in Hbody. rewrite Hline in Hbody. simpl in Hbody.
      injection Hbody as <- <-. by rewrite widen_nil.
    + rewrite (createColumnsLine_columns _ _ _ _ _ _ _ Hline Hne Hbody).
      destruct Hinv as (Hcfg & _).
      rewrite (finalRow_sameConfig w w1) by done. by destruct line.
Qed.

End Columns.

Lemma widen_length (cs : list column) (row : list gostring) :
  length (widen cs row) = Nat.max (length cs) (length row).
Proof.
  unfold widen. rewrite widenCols_length, length_app, length_replicate. lia.
Qed.

Lemma fold_widen_length (cf : list (list gostring)) (cs : list column) :
  length (fold_left widen cf cs) = Nat.max (length cs) (fieldCount cf).
Proof.
  revert cs. induction cf as [|row cf IH]; intros cs; simpl.
  - unfold fieldCount. simpl. lia.
  - rewrite IH, widen_length. unfold fieldCount. simpl. lia.
Qed.

Lemma widen_lookup (cs : list column) (row : list gostring) (c : nat) (col : column) :
  Forall (fun col => 0 <= textWidth col) cs ->
  widen cs row !! c = Some col ->
  textWidth col
  = Z.max (from_option textWidth 0 (cs !! c)) (from_option len 0 (row !! c)).
Proof.
  intros Hpos. unfold widen, widenCols. rewrite list_lookup_imap.
  destruct (decide (c < length cs)%nat) as [Hc|Hc].
  - rewrite lookup_app_l by done.
    destruct (lookup_lt_is_Some_2 cs c Hc) as [col0 Hcol0]. rewrite Hcol0. simpl.
    assert (0 <= textWidth col0).
    { rewrite List.Forall_forall in Hpos. apply Hpos.
      apply list_elem_of_In. by eapply list_elem_of_lookup_2. }
    destruct (row !! c) as [v|]; simpl; intros [= <-]; simpl; lia.
  - rewrite lookup_app_r by lia.
    rewrite (lookup_ge_None_2 cs c) by lia. simpl.
    destruct (replicate _ _ !! _) as [col0|] eqn:Hrep; [|done]. simpl.
    apply lookup_replicate in Hrep as [-> _].
    destruct (row !! c) as [v|]; simpl; intros [= <-]; simpl; unfold len; lia.
Qed.

Lemma widen_nonneg (cs : list column) (row : list gostring) :
  Forall (fun col => 0 <= textWidth col) cs ->
  Forall (fun col => 0 <= textWidth col) (widen cs row).
Proof.
  intros Hpos. apply List.Forall_forall. intros col Hin.
  apply list_elem_of_In, list_elem_of_lookup_1 in Hin as [c Hc].
  rewrite (widen_lookup cs row c col Hpos Hc).
  assert (0 <= from_option len 0 (row !! c))
    by (destruct (row !! c); simpl; unfold len; lia).
  lia.
Qed.

Lemma fold_widen_lookup (cf : list (list gostring)) (cs : list column)
    (c : nat) (col : column) :
  Forall (fun col => 0 <= textWidth col) cs ->
  fold_left widen cf cs !! c = Some col ->
  textWidth col = Z.max (from_option textWidth 0 (cs !! c)) (widthOf cf c).
Proof.
  revert cs. induction cf as [|row cf IH]; intros cs Hpos Hcol; simpl in Hcol.
  - rewrite Hcol. simpl. unfold widthOf. simpl.
    rewrite List.Forall_forall in Hpos.
    assert (0 <= textWidth col); [|lia].
    apply Hpos, list_elem_of_In. by eapply list_elem_of_lookup_2.
  - rewrite (IH (widen cs row) (widen_nonneg cs row Hpos) Hcol).
    unfold widthOf. simpl. fold (widthOf cf c).
    destruct (widen cs row !! c) as [col1|] eqn:Hcol1; simpl.
    + rewrite (widen_lookup cs row c col1 Hpos Hcol1). lia.
    + apply lookup_ge_None in Hcol1. rewrite widen_length in Hcol1.
      rewrite (lookup_ge_None_2 cs c), (lookup_ge_None_2 row c) by lia. simpl. lia.
Qed.

(** X9: entered with no column, as in every [Flush], [createColumns] leaves
    as many columns as the longest row has fields, and every column is
    exactly as wide as the longest colourless field at its index. *)
Theorem createColumns_tight_columns (ColorOrange ColorReset : gostring)
    (w w' : Writer) (colorlessFields : list (list gostring)) :
  columns w = [] ->
  createColumns ColorOrange ColorReset w = Some (w', colorlessFields) ->
  length (columns w') = fieldCount colorlessFields
  /\ forall c col, columns w' !! c = Some col ->
       textWidth col = widthOf colorlessFields c.
Proof.
  intros Hnil Hrun.
  rewrite (createColumns_columns _ _ _ _ _ Hrun), Hnil. split.
  - by rewrite fold_widen_length.
  - intros c col Hcol.
    rewrite (fold_widen_lookup colorlessFields [] c col); [|done|done].
    simpl. unfold widthOf.
    assert (H0 : forall zs : list Z, 0 <= foldr Z.max 0 zs)
      by (induction zs; simpl; lia).
    specialize (H0 (map (fun row => from_option len 0 (row !! c)) colorlessFields)).
    lia.
Qed.

Lemma createColumns_tight_columns_witness :
  exists w' colorlessFields,
    createColumns sampleOrange sampleReset
      (writerOf 0 80 [str "ab" ++ [TAB] ++ str "c";
                      str "d" ++ [TAB] ++ str "efg" ++ [TAB] ++ str "h"] [])
    = Some (w', colorlessFields)
    /\ length (columns w') = fieldCount colorlessFields
    /\ forall c col, columns w' !! c = Some col ->
         textWidth col = widthOf colorlessFields c.
Proof.
  eexists _, _. split; [vm_compute; reflexivity|].
  apply (createColumns_tight_columns sampleOrange sampleReset
           (writerOf 0 80 [str "ab" ++ [TAB] ++ str "c";
                           str "d" ++ [TAB] ++ str "efg" ++ [TAB] ++ str "h"] [])).
  - reflexivity.
  - vm_compute. reflexivity.
Defined.

(** ** The padding of a cell *)

Lemma Repeat_Some (s : gostring) (n : Z) :
  is_Some (Repeat s n) <-> 0 <= n.
Proof.
  unfold Repeat. destruct (n <? 0) eqn:E.
  - split; [by intros [? ?]|lia].
  - split; [lia|by eexists].
Qed.

Lemma Repeat_None (s : gostring) (n : Z) : n < 0 -> Repeat s n = None.
Proof. intros Hn. unfold Repeat. by replace (n <? 0) with true by lia. Qed.

Lemma quot_half_neg (t : Z) : t < 0 -> Z.quot t 2 < 0 \/ t - Z.quot t 2 < 0.
Proof.
  intros Ht. destruct (Z.eq_dec t (-1)) as [->|Hne]; [right; by vm_compute|].
  left. divlia.
Qed.

(** What [getPadding] computes whenever it returns with padding. *)
Lemma getPadding_padded (w : Writer) (c : nat) (field : gostring) (col : column) :
  columns w !! c = Some col ->
  hasFlag w PreserveLongFields = false ->
  let total := textWidth col - len field + slack w in
  getPadding w c field
  = if total <? 0 then None
    else if hasFlag w AlignMiddle then
      Some (total, spaces (Z.quot total 2), spaces (total - Z.quot total 2))
    else if hasFlag w AlignRight then Some (total, spaces total, [])
    else Some (total, [], spaces total).
Proof.
  intros Hcol Hp. unfold getPadding, slack. rewrite Hcol, Hp. simpl.
  set (d := textWidth col - len field). clearbody d.
  destruct (hasFlag w RemoveLeastPad), (hasFlag w AlignMiddle),
    (hasFlag w AlignRight); cbv zeta; rewrite ?Z.add_0_r;
    repeat match goal with
           | |- context [d + 1 + 1] => replace (d + 1 + 1) with (d + 2) by lia
           end;
    match goal with
    | |- context [?t <? 0] =>
        destruct (Z.ltb_spec t 0) as [Hneg|Hpos];
        [ first [ rewrite (Repeat_None [SP] t) by done; done
                | destruct (quot_half_neg t Hneg) as [Hq|Hq];
                  [ by rewrite (Repeat_None [SP] (Z.quot t 2))
                  | destruct (Z.ltb_spec (Z.quot t 2) 0);
                    [ by rewrite (Repeat_None [SP] (Z.quot t 2))
                    | rewrite (Repeat_spaces (Z.quot t 2)) by done; simpl;
                      by rewrite (Repeat_None [SP] (t - Z.quot t 2)) ] ] ]
        | rewrite ?Repeat_spaces
            by (try apply quot_half_pos; try apply quot_half_rest; lia);
          done ]
    end.
Qed.

(** X10: [getPadding] returns exactly when the Writer has a column of the
    index and either padding is off (preserve-long-fields) or the field is at
    most [slack] bytes longer than the column is wide; a longer field makes
    a repeat count negative, and the call panics. *)
Theorem getPadding_returns_iff (w : Writer) (c : nat) (field : gostring) :
  is_Some (getPadding w c field)
  <-> exists col, columns w !! c = Some col
        /\ (hasFlag w PreserveLongFields = true
            \/ len field <= textWidth col + slack w).
Proof.
  destruct (columns w !! c) as [col|] eqn:Hcol.
  2: { unfold getPadding. rewrite Hcol. simpl.
       split; [by intros [? ?]|by intros (? & ? & _)]. }
  destruct (hasFlag w PreserveLongFields) eqn:Hp.
  { unfold getPadding. rewrite Hcol, Hp. simpl.
    split; [intros _; exists col; by split; [|left]|by eexists]. }
  rewrite (getPadding_padded w c field col Hcol Hp). cbv zeta.
  destruct (Z.ltb_spec (textWidth col - len field + slack w) 0) as [Hneg|Hpos].
  - split; [by intros [? ?]|]. intros (col' & [= <-] & [|]); [done|lia].
  - split.
    + intros _. exists col. split; [done|right; lia].
    + intros _. destruct (hasFlag w AlignMiddle), (hasFlag w AlignRight); by eexists.
Qed.

(** X11: a cell is as wide as its column plus the slack, whatever the field:
    the spaces [getPadding] returns and the field add up to the [textWidth]
    of the column plus [slack].  The spaces are all on the right by default,
    all on the left with the right flag alone, and with the middle flag on
    both sides, the odd one on the right. *)
Theorem getPadding_cell_width (w : Writer) (c : nat) (field : gostring)
    (col : column) (total : Z) (left right : gostring) :
  hasFlag w PreserveLongFields = false ->
  columns w !! c = Some col ->
  getPadding w c field = Some (total, left, right) ->
  left = spaces (len left) /\ right = spaces (len right)
  /\ total = len left + len right
  /\ len left + len field + len right = textWidth col + slack w
  /\ (if hasFlag w AlignMiddle then len left <= len right <= len left + 1
      else if hasFlag w AlignRight then right = [] else left = []).
Proof.
  intros Hp Hcol. rewrite (getPadding_padded w c field col Hcol Hp). cbv zeta.
  set (t := textWidth col - len field + slack w).
  destruct (Z.ltb_spec t 0) as [Hneg|Hpos]; [done|].
  assert (Hh : 0 <= Z.quot t 2) by (by apply quot_half_pos).
  assert (Hr : 0 <= t - Z.quot t 2) by (by apply quot_half_rest).
  assert (Hq : t - Z.quot t 2 <= Z.quot t 2 + 1) by divlia.
  assert (Hq' : Z.quot t 2 <= t - Z.quot t 2) by divlia.
  assert (H0 : spaces 0 = []) by done.
  destruct (hasFlag w AlignMiddle), (hasFlag w AlignRight); intros [= <- <- <-];
    rewrite ?len_spaces by lia; change (len (@nil byte)) with 0;
    rewrite ?H0; split_and!; (done || lia).
Qed.

Lemma getPadding_cell_width_witness :
  [SP] = spaces (len [SP]) /\ [SP; SP] = spaces (len [SP; SP])
  /\ 3 = len [SP] + len [SP; SP]
  /\ len [SP] + len (str "ab") + len [SP; SP] = 5 + 0
  /\ len [SP] <= len [SP; SP] <= len [SP] + 1.
Proof.
  apply (getPadding_cell_width
           (writerOf (N.lor AlignMiddle RemoveLeastPad) 80 [] [mkColumn 5])
           0 (str "ab") (mkColumn 5) 3 [SP] [SP; SP]); reflexivity.
Defined.

(** The total [getPadding] returns is the sum of the two paddings; with
    padding it is what the field lacks to the width of the column, and the
    slack. *)
Lemma getPadding_total (w : Writer) (c : nat) (field : gostring)
    (total : Z) (left right : gostring) :
  getPadding w c field = Some (total, left, right) ->
  0 <= total /\ total = len left + len right
  /\ (if hasFlag w PreserveLongFields then total = 0
      else total = from_option textWidth 0 (columns w !! c) - len field + slack w).
Proof.
  destruct (columns w !! c) as [col|] eqn:Hcol.
  2: { unfold getPadding. by rewrite Hcol. }
  destruct (hasFlag w PreserveLongFields) eqn:Hp.
  { unfold getPadding. rewrite Hcol, Hp. simpl. by intros [= <- <- <-]. }
  rewrite (getPadding_padded w c field col Hcol Hp). cbv zeta. simpl.
  set (t := textWidth col - len field + slack w).
  destruct (Z.ltb_spec t 0) as [Hneg|Hpos]; [done|].
  assert (Hh : 0 <= Z.quot t 2) by (by apply quot_half_pos).
  assert (Hr : 0 <= t - Z.quot t 2) by (by apply quot_half_rest).
  destruct (hasFlag w AlignMiddle), (hasFlag w AlignRight); intros [= <- <- <-];
    rewrite ?len_spaces by lia; change (len (@nil byte)) with 0; lia.
Qed.

(** ** The width of rows and divider lines *)

Lemma len_app {A : Type} (s t : list A) : len (s ++ t) = len s + len t.
Proof. unfold len. rewrite length_app. lia. Qed.

Lemma len_Repeat (s r : gostring) (n : Z) :
  Repeat s n = Some r -> 0 <= n /\ len r = len s * n.
Proof.
  unfold Repeat. destruct (Z.ltb_spec n 0) as [|Hn]; [done|]. intros [= <-].
  split; [done|]. unfold len.
  rewrite <- (Z2Nat.id n) at 2 by done.
  induction (Z.to_nat n) as [|k IH]; simpl; [lia|].
  rewrite length_app. lia.
Qed.

Lemma len_leftEdge (d : Dividers) (l : nat) (isLastRow : bool) :
  uniformGlyphs d -> len (leftEdge d l isLastRow) = len (HLine d).
Proof.
  intros (_ & ? & ? & ? & ? & ? & ? & ? & ? & ?). unfold leftEdge.
  by destruct (l =? 0)%nat, isLastRow.
Qed.

Lemma len_junction (d : Dividers) (l : nat) (isLastRow isLastField : bool) :
  uniformGlyphs d -> len (junction d l isLastRow isLastField) = len (HLine d).
Proof.
  intros (_ & ? & ? & ? & ? & ? & ? & ? & ? & ?). unfold junction.
  by destruct (l =? 0)%nat, isLastRow, isLastField.
Qed.

(** One call of [updateHLine] on a line of [k] glyphs: the left glyph when the
    field is the last one, and as many glyphs as the field is wide or as the
    terminal has columns left. *)
Lemma updateHLine_len (w : Writer) (hLine h' : gostring) (hLineLength k : Z)
    (l : nat) (isLastRow isLastField : bool) :
  uniformGlyphs (dividers w) ->
  len hLine = len (HLine (dividers w)) * k ->
  1 <= hLineLength ->
  updateHLine w hLine hLineLength l isLastRow isLastField = Some h' ->
  len h' = len (HLine (dividers w))
           * (k + (if isLastField then 1 else 0)
              + (if termCols w - k >? 0 then Z.min (termCols w - k) hLineLength
                 else 0)).
Proof.
  intros Hu Hk Hn Hrun.
  pose proof Hu as (Hg & _).
  revert Hrun. unfold updateHLine.
  replace (len (HLine (dividers w)) =? 0) with false by lia.
  rewrite Hk, (Z.mul_comm (len (HLine (dividers w))) k), Z.quot_mul by lia.
  set (edged := if isLastField then _ else hLine).
  set (x := if (l =? 0)%nat && negb isLastField then _ else _).
  assert (Hx : x = junction (dividers w) l isLastRow isLastField).
  { unfold x, junction. by destruct (l =? 0)%nat, isLastRow, isLastField. }
  assert (Hedged : len edged
                   = len (HLine (dividers w)) * (k + if isLastField then 1 else 0)).
  { unfold edged. destruct isLastField.
    - assert (He : len (leftEdge (dividers w) l isLastRow ++ hLine)
                   = len (HLine (dividers w)) * (k + 1)).
      { rewrite len_app, len_leftEdge by done. lia. }
      unfold leftEdge in He. by destruct (l =? 0)%nat, isLastRow.
    - lia. }
  clearbody edged x. subst x.
  destruct (termCols w - k >? 0) eqn:Ha.
  - destruct (termCols w - k >=? hLineLength) eqn:Hb.
    + destruct (Repeat _ _) as [run|] eqn:Hrep; simpl; [|done].
      intros [= <-]. apply len_Repeat in Hrep as [_ Hrep].
      rewrite !len_app, Hrep, len_junction, Hedged by done. lia.
    + destruct (Repeat _ _) as [run|] eqn:Hrep; simpl; [|done].
      intros [= <-]. apply len_Repeat in Hrep as [_ Hrep].
      rewrite !len_app, Hrep, len_junction, Hedged by done. lia.
  - intros [= <-]. lia.
Qed.

Lemma foldr_add_snoc (zs : list Z) (x : Z) :
  foldr Z.add 0 (zs ++ [x]) = foldr Z.add 0 zs + x.
Proof. induction zs as [|z zs IH]; simpl; lia. Qed.

Lemma rowWidth_take_S (w : Writer) (row : list gostring) (c : nat) (v : gostring) :
  row !! c = Some v ->
  rowWidth w (take (Datatypes.S c) row) = rowWidth w (take c row) + cellWidth w c v.
Proof.
  intros Hv. unfold rowWidth. rewrite (take_S_r _ _ v Hv), imap_app. simpl.
  rewrite length_take_le by (apply lookup_lt_Some in Hv; lia).
  by rewrite Nat.add_0_r, foldr_add_snoc.
Qed.

Lemma hLineLength_cellWidth (w : Writer) (c : nat) (v : gostring)
    (total : Z) (lp rp : gostring) :
  getPadding w c v = Some (total, lp, rp) ->
  len v + total + 1 = cellWidth w c v /\ 1 <= cellWidth w c v
  /\ len lp + len rp = total.
Proof.
  intros Hpad. apply getPadding_total in Hpad as (Hpos & Hsum & Htot).
  unfold cellWidth. destruct (hasFlag w PreserveLongFields); unfold len in *; lia.
Qed.

(** What the inner loop of [createTable] has built after [c] fields of line
    [l]: the two divider lines have a glyph for every column of the cells so
    far, as long as the terminal has columns left, and their left glyph once
    the last field is through; with strip-colours, the row has the bytes of
    the cells and of the vertical glyphs around them. *)
Lemma createTableField_measure (w : Writer) (cf : list (list gostring)) (l : nat)
    (fields row : list gostring) (fb0 : gostring) (c : nat)
    (fb hLine prefixHLine : gostring) :
  uniformGlyphs (dividers w) ->
  cf !! l = Some row -> length row = length fields -> fields <> [] ->
  (c <= length fields)%nat ->
  forRange (createTableField w cf l fields) c (fb0, [], [])
  = Some (fb, hLine, prefixHLine) ->
  0 <= rowWidth w (take c row)
  /\ len hLine
     = len (HLine (dividers w))
       * (Z.max 0 (Z.min (termCols w) (rowWidth w (take c row)))
          + (if (length fields <=? c)%nat then 1 else 0))
  /\ (if (l =? 0)%nat then len prefixHLine = len hLine else prefixHLine = [])
  /\ (hasFlag w StripColours = true ->
      len fb = len fb0 + (rowWidth w (take c row) - Z.of_nat c)
               + len (VLine (dividers w))
                 * (Z.of_nat c + (if (c =? 0)%nat then 0 else 1))).
Proof.
  intros Hu Hrow Hlen Hne Hc Hrun.
  pose proof Hu as (Hg & _).
  assert (Hn : (0 < length fields)%nat) by (destruct fields; [done|simpl; lia]).
  refine (forRange_invariant
            (fun c st =>
               let '(fb, hLine, prefixHLine) := st in
               0 <= rowWidth w (take c row)
               /\ len hLine
                  = len (HLine (dividers w))
                    * (Z.max 0 (Z.min (termCols w) (rowWidth w (take c row)))
                       + (if (length fields <=? c)%nat then 1 else 0))
               /\ (if (l =? 0)%nat then len prefixHLine = len hLine
                   else prefixHLine = [])
               /\ (hasFlag w StripColours = true ->
                   len fb = len fb0 + (rowWidth w (take c row) - Z.of_nat c)
                            + len (VLine (dividers w))
                              * (Z.of_nat c + (if (c =? 0)%nat then 0 else 1))))
            _ c (fb0, [], []) (fb, hLine, prefixHLine) _ _ Hrun).
  - rewrite take_0. unfold rowWidth. simpl.
    rewrite (proj2 (Nat.leb_gt (length fields) 0) Hn).
    change (len (@nil byte)) with 0.
    split_and!; [lia|lia|by destruct (l =? 0)%nat|intros _; lia].
  - clear Hrun fb hLine prefixHLine.
    intros i [[fb h] p] [[fb' h'] p'] Hi (Hpos & Hh & Hp & Hfb).
    assert (Hin : (i < length fields)%nat) by lia.
    rewrite (proj2 (Nat.leb_gt (length fields) i) Hin) in Hh.
    unfold createTableField.
    destruct (fields !! i) as [field|]; simpl; [|done].
    destruct (lookup_lt_is_Some_2 row i ltac:(lia)) as [v Hv].
    assert (Hget : get2 cf l i = Some v) by (unfold get2; by rewrite Hrow).
    rewrite Hget.
    destruct (if hasFlag w StripColours then Some v else Some field) as [shown|] eqn:Hshown;
      simpl; [|done].
    destruct (getPadding w i v) as [[[total lp] rp]|] eqn:Hpad; simpl; [|done].
    destruct (hLineLength_cellWidth w i v total lp rp Hpad) as (Hcw & Hcw1 & Hsum).
    rewrite Hcw.
    assert (Hlf : (Z.of_nat i =? len fields - 1)
                  = (length fields <=? Datatypes.S i)%nat).
    { unfold len. destruct (length fields <=? Datatypes.S i)%nat eqn:E.
      - apply Nat.leb_le in E. apply Z.eqb_eq. lia.
      - apply Nat.leb_gt in E. apply Z.eqb_neq. lia. }
    rewrite Hlf.
    destruct (if (l =? 0)%nat then _ else Some p) as [p1|] eqn:Hp1; simpl; [|done].
    destruct (updateHLine w h _ (l + 1) _ _) as [h1|] eqn:Hh1; simpl; [|done].
    intros [= <- <- <-].
    rewrite (rowWidth_take_S w row i v Hv).
    set (S0 := rowWidth w (take i row)) in *.
    set (cw := cellWidth w i v) in *.
    set (T := termCols w) in *.
    set (g := len (HLine (dividers w))) in *.
    assert (Hstep : forall line line' l',
               len line = g * (Z.max 0 (Z.min T S0) + 0) ->
               updateHLine w line cw l' (Z.of_nat l =? len (lines w) - 1)
                 (length fields <=? Datatypes.S i)%nat = Some line' ->
               len line'
               = g * (Z.max 0 (Z.min T (S0 + cw))
                      + (if (length fields <=? Datatypes.S i)%nat then 1 else 0))).
    { intros line line' l' Hline Hupd.
      rewrite (updateHLine_len w line line' cw (Z.max 0 (Z.min T S0)) l' _ _ Hu)
        by (done || (rewrite Hline; f_equal; lia)).
      fold g T. f_equal.
      destruct (T - Z.max 0 (Z.min T S0) >? 0) eqn:Ha; lia. }
    split_and!.
    + lia.
    + by apply (Hstep h h1 (l + 1)%nat).
    + destruct (l =? 0)%nat.
      * rewrite (Hstep p p1 l), (Hstep h h1 (l + 1)%nat); (done || congruence).
      * congruence.
    + intros Hstrip. specialize (Hfb Hstrip). rewrite Hstrip in Hshown.
      injection Hshown as <-.
      destruct (i =? 0)%nat eqn:Hi0.
      * apply Nat.eqb_eq in Hi0 as ->. simpl.
        rewrite !len_app, Hfb. unfold len in *. simpl. lia.
      * apply Nat.eqb_neq in Hi0.
        replace (Datatypes.S i =? 0)%nat with false by done.
        rewrite !len_app, Hfb. unfold len in *. lia.
Qed.

Lemma asciiDividers_uniform : uniformGlyphs asciiDividers.
Proof. unfold uniformGlyphs. vm_compute. by split_and!. Qed.

Lemma boxDividers_uniform : uniformGlyphs boxDividers.
Proof. unfold uniformGlyphs. vm_compute. by split_and!. Qed.



(** X13: the bytes of a row.  With the strip-colours flag, the row the inner
    loop of [createTable] appends for a line has one vertical glyph more
    than the line has fields and, between them, cells whose bytes add up to
    the widths of the columns and the slack: all rows of as many fields have
    the same number of bytes (with padding on). *)
Theorem row_width (w : Writer) (colorlessFields : list (list gostring))
    (l : nat) (fields row : list gostring)
    (formattedBuffer0 formattedBuffer hLine prefixHLine : gostring) :
  hasFlag w StripColours = true ->
  uniformGlyphs (dividers w) ->
  colorlessFields !! l = Some row -> length row = length fields -> fields <> [] ->
  forRange (createTableField w colorlessFields l fields) (length fields)
    (formattedBuffer0, [], [])
  = Some (formattedBuffer, hLine, prefixHLine) ->
  len formattedBuffer
  = len formattedBuffer0 + (rowWidth w row - len fields)
    + len (VLine (dividers w)) * (len fields + 1).
Proof.
  intros Hstrip Hu Hrow Hlen Hne Hrun.
  destruct (createTableField_measure w colorlessFields l fields row formattedBuffer0
              (length fields) formattedBuffer hLine prefixHLine)
    as (_ & _ & _ & Hfb); try done.
  rewrite (Hfb Hstrip), take_ge by lia.
  destruct fields as [|f fs]; [done|]. unfold len. simpl. lia.
Qed.

Lemma row_width_witness :
  len (str "|a  |bcd |")
  = len (@nil byte)
    + (rowWidth (writerOf (N.lor StripColours AsciiTable) 80
                   [str "a" ++ [TAB] ++ str "bcd"] [mkColumn 2; mkColumn 3])
         [str "a"; str "bcd"] - len [str "a"; str "bcd"])
    + len (VLine asciiDividers) * (len [str "a"; str "bcd"] + 1).
Proof.
  apply (row_width
           (writerOf (N.lor StripColours AsciiTable) 80
              [str "a" ++ [TAB] ++ str "bcd"] [mkColumn 2; mkColumn 3])
           [[str "a"; str "bcd"]] 0 [str "a"; str "bcd"] [str "a"; str "bcd"]
           [] (str "|a  |bcd |") (str "+---+----+") (str "+---+----+")).
  - reflexivity.
  - apply asciiDividers_uniform.
  - reflexivity.
  - reflexivity.
  - discriminate.
  - vm_compute. reflexivity.
Defined.

(** ** The table, line by line *)

(** The inner loop of [createTable] only appends to the buffer. *)
Lemma createTableField_appends (w : Writer) (cf : list (list gostring)) (l : nat)
    (fields : list gostring) (fb0 fb h p : gostring) (c : nat) :
  createTableField w cf l fields (fb0 ++ fb, h, p) c
  = (fun st : gostring * gostring * gostring =>
       let '(fb', h', p') := st in (fb0 ++ fb', h', p'))
    <$> createTableField w cf l fields (fb, h, p) c.
Proof.
  unfold createTableField.
  destruct (fields !! c) as [field|]; simpl; [|done].
  destruct (if hasFlag w StripColours then get2 cf l c else Some field) as [shown|];
    simpl; [|done].
  destruct (get2 cf l c) as [v|]; simpl; [|done].
  destruct (getPadding w c v) as [[[total lp] rp]|]; simpl; [|done].
  destruct (if (l =? 0)%nat then _ else Some p) as [p1|]; simpl; [|done].
  destruct (updateHLine w h _ _ _ _) as [h1|]; simpl; [|done].
  destruct (c =? 0)%nat; by rewrite <- !app_assoc.
Qed.

Lemma createTable_inner_appends (w : Writer) (cf : list (list gostring)) (l : nat)
    (fields : list gostring) (fb0 : gostring) (n : nat) :
  forRange (createTableField w cf l fields) n (fb0, [], [])
  = (fun st : gostring * gostring * gostring =>
       let '(fb', h', p') := st in (fb0 ++ fb', h', p'))
    <$> forRange (createTableField w cf l fields) n ([], [], []).
Proof.
  induction n as [|n IH].
  - unfold forRange. simpl. by rewrite app_nil_r.
  - rewrite !forRange_S, IH.
    destruct (forRange (createTableField w cf l fields) n ([], [], []))
      as [[[fb h] p]|]; simpl; [|done].
    apply createTableField_appends.
Qed.

(** What the body of the outer loop appends for a line does not depend on
    the buffer it appends to. *)
Lemma createTableLine_appends (w : Writer) (cf : list (list gostring))
    (fb0 : gostring) (l : nat) :
  l <> 0%nat \/ fb0 = [] ->
  createTableLine w cf fb0 l = (fun block => fb0 ++ block) <$> createTableLine w cf [] l.
Proof.
  intros Hl. unfold createTableLine.
  destruct (lines w !! l) as [line|]; simpl; [|done].
  destruct (len line =? 0); simpl; [by rewrite app_nil_r|].
  rewrite createTable_inner_appends.
  destruct (forRange _ _ ([], [], [])) as [[[fb h] p]|]; simpl; [|done].
  destruct Hl as [Hl| ->].
  - apply Nat.eqb_neq in Hl. rewrite Hl. by rewrite <- !app_assoc.
  - done.
Qed.

Lemma createTable_prefix (w : Writer) (cf : list (list gostring)) (k : nat)
    (out : gostring) :
  forRange (createTableLine w cf) k [] = Some out
  <-> exists blocks,
        length blocks = k
        /\ (forall l block, blocks !! l = Some block ->
              createTableLine w cf [] l = Some block)
        /\ out = concat blocks.
Proof.
  revert out. induction k as [|k IH]; intros out.
  - unfold forRange. simpl. split.
    + intros [= <-]. exists []. by split_and!.
    + intros (blocks & Hlen & _ & ->). by destruct blocks.
  - rewrite forRange_S. split.
    + destruct (forRange (createTableLine w cf) k []) as [fb|] eqn:Hk; simpl; [|done].
      intros Hline. destruct (proj1 (IH fb) eq_refl) as (blocks & Hlen & Hblocks & ->).
      rewrite createTableLine_appends in Hline.
      2: { destruct k; [right|left; done]. by destruct blocks. }
      destruct (createTableLine w cf [] k) as [block|] eqn:Hblock; simpl in Hline;
        [|done].
      injection Hline as <-. exists (blocks ++ [block]). split_and!.
      * rewrite length_app. simpl. lia.
      * intros l b Hb. apply lookup_app_Some in Hb as [Hb|[Hge Hb]].
        -- by apply Hblocks.
        -- rewrite Hlen in *. destruct (l - k)%nat as [|j] eqn:E; [|by destruct j].
           injection Hb as <-. by replace l with k by lia.
      * rewrite concat_app. simpl. by rewrite app_nil_r.
    + intros (blocks & Hlen & Hblocks & ->).
      destruct (lookup_lt_is_Some_2 blocks k ltac:(lia)) as [block Hblock].
      assert (Hsplit : blocks = take k blocks ++ [block]).
      { rewrite <- (take_drop k blocks) at 1. f_equal.
        apply list_eq. intros [|j]; simpl.
        - by rewrite lookup_drop, Nat.add_0_r.
        - rewrite lookup_drop. apply lookup_ge_None. lia. }
      rewrite (proj2 (IH (concat (take k blocks)))).
      2: { exists (take k blocks). split_and!; [rewrite length_take; lia| |done].
           intros l b Hb. apply Hblocks.
           rewrite lookup_take_Some in Hb. by destruct Hb. }
      simpl. rewrite createTableLine_appends.
      2: { destruct k; [right; by rewrite take_0|left; done]. }
      rewrite (Hblocks k block Hblock). simpl. f_equal.
      rewrite Hsplit at 2. rewrite concat_app. simpl. by rewrite app_nil_r.
Qed.

(** X14: the table is the concatenation, line after line, of what the body
    of the loop of [createTable] appends for the line to an empty buffer.
    What a line contributes does not depend on what the lines before it
    contributed; a blank line contributes nothing. *)
Theorem createTable_line_by_line (w : Writer) (colorlessFields : list (list gostring))
    (out : gostring) :
  createTable w colorlessFields = Some out
  <-> exists blocks,
        length blocks = length (lines w)
        /\ (forall l block, blocks !! l = Some block ->
              createTableLine w colorlessFields [] l = Some block
              /\ (lines w !! l = Some [] -> block = []))
        /\ out = concat blocks.
Proof.
  unfold createTable. rewrite createTable_prefix.
  split; intros (blocks & Hlen & Hblocks & ->); exists blocks; split_and!;
    try done.
  - intros l block Hb. split; [by apply Hblocks|].
    intros Hline. specialize (Hblocks l block Hb).
    unfold createTableLine in Hblocks. rewrite Hline in Hblocks. simpl in Hblocks.
    by injection Hblocks as <-.
  - intros l block Hb. by apply Hblocks.
Qed.

(** ** The buffer and the table *)

Lemma forRange_fmap {S S' : Type} (f : S -> S') (body : S -> nat -> option S)
    (body' : S' -> nat -> option S') (n : nat) (s : S) :
  (forall t i, body' (f t) i = f <$> body t i) ->
  forRange body' n (f s) = f <$> forRange body n s.
Proof.
  intros Hbody. induction n as [|n IH]; [done|].
  rewrite !forRange_S, IH. destruct (forRange body n s) as [t|]; simpl; [|done].
  apply Hbody.
Qed.

Section Buffer.

Variable ColorOrange ColorReset : gostring.
Variable b : gostring.

Local Abbreviation inBuffer := (rebuffer b).

Lemma truncateLongField_setBuffer (w : Writer) (l c : nat) (m : Z)
    (fields : list gostring) (cf : list (list gostring)) :
  truncateLongField ColorOrange ColorReset (setBuffer w b) l c m fields cf
  = inBuffer <$> truncateLongField ColorOrange ColorReset w l c m fields cf.
Proof.
  unfold truncateLongField.
  change (hasFlag (setBuffer w b) PreserveLongFields) with (hasFlag w PreserveLongFields).
  change (termCols (setBuffer w b)) with (termCols w).
  change (lines (setBuffer w b)) with (lines w).
  destruct (_ && _ && _); [|done].
  destruct (get2 cf l c) as [colorless|]; simpl; [|done].
  destruct (_ >? _); [|done].
  destruct (sliceTo _ _) as [cut|]; simpl; [|done].
  destruct (fields !! c) as [field|]; simpl; [|done].
  destruct (lines w !! l) as [line|]; simpl; [|done].
  by destruct (set2 _ _ _ _).
Qed.

Lemma createColumnsField_setBuffer (l : nat) (m : Z) (fields : list gostring)
    (st : Writer * list (list gostring)) (c : nat) :
  createColumnsField ColorOrange ColorReset l m fields (inBuffer st) c
  = inBuffer <$> createColumnsField ColorOrange ColorReset l m fields st c.
Proof.
  destruct st as [w cf]. unfold rebuffer, createColumnsField. cbn [fst snd].
  destruct (fields !! c) as [field|]; simpl; [|done].
  destruct (set2 cf l c _) as [cf1|]; simpl; [|done].
  rewrite truncateLongField_setBuffer.
  destruct (truncateLongField _ _ w l c m fields cf1) as [[w2 cf2]|]; simpl; [|done].
  destruct (get2 cf2 l c) as [v|]; simpl; [|done].
  change (columns (setBuffer w2 b)) with (columns w2).
  destruct (columns w2 !! c) as [col|]; simpl; [|done].
  by destruct (_ >? _).
Qed.

Lemma createColumnsLine_setBuffer (ranged : list gostring)
    (st : Writer * list (list gostring)) (l : nat) :
  createColumnsLine ColorOrange ColorReset ranged (inBuffer st) l
  = inBuffer <$> createColumnsLine ColorOrange ColorReset ranged st l.
Proof.
  destruct st as [w cf]. unfold rebuffer at 1, createColumnsLine. cbn [fst snd].
  destruct (ranged !! l) as [line|]; simpl; [|done].
  destruct (len line =? 0); [done|].
  change (termCols (setBuffer w b)) with (termCols w).
  change (columns (setBuffer w b)) with (columns w).
  destruct (_ <? _)%nat; [|done].
  destruct (_ >? _).
  - apply (forRange_fmap inBuffer _ _ _
             (setColumns w _, <[l := replicate (length (Split line TAB)) []]> cf)).
    intros t i. apply createColumnsField_setBuffer.
  - apply (forRange_fmap inBuffer _ _ _
             (w, <[l := replicate (length (Split line TAB)) []]> cf)).
    intros t i. apply createColumnsField_setBuffer.
Qed.

Lemma createColumns_setBuffer (w : Writer) :
  createColumns ColorOrange ColorReset (setBuffer w b)
  = inBuffer <$> createColumns ColorOrange ColorReset w.
Proof.
  unfold createColumns. change (lines (setBuffer w b)) with (lines w).
  apply (forRange_fmap inBuffer _ _ _ (w, replicate (length (lines w)) [])).
  intros t i. apply createColumnsLine_setBuffer.
Qed.

Lemma createTable_setBuffer (w : Writer) (cf : list (list gostring)) :
  createTable (setBuffer w b) cf = createTable w cf.
Proof. reflexivity. Qed.

(** [formatBuffer] does not look at the buffer. *)
Lemma formatBuffer_setBuffer (w : Writer) :
  formatBuffer ColorOrange ColorReset (setBuffer w b)
  = (fun r : Writer * gostring => (setBuffer (fst r) b, snd r))
    <$> formatBuffer ColorOrange ColorReset w.
Proof.
  unfold formatBuffer. rewrite createColumns_setBuffer.
  destruct (createColumns ColorOrange ColorReset w) as [[w1 cf]|]; simpl; [|done].
  rewrite createTable_setBuffer. by destruct (createTable w1 cf).
Qed.

End Buffer.

(** ** What [Flush] reads and leaves *)

Lemma Split_snoc_sep (s : gostring) (sep : byte) :
  Split (s ++ [sep]) sep = Split s sep ++ [[]].
Proof.
  induction s as [|x s IH]; simpl.
  - by rewrite byte_eqb_refl.
  - destruct (Byte.eqb x sep); [by rewrite IH|].
    rewrite IH. pose proof (Split_nonempty s sep). by destruct (Split s sep).
Qed.

Lemma flushLines_newline (s : gostring) :
  List.last (Split s NL) [] <> [] -> flushLines (s ++ [NL]) = flushLines s.
Proof.
  intros Hlast. unfold flushLines. rewrite Split_snoc_sep, last_last.
  change (len (@nil byte) =? 0) with true. cbv iota. rewrite removelast_last.
  destruct (List.last (Split s NL) []) as [|x t]; [done|].
  by replace (len (x :: t) =? 0) with false by (unfold len; simpl; lia).
Qed.

Section FlushFacts.

Variable ColorOrange ColorReset : gostring.
Variable unicode_Cf unicode_Cc unicode_Mn unicode_Zs unicode_IsSpace : Z -> bool.

Local Abbreviation clean :=
  (cleanInvisibleChars unicode_Cf unicode_Cc unicode_Mn unicode_Zs unicode_IsSpace).
Local Abbreviation flush :=
  (Flush ColorOrange ColorReset
     unicode_Cf unicode_Cc unicode_Mn unicode_Zs unicode_IsSpace).

Lemma Clear_sameConfig (w w' : Writer) : sameConfig w w' -> Clear w' = Clear w.
Proof. intros (Ho & Hd & Hf & Ht & _). unfold Clear. by rewrite Ho, Hd, Hf, Ht. Qed.

(** The Writer [Flush] leaves is the cleared one. *)
Lemma Flush_Clear (w : Writer) : fst (flush w) = Clear w.
Proof.
  unfold Flush.
  destruct (formatBuffer _ _ _) as [[w2 fb]|] eqn:Hfmt.
  - apply formatBuffer_sameConfig in Hfmt.
    destruct (Write (output w2) fb) as [n err]. simpl.
    rewrite (Clear_sameConfig _ _ Hfmt). done.
  - done.
Qed.

(** [Flush] reads the buffer through the lines of the sanitized text only. *)
Lemma Flush_same_lines (w : Writer) (b : gostring) :
  flushLines (clean b) = flushLines (clean (buffer w)) ->
  flush (setBuffer w b) = flush w.
Proof.
  intros Hlines. unfold Flush. change (buffer (setBuffer w b)) with b.
  fold (flushLines (clean b)). fold (flushLines (clean (buffer w))).
  rewrite Hlines.
  set (ls := flushLines (clean (buffer w))).
  change (setLines (setBuffer w b) ls) with (setBuffer (setLines w ls) b).
  rewrite formatBuffer_setBuffer.
  destruct (formatBuffer ColorOrange ColorReset (setLines w ls)) as [[w2 fb]|];
    simpl; [|done].
  by destruct (Write (output w2) fb).
Qed.

End FlushFacts.

(** X15: a newline at the end of the text is optional.  When the last line
    of the sanitized buffer is not empty, [Flush] after one more write of a
    newline does what [Flush] does without it. *)
Theorem Flush_final_newline_optional (ColorOrange ColorReset : gostring)
    (unicode_Cf unicode_Cc unicode_Mn unicode_Zs unicode_IsSpace : Z -> bool)
    (w : Writer) :
  List.last
    (Split (cleanInvisibleChars unicode_Cf unicode_Cc unicode_Mn unicode_Zs
              unicode_IsSpace (buffer w)) NL) [] <> [] ->
  Flush ColorOrange ColorReset
    unicode_Cf unicode_Cc unicode_Mn unicode_Zs unicode_IsSpace
    (fst (Writer_Write w [NL]))
  = Flush ColorOrange ColorReset
      unicode_Cf unicode_Cc unicode_Mn unicode_Zs unicode_IsSpace w.
Proof.
  intros Hlast. unfold Writer_Write. cbn [fst].
  apply Flush_same_lines.
  rewrite (cleanInvisibleChars_kept _ _ _ _ _ (buffer w) NL []) by done.
  rewrite cleanInvisibleChars_nil. by apply flushLines_newline.
Qed.

Lemma Flush_final_newline_optional_witness :
  sampleFlush (fst (Writer_Write
                      (fst (Writer_Write (NewWriter acceptAll 0 80)
                              (str "a" ++ [TAB] ++ str "b"))) [NL]))
  = sampleFlush (fst (Writer_Write (NewWriter acceptAll 0 80)
                        (str "a" ++ [TAB] ++ str "b"))).
Proof.
  apply (Flush_final_newline_optional sampleOrange sampleReset
           latin1_Cf latin1_Cc latin1_Mn latin1_Zs latin1_IsSpace).
  vm_compute. discriminate.
Defined.

(** X16: the state of a Writer between calls.  After any sequence of
    [Write], [Flush] and [Clear] calls on a new Writer, the Writer is a new
    Writer that holds the bytes written since the last [Flush] or [Clear]:
    no column and no line of an earlier table is left, so every table is
    rendered from its own text only. *)
Theorem Writer_state_after_calls (ColorOrange ColorReset : gostring)
    (unicode_Cf unicode_Cc unicode_Mn unicode_Zs unicode_IsSpace : Z -> bool)
    (out : ioWriter) (fl : N) (cols : Z) (calls : list call) :
  fold_left (doCall ColorOrange ColorReset
               unicode_Cf unicode_Cc unicode_Mn unicode_Zs unicode_IsSpace)
    calls (NewWriter out fl cols)
  = fst (Writer_Write (NewWriter out fl cols) (pendingBytes [] calls)).
Proof.
  assert (Hgen : forall calls w,
             columns w = [] -> lines w = [] ->
             fold_left (doCall ColorOrange ColorReset
                          unicode_Cf unicode_Cc unicode_Mn unicode_Zs unicode_IsSpace)
               calls w
             = setBuffer (Clear w) (pendingBytes (buffer w) calls)).
  { clear calls. induction calls as [|c calls IH]; intros w Hc Hl.
    - simpl. destruct w as [o d f t b cs ls]. simpl in *. by subst.
    - destruct c as [buf| |]; cbn [fold_left doCall pendingBytes].
      + rewrite IH by done. done.
      + rewrite Flush_Clear, IH by done. done.
      + rewrite IH by done. done. }
  rewrite Hgen by done. done.
Qed.

(** X17: a buffer without visible text gives no table.  When every line of
    the buffer is empty once sanitized, [Flush] hands the empty byte string
    to its destination: no border is drawn. *)
Theorem Flush_blank_buffer (ColorOrange ColorReset : gostring)
    (unicode_Cf unicode_Cc unicode_Mn unicode_Zs unicode_IsSpace : Z -> bool)
    (w : Writer) :
  (forall ln, ln ∈ Split (buffer w) NL ->
     cleanInvisibleChars unicode_Cf unicode_Cc unicode_Mn unicode_Zs
       unicode_IsSpace ln = []) ->
  exists err,
    snd (Flush ColorOrange ColorReset
           unicode_Cf unicode_Cc unicode_Mn unicode_Zs unicode_IsSpace w)
    = Returned [] err.
Proof.
  intros Hblank. unfold Flush.
  set (ls := if len (List.last (Split _ NL) []) =? 0 then _ else _).
  assert (Hls : forall ln, ln ∈ ls -> ln = []).
  { intros ln Hin. apply (flushLines_subset _ ln) in Hin.
    rewrite cleanInvisibleChars_Split in Hin by done.
    apply list_elem_of_fmap in Hin as (raw & -> & Hraw). by apply Hblank. }
  assert (Hfmt : exists w2,
             formatBuffer ColorOrange ColorReset (setLines w ls) = Some (w2, [])).
  { unfold formatBuffer.
    destruct (createColumns_total ColorOrange ColorReset (setLines w ls))
      as [[w1 cf] Hcols].
    { intros ln Hin Hne. by specialize (Hls ln Hin). }
    rewrite Hcols. simpl.
    pose proof (createColumns_spec _ _ _ _ _ Hcols) as (_ & _ & _ & Hlen & _ & _ & Hkeep).
    assert (Hempty : forall l line, lines w1 !! l = Some line -> line = []).
    { intros l line Hline.
      assert (Hl : (l < length ls)%nat).
      { apply lookup_lt_Some in Hline. by rewrite Hlen in Hline. }
      destruct (lookup_lt_is_Some_2 ls l Hl) as [line0 Hline0].
      assert (line0 = []) as -> by (apply Hls; by eapply list_elem_of_lookup_2).
      rewrite (Hkeep l [] Hline0 (or_introl eq_refl)) in Hline. congruence. }
    assert (Htable : createTable w1 cf = Some []).
    { unfold createTable. apply createTable_prefix.
      exists (replicate (length (lines w1)) []). split_and!.
      - by rewrite length_replicate.
      - intros l block Hb. apply lookup_replicate in Hb as [-> Hl].
        destruct (lookup_lt_is_Some_2 (lines w1) l Hl) as [line Hline].
        unfold createTableLine. rewrite Hline, (Hempty l line Hline). done.
      - generalize (length (lines w1)). intros k.
        induction k as [|k IH]; [done|]. simpl. exact IH. }
    rewrite Htable. simpl. by eexists. }
  destruct Hfmt as [w2 ->].
  destruct (Write (output w2) []) as [n err]. simpl. by eexists.
Qed.

Lemma Flush_blank_buffer_witness :
  exists err,
    snd (sampleFlush (fst (Writer_Write (NewWriter acceptAll 0 80) [NL; xc2; xa0; NL; NL])))
    = Returned [] err.
Proof.
  apply (Flush_blank_buffer sampleOrange sampleReset
           latin1_Cf latin1_Cc latin1_Mn latin1_Zs latin1_IsSpace).
  intros ln Hin. vm_compute in Hin.
  repeat (apply elem_of_cons in Hin as [->|Hin]; [vm_compute; reflexivity|]).
  by apply elem_of_nil in Hin.
Defined.

(** ** The bytes of the table *)

Lemma Split_Forall (P : byte -> Prop) (s : gostring) (sep : byte) :
  Forall P s -> Forall (Forall P) (Split s sep).
Proof.
  induction 1 as [|x s Hx Hs IH]; simpl; [by repeat constructor|].
  destruct (Byte.eqb x sep); [by constructor|].
  destruct (Split s sep) as [|f fs]; [by repeat constructor|].
  inversion IH; subst. constructor; [by constructor|done].
Qed.

Lemma Repeat_Forall (P : byte -> Prop) (s r : gostring) (n : Z) :
  Forall P s -> Repeat s n = Some r -> Forall P r.
Proof.
  intros Hs. unfold Repeat. destruct (n <? 0); [done|]. intros [= <-].
  induction (Z.to_nat n) as [|k IH]; simpl; [done|]. by apply Forall_app_2.
Qed.

Ltac bytes_ok :=
  repeat first [ assumption | apply List.Forall_nil | apply Forall_app_2
               | apply List.Forall_cons ].

Section Bytes.

Variable P : byte -> Prop.
Hypothesis P_space : P SP.
Hypothesis P_newline : P NL.

Lemma glyphBytes_Forall (d : Dividers) :
  Forall P (glyphBytes d) ->
  Forall P (HLine d) /\ Forall P (VLine d)
  /\ (forall l r, Forall P (leftEdge d l r))
  /\ (forall l r f, Forall P (junction d l r f)).
Proof.
  unfold glyphBytes. rewrite !Forall_app.
  intros (? & ? & ? & ? & ? & ? & ? & ? & ? & ? & ?). split_and!; try done.
  - intros l r. unfold leftEdge. by destruct (l =? 0)%nat, r.
  - intros l r f. unfold junction. by destruct (l =? 0)%nat, r, f.
Qed.

Lemma getPadding_Forall (w : Writer) (c : nat) (v : gostring) (total : Z)
    (lp rp : gostring) :
  getPadding w c v = Some (total, lp, rp) -> Forall P lp /\ Forall P rp.
Proof.
  assert (Hsp : Forall P [SP]) by (by repeat constructor).
  unfold getPadding. destruct (columns w !! c) as [col|]; simpl; [|done].
  destruct (negb (hasFlag w PreserveLongFields));
    [|intros [= <- <- <-]; split; constructor].
  destruct (hasFlag w AlignMiddle), (hasFlag w AlignRight);
    repeat match goal with
      | |- context [Repeat [SP] ?n ≫= _] =>
          let E := fresh "E" in
          destruct (Repeat [SP] n) eqn:E; simpl; [|done]
      end;
    intros [= <- <- <-]; split; try constructor;
    eapply Repeat_Forall; eauto.
Qed.

Lemma updateHLine_Forall (w : Writer) (hLine h' : gostring) (hLineLength : Z)
    (l : nat) (isLastRow isLastField : bool) :
  Forall P (glyphBytes (dividers w)) -> Forall P hLine ->
  updateHLine w hLine hLineLength l isLastRow isLastField = Some h' ->
  Forall P h'.
Proof.
  intros Hd Hh Hrun.
  apply glyphBytes_Forall in Hd as (Hhl & _ & Hleft & Hjunction).
  apply updateHLine_shape in Hrun as (seg & -> & Hseg).
  repeat apply Forall_app_2; try done.
  - destruct isLastField; [apply Hleft|done].
  - destruct Hseg as [->|[k ->]]; [done|].
    apply Forall_app_2; [|apply Hjunction].
    induction k as [|k IH]; simpl; [done|]. by apply Forall_app_2.
Qed.

(** The inner loop of [createTable] writes bytes of the glyphs and of the
    fields, and spaces. *)
Lemma createTable_inner_Forall (w : Writer) (cf : list (list gostring)) (l : nat)
    (fields : list gostring) (n : nat) (fb0 fb h p : gostring) :
  Forall P (glyphBytes (dividers w)) ->
  Forall (Forall P) fields ->
  (forall c v, get2 cf l c = Some v -> Forall P v) ->
  Forall P fb0 ->
  forRange (createTableField w cf l fields) n (fb0, [], []) = Some (fb, h, p) ->
  Forall P fb /\ Forall P h /\ Forall P p.
Proof.
  intros Hd Hfields Hcf Hfb0 Hinner.
  pose proof (glyphBytes_Forall _ Hd) as (_ & Hvl & _).
  apply (forRange_invariant
           (fun _ st => let '(b, h, p) := st in
                        Forall P b /\ Forall P h /\ Forall P p))
    in Hinner.
  - done.
  - split_and!; [done|constructor|constructor].
  - intros c [[b h0] p0] [[b' h'] p'] _ (Hb & Hh & Hp). unfold createTableField.
    destruct (fields !! c) as [field|] eqn:Hfield; simpl; [|done].
    destruct (if hasFlag w StripColours then get2 cf l c else Some field)
      as [shown|] eqn:Hshown; simpl; [|done].
    destruct (get2 cf l c) as [v|] eqn:Hv; simpl; [|done].
    destruct (getPadding w c v) as [[[total lp] rp]|] eqn:Hpad; simpl; [|done].
    destruct (if (l =? 0)%nat then _ else Some p0) as [p2|] eqn:Hp2; simpl; [|done].
    destruct (updateHLine w h0 _ _ _ _) as [h2|] eqn:Hh2; simpl; [|done].
    intros [= <- <- <-].
    apply getPadding_Forall in Hpad as [Hlp Hrp].
    assert (Hs : Forall P shown).
    { destruct (hasFlag w StripColours); injection Hshown as <-.
      - by apply (Hcf c).
      - exact (Forall_lookup_1 _ _ _ _ Hfields Hfield). }
    split_and!.
    + destruct (c =? 0)%nat; bytes_ok.
    + by eapply updateHLine_Forall; [|exact Hh|exact Hh2].
    + destruct (l =? 0)%nat; [|by injection Hp2 as <-].
      by eapply updateHLine_Forall; [|exact Hp|exact Hp2].
Qed.

(** [createTable] writes bytes of the glyphs, of the fields, spaces and
    newlines only. *)
Lemma createTable_Forall (w : Writer) (cf : list (list gostring)) (out : gostring) :
  Forall P (glyphBytes (dividers w)) ->
  Forall (Forall P) (lines w) ->
  (forall l c v, get2 cf l c = Some v -> Forall P v) ->
  createTable w cf = Some out ->
  Forall P out.
Proof.
  intros Hd Hlines Hcf Hrun. unfold createTable in Hrun.
  apply (forRange_invariant (fun _ fb => Forall P fb)) in Hrun; [done|constructor|].
  intros l fb fb' _ Hfb. unfold createTableLine.
  destruct (lines w !! l) as [line|] eqn:Hline; simpl; [|done].
  destruct (len line =? 0); [by intros [= <-]|].
  clear Hrun.
  assert (Hfields : Forall (Forall P) (Split line TAB)).
  { apply Split_Forall. exact (Forall_lookup_1 _ _ _ _ Hlines Hline). }
  destruct (forRange (createTableField w cf l (Split line TAB)) _ _)
    as [[[fb1 h1] p1]|] eqn:Hinner; simpl; [|done].
  intros [= <-].
  apply createTable_inner_Forall in Hinner as (Hb & Hh & Hp); try done.
  - destruct (l =? 0)%nat; bytes_ok.
  - intros c v. apply Hcf.
Qed.

Variable ColorOrange ColorReset : gostring.
Hypothesis P_orange : Forall P ColorOrange.
Hypothesis P_reset : Forall P ColorReset.
Hypothesis P_marker : Forall P (str "[...]").

Lemma truncateLongField_Forall (w w' : Writer) (l c : nat) (m : Z)
    (fields : list gostring) (cf cf' : list (list gostring))
    (field colorless : gostring) :
  Forall (Forall P) (lines w) ->
  fields !! c = Some field -> Forall P field ->
  get2 cf l c = Some colorless -> Forall P colorless ->
  truncateLongField ColorOrange ColorReset w l c m fields cf = Some (w', cf') ->
  Forall (Forall P) (lines w').
Proof.
  intros Hlines Hfield Hf Hget Hcl. unfold truncateLongField.
  destruct (_ && _ && _); [|by intros [= <- <-]].
  rewrite Hget. simpl.
  destruct (_ >? _); [|by intros [= <- <-]].
  destruct (sliceTo colorless (m - 5)) as [cut|] eqn:Hcut; simpl; [|done].
  apply sliceTo_Some in Hcut as [_ ->].
  rewrite Hfield. simpl.
  destruct (lines w !! l) as [line|] eqn:Hline; simpl; [|done].
  destruct (set2 cf l c _) as [cf2|]; simpl; [|done].
  intros [= <- <-]. cbn [lines setLines].
  apply Forall_insert; [done|].
  apply Replace_Forall; [exact (Forall_lookup_1 _ _ _ _ Hlines Hline)|].
  apply Replace_Forall; [done|].
  assert (Hcut : Forall P (take (Z.to_nat (m - 5)) colorless))
    by (by apply Forall_take).
  change (Forall P (take (Z.to_nat (m - 5)) colorless ++ ColorOrange
                      ++ str "[...]" ++ ColorReset)).
  bytes_ok.
Qed.

Lemma createColumnsField_Forall (w w' : Writer) (l c : nat) (m : Z)
    (fields : list gostring) (cf cf' : list (list gostring)) :
  Forall (Forall P) fields -> Forall (Forall P) (lines w) ->
  createColumnsField ColorOrange ColorReset l m fields (w, cf) c = Some (w', cf') ->
  Forall (Forall P) (lines w').
Proof.
  intros Hfields Hlines. unfold createColumnsField.
  destruct (fields !! c) as [field|] eqn:Hfield; simpl; [|done].
  destruct (set2 cf l c (stripColorCodes field)) as [cf1|] eqn:Hset; simpl; [|done].
  apply set2_Some in Hset as (row & Hrow & Hc & ->).
  destruct (truncateLongField _ _ w l c m fields _) as [[w2 cf2]|] eqn:Htr;
    simpl; [|done].
  assert (Hf : Forall P field) by exact (Forall_lookup_1 _ _ _ _ Hfields Hfield).
  apply (truncateLongField_Forall w w2 l c m fields _ cf2 field
           (stripColorCodes field)) in Htr; try done.
  2: { by apply get2_insert. }
  2: { by apply stripColorCodes_Forall. }
  destruct (get2 cf2 l c); simpl; [|done].
  destruct (columns w2 !! c) as [col|]; simpl; [|done].
  by destruct (_ >? _); intros [= <- <-].
Qed.

Lemma createColumnsLine_Forall (ranged : list gostring) (w w' : Writer)
    (cf cf' : list (list gostring)) (l : nat) :
  Forall (Forall P) ranged -> Forall (Forall P) (lines w) ->
  createColumnsLine ColorOrange ColorReset ranged (w, cf) l = Some (w', cf') ->
  Forall (Forall P) (lines w').
Proof.
  intros Hranged Hlines. unfold createColumnsLine.
  destruct (ranged !! l) as [rl|] eqn:Hrl; simpl; [|done].
  destruct (len rl =? 0); [by intros [= <- <-]|].
  destruct (_ <? _)%nat; [|done].
  set (w0 := if len (Split rl TAB) >? len (columns w) then _ else w).
  assert (Hw0 : lines w0 = lines w) by (unfold w0; by destruct (_ >? _)).
  intros Hrun.
  apply (forRange_invariant (fun _ st => Forall (Forall P) (lines (fst st)))) in Hrun.
  - exact Hrun.
  - simpl. by rewrite Hw0.
  - intros c [w1 cf1] [w2 cf2] _ Hinv Hstep. simpl in *.
    refine (createColumnsField_Forall w1 w2 l c _ _ cf1 cf2 _ Hinv Hstep).
    apply Split_Forall. exact (Forall_lookup_1 _ _ _ _ Hranged Hrl).
Qed.

Lemma finalColorless_Forall (w : Writer) (n c : nat) (m : Z) (cl : gostring) :
  Forall P cl -> Forall P (finalColorless w n c m cl).
Proof.
  intros Hcl. unfold finalColorless. destruct (truncates w n c m cl); [|done].
  apply Forall_app_2; [by apply Forall_take|done].
Qed.

(** After [createColumns] the stored lines and the colourless fields are
    made of bytes of the lines, of the two colour sequences and of the
    marker. *)
Lemma createColumns_Forall (w w' : Writer) (cf : list (list gostring)) :
  Forall (Forall P) (lines w) ->
  createColumns ColorOrange ColorReset w = Some (w', cf) ->
  Forall (Forall P) (lines w')
  /\ forall l c v, get2 cf l c = Some v -> Forall P v.
Proof.
  intros Hlines Hrun. split.
  - unfold createColumns in Hrun.
    apply (forRange_invariant (fun _ st => Forall (Forall P) (lines (fst st))))
      in Hrun; [done|done|].
    intros l [w1 cf1] [w2 cf2] _ Hinv Hstep. simpl in *.
    by apply (createColumnsLine_Forall (lines w) w1 w2 cf1 cf2 l).
  - intros l c v Hv.
    apply createColumns_spec in Hrun as (-> & _).
    unfold get2 in Hv. rewrite list_lookup_fmap in Hv.
    destruct (lines w !! l) as [line|] eqn:Hline; [|done].
    change (colorlessRow w line !! c = Some v) in Hv.
    destruct (decide (line = [])) as [->|Hne]; [done|].
    assert (Hrow : colorlessRow w line = finalRow w (Split line TAB))
      by (by destruct line).
    rewrite Hrow in Hv.
    destruct (Split line TAB !! c) as [field|] eqn:Hfield.
    2: { apply lookup_lt_Some in Hv. rewrite finalRow_length in Hv.
         apply lookup_ge_None in Hfield. lia. }
    rewrite (finalRow_lookup w _ c field Hfield) in Hv.
    injection Hv as <-. apply finalColorless_Forall, stripColorCodes_Forall.
    assert (Hsp : Forall (Forall P) (Split line TAB)).
    { apply Split_Forall. exact (Forall_lookup_1 _ _ _ _ Hlines Hline). }
    exact (Forall_lookup_1 _ _ _ _ Hsp Hfield).
Qed.

Lemma formatBuffer_Forall (w w' : Writer) (out : gostring) :
  Forall P (glyphBytes (dividers w)) ->
  Forall (Forall P) (lines w) ->
  formatBuffer ColorOrange ColorReset w = Some (w', out) ->
  Forall P out.
Proof.
  intros Hd Hlines. unfold formatBuffer.
  destruct (createColumns ColorOrange ColorReset w) as [[w1 cf]|] eqn:Hcols;
    simpl; [|done].
  destruct (createTable w1 cf) as [fb|] eqn:Htable; simpl; [|done].
  intros [= <- <-].
  pose proof (createColumns_spec _ _ _ _ _ Hcols) as (_ & Hcfg & _).
  destruct (createColumns_Forall w w1 cf Hlines Hcols) as [Hlines1 Hcf].
  apply (createTable_Forall w1 cf fb); try done.
  destruct Hcfg as (_ & -> & _). done.
Qed.

(** What [Flush] hands to its destination is made of bytes of the sanitized
    buffer, of the glyphs, of the two colour sequences and of the marker, of
    spaces and of newlines. *)
Lemma Flush_Forall
    (unicode_Cf unicode_Cc unicode_Mn unicode_Zs unicode_IsSpace : Z -> bool)
    (w : Writer) (out : gostring) (err : bool) :
  Forall P (glyphBytes (dividers w)) ->
  Forall P (cleanInvisibleChars unicode_Cf unicode_Cc unicode_Mn unicode_Zs
              unicode_IsSpace (buffer w)) ->
  snd (Flush ColorOrange ColorReset
         unicode_Cf unicode_Cc unicode_Mn unicode_Zs unicode_IsSpace w)
  = Returned out err ->
  Forall P out.
Proof.
  intros Hd Hbuf. unfold Flush.
  set (ls := if len (List.last (Split _ NL) []) =? 0 then _ else _).
  destruct (formatBuffer ColorOrange ColorReset (setLines w ls))
    as [[w2 fb]|] eqn:Hfmt; [|done].
  destruct (Write (output w2) fb) as [n e]. simpl. intros [= <- _].
  apply (formatBuffer_Forall (setLines w ls) w2 fb); try done.
  simpl. apply List.Forall_forall. intros ln Hin.
  apply list_elem_of_In in Hin. apply (flushLines_subset _ ln) in Hin.
  pose proof (Split_Forall P _ NL Hbuf) as Hall.
  rewrite List.Forall_forall in Hall. apply Hall. by apply list_elem_of_In.
Qed.

End Bytes.

(** X18: [Flush] invents no bytes.  Every byte it hands to its destination
    is a byte of the sanitized buffer, of a glyph of the Writer, of one of the
    two colour sequences, of the marker [[...]], a space or a newline. *)
Theorem Flush_invents_no_bytes (ColorOrange ColorReset : gostring)
    (unicode_Cf unicode_Cc unicode_Mn unicode_Zs unicode_IsSpace : Z -> bool)
    (w : Writer) (out : gostring) (err : bool) :
  snd (Flush ColorOrange ColorReset
         unicode_Cf unicode_Cc unicode_Mn unicode_Zs unicode_IsSpace w)
  = Returned out err ->
  Forall (fun x =>
            In x (cleanInvisibleChars unicode_Cf unicode_Cc unicode_Mn unicode_Zs
                    unicode_IsSpace (buffer w))
            \/ In x (glyphBytes (dividers w))
            \/ In x (ColorOrange ++ ColorReset)
            \/ In x (SP :: NL :: str "[...]")) out.
Proof.
  apply Flush_Forall.
  - right; right; right. by left.
  - right; right; right. right. by left.
  - apply List.Forall_forall. intros x Hx. right; right; left.
    apply in_or_app. by left.
  - apply List.Forall_forall. intros x Hx. right; right; left.
    apply in_or_app. by right.
  - apply List.Forall_forall. intros x Hx. right; right; right. by do 2 right.
  - apply List.Forall_forall. intros x Hx. right; by left.
  - apply List.Forall_forall. intros x Hx. by left.
Qed.

Lemma Flush_invents_no_bytes_witness :
  Forall (fun x =>
            In x (str "ab" ++ [TAB] ++ str "c" ++ [NL])
            \/ In x (glyphBytes asciiDividers)
            \/ In x (sampleOrange ++ sampleReset)
            \/ In x (SP :: NL :: str "[...]"))
    (str "+---+--+" ++ [NL] ++ str "|ab |c |" ++ [NL] ++ str "+---+--+" ++ [NL]).
Proof.
  apply (Flush_invents_no_bytes sampleOrange sampleReset
           latin1_Cf latin1_Cc latin1_Mn latin1_Zs latin1_IsSpace
           (fst (Writer_Write (NewWriter acceptAll AsciiTable 80)
                   (str "ab" ++ [TAB] ++ str "c" ++ [NL])))
           _ false).
  vm_compute. reflexivity.
Defined.

Lemma NewWriter_ascii_dividers (out : ioWriter) (fl : N) (cols : Z) :
  N.land fl AsciiTable <> 0%N -> dividers (NewWriter out fl cols) = asciiDividers.
Proof.
  intros Hfl. unfold NewWriter, init. cbn [Clear dividers].
  by destruct (N.eqb_spec (N.land fl AsciiTable) 0).
Qed.

(** X19: with the ASCII flag, ASCII text gives an ASCII table.  A Writer
    made by [NewWriter] with [AsciiTable] set, to which ASCII bytes are
    written, hands nothing but ASCII bytes to its destination (the two colour
    sequences being ASCII). *)
Theorem AsciiTable_output_is_ascii (ColorOrange ColorReset : gostring)
    (unicode_Cf unicode_Cc unicode_Mn unicode_Zs unicode_IsSpace : Z -> bool)
    (out : ioWriter) (fl : N) (cols : Z) (buf written : gostring) (err : bool) :
  N.land fl AsciiTable <> 0%N ->
  Forall (fun x => byteVal x < 0x80) ColorOrange ->
  Forall (fun x => byteVal x < 0x80) ColorReset ->
  Forall (fun x => byteVal x < 0x80) buf ->
  snd (Flush ColorOrange ColorReset
         unicode_Cf unicode_Cc unicode_Mn unicode_Zs unicode_IsSpace
         (fst (Writer_Write (NewWriter out fl cols) buf)))
  = Returned written err ->
  Forall (fun x => byteVal x < 0x80) written.
Proof.
  intros Hfl Ho Hr Hbuf.
  apply (Flush_Forall (fun x => byteVal x < 0x80)); try done.
  - vm_compute. by repeat constructor.
  - change (dividers (fst (Writer_Write (NewWriter out fl cols) buf)))
      with (dividers (NewWriter out fl cols)).
    rewrite NewWriter_ascii_dividers by done.
    vm_compute. by repeat constructor.
  - change (buffer (fst (Writer_Write (NewWriter out fl cols) buf))) with buf.
    by apply cleanInvisibleChars_ascii_Forall.
Qed.

Lemma AsciiTable_output_is_ascii_witness :
  Forall (fun x => byteVal x < 0x80)
    (str "+-----+----+" ++ [NL] ++ str "|Name |Age |" ++ [NL]
       ++ str "+-----+----+" ++ [NL]).
Proof.
  apply (AsciiTable_output_is_ascii sampleOrange sampleReset
           latin1_Cf latin1_Cc latin1_Mn latin1_Zs latin1_IsSpace
           acceptAll AsciiTable 80 (str "Name" ++ [TAB] ++ str "Age" ++ [NL]) _ false).
  - discriminate.
  - vm_compute. by repeat constructor.
  - vm_compute. by repeat constructor.
  - vm_compute. by repeat constructor.
  - vm_compute. reflexivity.
Defined.

(** ** The lines of the table *)

Lemma newlines_app (s t : gostring) : newlines (s ++ t) = (newlines s + newlines t)%nat.
Proof. unfold newlines. by rewrite List.filter_app, length_app. Qed.

Lemma newlines_free (s : gostring) : Forall (fun b => b <> NL) s -> newlines s = 0%nat.
Proof.
  unfold newlines. induction 1 as [|b s Hb _ IH]; [done|]. simpl.
  by rewrite (byte_eqb_ne b NL Hb).
Qed.

Lemma newlines_concat (blocks : list gostring) :
  newlines (concat blocks) = sum_list (map newlines blocks).
Proof.
  induction blocks as [|b blocks IH]; [done|]. simpl.
  by rewrite newlines_app, IH.
Qed.

(** What the body of the loop of [createTable] appends for a line has the
    newlines that end the row and the divider lines, and no other. *)
Lemma createTableLine_newlines (w : Writer) (cf : list (list gostring)) (l : nat)
    (line block : gostring) :
  Forall (fun b => b <> NL) (glyphBytes (dividers w)) ->
  Forall (fun b => b <> NL) line ->
  (forall c v, get2 cf l c = Some v -> Forall (fun b => b <> NL) v) ->
  lines w !! l = Some line ->
  createTableLine w cf [] l = Some block ->
  newlines block = outputLines l line.
Proof.
  intros Hd Hline Hcf Hl. unfold createTableLine, outputLines. rewrite Hl. simpl.
  destruct (len line =? 0); [by intros [= <-]|].
  destruct (forRange (createTableField w cf l (Split line TAB)) _ _)
    as [[[fb h] p]|] eqn:Hinner; simpl; [|done].
  intros [= <-].
  apply (createTable_inner_Forall (fun b => b <> NL)) in Hinner
    as (Hfb & Hh & Hp); try done.
  2: { by apply Split_Forall. }
  assert (H1 : forall t, newlines (NL :: t) = Datatypes.S (newlines t)) by done.
  destruct (l =? 0)%nat;
    rewrite ?newlines_app, ?H1, ?newlines_app, ?H1, ?newlines_free by done;
    simpl; lia.
Qed.

Lemma createTable_newlines (w : Writer) (cf : list (list gostring)) (out : gostring) :
  Forall (fun b => b <> NL) (glyphBytes (dividers w)) ->
  Forall (Forall (fun b => b <> NL)) (lines w) ->
  (forall l c v, get2 cf l c = Some v -> Forall (fun b => b <> NL) v) ->
  createTable w cf = Some out ->
  newlines out = sum_list (imap outputLines (lines w)).
Proof.
  intros Hd Hlines Hcf Hrun. unfold createTable in Hrun.
  apply createTable_prefix in Hrun as (blocks & Hlen & Hblocks & ->).
  rewrite newlines_concat. f_equal. apply list_eq. intros l.
  rewrite list_lookup_fmap, list_lookup_imap.
  destruct (blocks !! l) as [block|] eqn:Hb; simpl.
  - destruct (lookup_lt_is_Some_2 (lines w) l) as [line Hline].
    { rewrite <- Hlen. by eapply lookup_lt_Some. }
    rewrite Hline. simpl. f_equal.
    apply (createTableLine_newlines w cf l line block); try done.
    + exact (Forall_lookup_1 _ _ _ _ Hlines Hline).
    + intros c v. apply Hcf.
    + by apply Hblocks.
  - apply lookup_ge_None in Hb. rewrite Hlen in Hb.
    by rewrite (lookup_ge_None_2 (lines w) l).
Qed.

Lemma Split_sep_free_pieces (s : gostring) (sep : byte) :
  Forall (Forall (fun b => b <> sep)) (Split s sep).
Proof.
  induction s as [|x s IH]; simpl; [by repeat constructor|].
  destruct (Byte.eqb x sep) eqn:E; [by constructor|].
  destruct (Split s sep) as [|f fs]; [|inversion IH; subst].
  - repeat constructor. intros ->. by rewrite byte_eqb_refl in E.
  - constructor; [|done]. constructor; [|done].
    intros ->. by rewrite byte_eqb_refl in E.
Qed.

(** X20: the lines of the table.  What [Flush] hands to its destination has
    two lines for every line of the sanitized buffer that is not blank, the
    row and the divider line below it, and one more, the top border, when the
    first line is not blank; a blank line gives nothing.  (The glyphs and
    the two colour sequences hold no newline, the colour sequences no tab.) *)
Theorem Flush_table_lines (ColorOrange ColorReset : gostring)
    (unicode_Cf unicode_Cc unicode_Mn unicode_Zs unicode_IsSpace : Z -> bool)
    (w : Writer) (out : gostring) (err : bool) :
  tabFree ColorOrange -> tabFree ColorReset ->
  Forall (fun b => b <> NL) (ColorOrange ++ ColorReset) ->
  Forall (fun b => b <> NL) (glyphBytes (dividers w)) ->
  snd (Flush ColorOrange ColorReset
         unicode_Cf unicode_Cc unicode_Mn unicode_Zs unicode_IsSpace w)
  = Returned out err ->
  newlines out
  = sum_list
      (imap outputLines
         (flushLines (cleanInvisibleChars unicode_Cf unicode_Cc unicode_Mn
                        unicode_Zs unicode_IsSpace (buffer w)))).
Proof.
  intros Hto Htr Hpal Hd. apply Forall_app in Hpal as [Hpo Hpr]. unfold Flush.
  set (ls := if len (List.last (Split _ NL) []) =? 0 then _ else _).
  change (flushLines _) with ls.
  assert (Hls : Forall (Forall (fun b => b <> NL)) ls).
  { apply List.Forall_forall. intros ln Hin.
    apply list_elem_of_In, (flushLines_subset _ ln) in Hin.
    pose proof (Split_sep_free_pieces
                  (cleanInvisibleChars unicode_Cf unicode_Cc unicode_Mn unicode_Zs
                     unicode_IsSpace (buffer w)) NL) as Hall.
    rewrite List.Forall_forall in Hall. apply Hall. by apply list_elem_of_In. }
  unfold formatBuffer.
  destruct (createColumns ColorOrange ColorReset (setLines w ls)) as [[w1 cf]|] eqn:Hcols;
    simpl; [|done].
  destruct (createTable w1 cf) as [fb|] eqn:Htable; simpl; [|done].
  destruct (Write (output w1) fb) as [n e]. simpl. intros [= <- _].
  pose proof (createColumns_spec _ _ _ _ _ Hcols) as (_ & Hcfg & _ & Hlen & _).
  destruct (createColumns_Forall (fun b => b <> NL) ColorOrange ColorReset Hpo Hpr
              ltac:(vm_compute; by repeat constructor) (setLines w ls) w1 cf Hls Hcols)
    as [Hlines1 Hcf].
  rewrite (createTable_newlines w1 cf fb); try done.
  2: { destruct Hcfg as (_ & -> & _). done. }
  f_equal. apply list_eq. intros l. rewrite !list_lookup_imap.
  destruct (ls !! l) as [line|] eqn:Hline; simpl.
  - destruct (createColumns_shape ColorOrange ColorReset Hto Htr (setLines w ls) w1 cf
                l line Hcols Hline) as (line1 & -> & Hempty & Hshape). simpl.
    f_equal. unfold outputLines.
    destruct (decide (line = [])) as [->|Hne].
    + by rewrite (Hempty eq_refl).
    + destruct (Hshape Hne) as [Hne1 _].
      destruct line, line1; done.
  - apply lookup_ge_None in Hline.
    rewrite (lookup_ge_None_2 (lines w1) l); [done|]. rewrite Hlen. done.
Qed.

Lemma Flush_table_lines_witness :
  newlines (str "┌──┐" ++ [NL] ++ str "│a │" ++ [NL] ++ str "├──┤" ++ [NL]
              ++ str "│b │" ++ [NL] ++ str "└──┘" ++ [NL])
  = sum_list (imap outputLines [str "a"; []; str "b"]).
Proof.
  apply (Flush_table_lines sampleOrange sampleReset
           latin1_Cf latin1_Cc latin1_Mn latin1_Zs latin1_IsSpace
           (fst (Writer_Write (NewWriter acceptAll 0 80)
                   (str "a" ++ [NL; NL] ++ str "b" ++ [NL])))
           _ false).
  - unfold tabFree. vm_compute. by repeat constructor.
  - unfold tabFree. vm_compute. by repeat constructor.
  - vm_compute. by repeat constructor.
  - vm_compute. by repeat constructor.
  - vm_compute. reflexivity.
Defined.

(** ** The budget of the last field *)

Lemma len_take_short {A : Type} (s : list A) (n : Z) :
  0 <= n <= len s -> len (take (Z.to_nat n) s) = n.
Proof. intros Hn. unfold len in *. rewrite length_take. lia. Qed.

(** The final colourless text of a last field is within the budget, when
    truncation is on and the cut is in range. *)
Lemma finalColorless_within_budget (w : Writer) (n : nat) (m : Z) (cl : gostring) :
  hasFlag w PreserveLongFields = false -> 0 < termCols w -> (0 < n)%nat ->
  (truncates w n (n - 1) m cl = true -> 5 <= m) ->
  len (finalColorless w n (n - 1) m cl) <= m.
Proof.
  intros Hp Ht Hn Hcut. unfold finalColorless.
  destruct (truncates w n (n - 1) m cl) eqn:Htr.
  - specialize (Hcut eq_refl). unfold truncates in Htr.
    apply andb_prop in Htr as [_ Hlong]. apply Z.gtb_lt in Hlong.
    rewrite len_app, len_take_short by lia.
    change (len (str "[...]")) with 5. lia.
  - unfold truncates in Htr. rewrite Hp, !Z.gtb_ltb in Htr. simpl in Htr.
    rewrite (proj2 (Z.ltb_lt 0 (termCols w)) Ht) in Htr.
    rewrite (proj2 (Z.eqb_eq (Z.of_nat (n - 1)) (Z.of_nat n - 1))) in Htr by lia.
    simpl in Htr. apply Z.ltb_ge in Htr. exact Htr.
Qed.

(** X21: the last field keeps to its budget.  With truncation on (no
    preserve-long-fields flag, a terminal width above 0), whenever
    [createColumns] returns the colourless last field of every line that is
    not empty has at most [termCols / fieldCount - 3] bytes. *)
Theorem createColumns_last_field_within_budget (ColorOrange ColorReset : gostring)
    (w w' : Writer) (colorlessFields : list (list gostring))
    (l : nat) (line : gostring) :
  hasFlag w PreserveLongFields = false -> 0 < termCols w ->
  createColumns ColorOrange ColorReset w = Some (w', colorlessFields) ->
  lines w !! l = Some line -> line <> [] ->
  exists row last,
    colorlessFields !! l = Some row
    /\ length row = length (Split line TAB)
    /\ row !! (length row - 1)%nat = Some last
    /\ len last <= Z.quot (termCols w) (len (Split line TAB)) - 3.
Proof.
  intros Hp Ht Hrun Hline Hne.
  pose proof (createColumns_spec _ _ _ _ _ Hrun) as (-> & _ & _ & _ & _ & Hcuts & _).
  set (fields := Split line TAB).
  assert (Hn : (0 < length fields)%nat).
  { pose proof (Split_nonempty line TAB). unfold fields.
    destruct (Split line TAB); [done|simpl; lia]. }
  destruct (lookup_lt_is_Some_2 fields (length fields - 1)%nat ltac:(lia))
    as [field Hfield].
  exists (finalRow w fields),
    (finalColorless w (length fields) (length fields - 1) (maxFieldLenOf w fields)
       (stripColorCodes field)).
  split_and!.
  - rewrite list_lookup_fmap, Hline. simpl. by destruct line.
  - apply finalRow_length.
  - rewrite finalRow_length. by apply finalRow_lookup.
  - apply finalColorless_within_budget; try done.
    apply (Hcuts line); [by eapply list_elem_of_lookup_2|done|done].
Qed.

Lemma createColumns_last_field_within_budget_witness :
  exists row last,
    [[str "k"; str "012345678[...]"]] !! 0%nat = Some row
    /\ length row = length (Split (str "k" ++ [TAB] ++ str "0123456789abcdefghij") TAB)
    /\ row !! (length row - 1)%nat = Some last
    /\ len last
       <= Z.quot (termCols (writerOf 0 34 [str "k" ++ [TAB] ++ str "0123456789abcdefghij"] []))
            (len (Split (str "k" ++ [TAB] ++ str "0123456789abcdefghij") TAB)) - 3.
Proof.
  apply (createColumns_last_field_within_budget sampleOrange sampleReset
           (writerOf 0 34 [str "k" ++ [TAB] ++ str "0123456789abcdefghij"] [])
           (setLines
              (writerOf 0 34 [] [mkColumn 1; mkColumn 14])
              [str "k" ++ [TAB] ++ str "012345678" ++ sampleOrange ++ str "[...]"
                 ++ sampleReset])
           _ 0 (str "k" ++ [TAB] ++ str "0123456789abcdefghij")).
  - reflexivity.
  - reflexivity.
  - vm_compute. reflexivity.
  - reflexivity.
  - discriminate.
Defined.

(** ** The content of rows and divider lines *)

(** What one turn of the inner loop of [createTable] appends to the buffer. *)
Lemma createTableField_cell (w : Writer) (cf : list (list gostring)) (l : nat)
    (fields : list gostring) (fb h p fb' h' p' : gostring) (c : nat) :
  createTableField w cf l fields (fb, h, p) c = Some (fb', h', p') ->
  exists field colorless total lp rp,
    fields !! c = Some field /\ get2 cf l c = Some colorless
    /\ getPadding w c colorless = Some (total, lp, rp)
    /\ fb' = fb ++ (if (c =? 0)%nat then VLine (dividers w) else [])
             ++ lp ++ (if hasFlag w StripColours then colorless else field)
             ++ rp ++ VLine (dividers w).
Proof.
  unfold createTableField.
  destruct (fields !! c) as [field|]; simpl; [|done].
  destruct (get2 cf l c) as [v|] eqn:Hget; simpl.
  2: { by destruct (hasFlag w StripColours). }
  destruct (if hasFlag w StripColours then Some v else Some field) as [shown|] eqn:Hshown;
    simpl; [|done].
  destruct (getPadding w c v) as [[[total lp] rp]|] eqn:Hpad; simpl; [|done].
  destruct (if (l =? 0)%nat then _ else Some p) as [p1|]; simpl; [|done].
  destruct (updateHLine w h _ _ _ _) as [h1|]; simpl; [|done].
  intros [= <- <- <-]. exists field, v, total, lp, rp. split_and!; try done.
  assert (shown = if hasFlag w StripColours then v else field) as ->.
  { destruct (hasFlag w StripColours); congruence. }
  destruct (c =? 0)%nat; by rewrite <- ?app_assoc.
Qed.

(** The buffer after [c] turns of the inner loop: the vertical glyph and the
    cells of the fields so far, each closed by the vertical glyph. *)
Lemma createTable_inner_cells (w : Writer) (cf : list (list gostring)) (l : nat)
    (fields : list gostring) (fb0 : gostring) (c : nat)
    (fb hLine prefixHLine : gostring) :
  forRange (createTableField w cf l fields) c (fb0, [], [])
  = Some (fb, hLine, prefixHLine) ->
  exists cells,
    length cells = c
    /\ fb = fb0 ++ (if (c =? 0)%nat then [] else VLine (dividers w)) ++ concat cells
    /\ forall i field, fields !! i = Some field -> (i < c)%nat ->
         exists colorless total lp rp,
           get2 cf l i = Some colorless
           /\ getPadding w i colorless = Some (total, lp, rp)
           /\ cells !! i
              = Some (lp ++ (if hasFlag w StripColours then colorless else field)
                        ++ rp ++ VLine (dividers w)).
Proof.
  intros Hrun.
  refine (forRange_invariant
            (fun c st =>
               let '(fb, _, _) := st in
               exists cells,
                 length cells = c
                 /\ fb = fb0 ++ (if (c =? 0)%nat then [] else VLine (dividers w))
                           ++ concat cells
                 /\ forall i field, fields !! i = Some field -> (i < c)%nat ->
                      exists colorless total lp rp,
                        get2 cf l i = Some colorless
                        /\ getPadding w i colorless = Some (total, lp, rp)
                        /\ cells !! i
                           = Some (lp ++ (if hasFlag w StripColours then colorless
                                          else field)
                                     ++ rp ++ VLine (dividers w)))
            _ c (fb0, [], []) (fb, hLine, prefixHLine) _ _ Hrun).
  - exists []. split_and!; [done|by rewrite app_nil_r|]. intros i field _ Hi. lia.
  - clear Hrun fb hLine prefixHLine.
    intros i [[fb h] p] [[fb' h'] p'] Hi (cells & Hlen & -> & Hcells) Hstep.
    apply createTableField_cell in Hstep
      as (field & v & total & lp & rp & Hfield & Hget & Hpad & ->).
    exists (cells ++ [lp ++ (if hasFlag w StripColours then v else field)
                        ++ rp ++ VLine (dividers w)]).
    split_and!.
    + rewrite length_app. simpl. lia.
    + rewrite concat_app. simpl. rewrite app_nil_r.
      destruct (i =? 0)%nat eqn:Hi0.
      * apply Nat.eqb_eq in Hi0. subst i. destruct cells; [|done]. simpl.
        by rewrite <- !app_assoc.
      * simpl. by rewrite <- !app_assoc.
    + intros j fj Hfj Hj. destruct (decide (j = i)) as [->|Hne].
      * assert (fj = field) as -> by congruence.
        exists v, total, lp, rp. split_and!; try done.
        rewrite lookup_app_r by lia. by rewrite Hlen, Nat.sub_diag.
      * destruct (Hcells j fj Hfj ltac:(lia)) as (v' & t' & lp' & rp' & ? & ? & Hc).
        exists v', t', lp', rp'. split_and!; try done.
        by rewrite lookup_app_l by lia.
Qed.

(** X22: the content of a row.  When the inner loop of [createTable] is
    through with the fields of a line, it has appended to the buffer the
    vertical glyph and then, for each field in order, the left padding, the
    field (its colourless text with strip-colours), the right padding and
    the vertical glyph, with the paddings [getPadding] computes for the
    colourless text of the field: every field is in the row byte for byte,
    spaces and vertical glyphs apart nothing is added. *)
Theorem createTable_row_content (w : Writer) (colorlessFields : list (list gostring))
    (l : nat) (fields : list gostring)
    (formattedBuffer0 formattedBuffer hLine prefixHLine : gostring) :
  fields <> [] ->
  forRange (createTableField w colorlessFields l fields) (length fields)
    (formattedBuffer0, [], [])
  = Some (formattedBuffer, hLine, prefixHLine) ->
  exists cells,
    length cells = length fields
    /\ formattedBuffer = formattedBuffer0 ++ VLine (dividers w) ++ concat cells
    /\ forall c field, fields !! c = Some field ->
         exists colorless total lp rp,
           get2 colorlessFields l c = Some colorless
           /\ getPadding w c colorless = Some (total, lp, rp)
           /\ cells !! c
              = Some (lp ++ (if hasFlag w StripColours then colorless else field)
                        ++ rp ++ VLine (dividers w)).
Proof.
  intros Hne Hrun.
  apply createTable_inner_cells in Hrun as (cells & Hlen & Hfb & Hcells).
  exists cells. split_and!; [done| |].
  - rewrite Hfb. by destruct fields.
  - intros c field Hfield. apply (Hcells c field Hfield).
    by apply lookup_lt_Some in Hfield.
Qed.

Lemma createTable_row_content_witness :
  exists cells,
    length cells = length [str "a"; ESC :: str "[1mbc"]
    /\ str "|a  |" ++ ESC :: str "[1mbc |"
       = [] ++ VLine (dividers (writerOf AsciiTable 80 [] [mkColumn 2; mkColumn 2]))
            ++ concat cells
    /\ forall c field, [str "a"; ESC :: str "[1mbc"] !! c = Some field ->
         exists colorless total lp rp,
           get2 [[str "a"; str "bc"]] 0 c = Some colorless
           /\ getPadding (writerOf AsciiTable 80 [] [mkColumn 2; mkColumn 2]) c colorless
              = Some (total, lp, rp)
           /\ cells !! c
              = Some (lp ++ (if hasFlag (writerOf AsciiTable 80 [] [mkColumn 2; mkColumn 2])
                                  StripColours
                             then colorless else field)
                        ++ rp
                        ++ VLine (dividers (writerOf AsciiTable 80 [] [mkColumn 2; mkColumn 2]))).
Proof.
  apply (createTable_row_content
           (writerOf AsciiTable 80 [] [mkColumn 2; mkColumn 2])
           [[str "a"; str "bc"]] 0 [str "a"; ESC :: str "[1mbc"]
           [] (str "|a  |" ++ ESC :: str "[1mbc |") (str "+---+---+") (str "+---+---+")).
  - discriminate.
  - vm_compute. reflexivity.
Defined.

(** Every cell of a row the inner loop is through with is a column wide or
    more. *)
Lemma createTable_inner_cellWidth (w : Writer) (cf : list (list gostring)) (l : nat)
    (fields row : list gostring) (fb0 fb hLine prefixHLine : gostring) :
  cf !! l = Some row ->
  forRange (createTableField w cf l fields) (length fields) (fb0, [], [])
  = Some (fb, hLine, prefixHLine) ->
  forall c v, (c < length fields)%nat -> row !! c = Some v -> 1 <= cellWidth w c v.
Proof.
  intros Hrow Hrun c v Hc Hv.
  apply createTable_inner_cells in Hrun as (cells & _ & _ & Hcells).
  destruct (lookup_lt_is_Some_2 fields c Hc) as [field Hfield].
  destruct (Hcells c field Hfield Hc) as (v' & total & lp & rp & Hget & Hpad & _).
  unfold get2 in Hget. rewrite Hrow in Hget. simpl in Hget.
  assert (v' = v) as -> by congruence.
  by destruct (hLineLength_cellWidth w c v total lp rp Hpad) as (_ & ? & _).
Qed.

Lemma rowWidth_take_rest (w : Writer) (row : list gostring) (j c : nat) :
  (forall i v, row !! i = Some v -> 1 <= cellWidth w i v) ->
  (c + j = length row)%nat ->
  rowWidth w (take c row) + Z.of_nat j <= rowWidth w row.
Proof.
  intros Hcw. revert c. induction j as [|j IH]; intros c Hc.
  - rewrite take_ge by lia. lia.
  - destruct (lookup_lt_is_Some_2 row c ltac:(lia)) as [v Hv].
    specialize (IH (Datatypes.S c) ltac:(lia)).
    rewrite (rowWidth_take_S w row c v Hv) in IH.
    specialize (Hcw c v Hv). lia.
Qed.

(** One call of [updateHLine] on a line of [k] glyphs when the terminal has
    room for the segment. *)
Lemma updateHLine_fits (w : Writer) (hLine : gostring) (hLineLength k : Z)
    (l : nat) (isLastRow isLastField : bool) :
  uniformGlyphs (dividers w) ->
  len hLine = len (HLine (dividers w)) * k ->
  1 <= hLineLength <= termCols w - k ->
  updateHLine w hLine hLineLength l isLastRow isLastField
  = Some ((if isLastField then leftEdge (dividers w) l isLastRow else [])
            ++ hLine
            ++ fullSegment (dividers w) l isLastRow isLastField hLineLength).
Proof.
  intros Hu Hk Hn. pose proof Hu as (Hg & _).
  unfold updateHLine.
  replace (len (HLine (dividers w)) =? 0) with false by lia.
  rewrite Hk, (Z.mul_comm (len (HLine (dividers w))) k), Z.quot_mul by lia.
  set (edged := if isLastField then _ else hLine).
  assert (Hedged : edged = (if isLastField then leftEdge (dividers w) l isLastRow else [])
                             ++ hLine).
  { unfold edged, leftEdge. by destruct isLastField, (l =? 0)%nat, isLastRow. }
  set (x := if (l =? 0)%nat && negb isLastField then _ else _).
  assert (Hx : x = junction (dividers w) l isLastRow isLastField).
  { unfold x, junction. by destruct (l =? 0)%nat, isLastRow, isLastField. }
  rewrite Hedged, Hx. clear Hedged Hx edged x.
  rewrite (proj2 (Z.gtb_lt (termCols w - k) 0)) by lia.
  rewrite (proj2 (Z.geb_le (termCols w - k) hLineLength)) by lia.
  unfold Repeat. rewrite (proj2 (Z.ltb_ge (hLineLength - 1) 0)) by lia.
  simpl. unfold fullSegment. by rewrite <- !app_assoc.
Qed.

Lemma imap_take_S {A B : Type} (f : nat -> A -> B) (xs : list A) (i : nat) (x : A) :
  xs !! i = Some x ->
  imap f (take (Datatypes.S i) xs) = imap f (take i xs) ++ [f i x].
Proof.
  intros Hx. rewrite (take_S_r _ _ x Hx), imap_app. simpl.
  rewrite length_take_le by (apply lookup_lt_Some in Hx; lia).
  by rewrite Nat.add_0_r.
Qed.

(** The divider lines after [c] fields of a line whose row fits the terminal:
    a full segment for every field so far, and the left glyph once the last
    field is through. *)
Lemma createTableField_dividers (w : Writer) (cf : list (list gostring)) (l : nat)
    (fields row : list gostring) (fb0 : gostring) (c : nat)
    (fb hLine prefixHLine : gostring) :
  uniformGlyphs (dividers w) ->
  cf !! l = Some row -> length row = length fields ->
  (forall i v, row !! i = Some v -> 1 <= cellWidth w i v) ->
  rowWidth w row <= termCols w ->
  fields <> [] -> (c <= length fields)%nat ->
  forRange (createTableField w cf l fields) c (fb0, [], [])
  = Some (fb, hLine, prefixHLine) ->
  let isLastRow := Z.of_nat l =? len (lines w) - 1 in
  let divider (l' : nat) : gostring :=
    (if (length fields <=? c)%nat then leftEdge (dividers w) l' isLastRow else [])
    ++ concat (imap (fun i v =>
                       fullSegment (dividers w) l' isLastRow
                         (Z.of_nat i =? len fields - 1) (cellWidth w i v))
                    (take c row)) in
  hLine = divider (l + 1)%nat
  /\ prefixHLine = (if (l =? 0)%nat then divider l else [])
  /\ len hLine = len (HLine (dividers w))
                 * (rowWidth w (take c row)
                    + (if (length fields <=? c)%nat then 1 else 0))
  /\ (if (l =? 0)%nat then len prefixHLine = len hLine else True).
Proof.
  intros Hu Hrow Hlen Hcw Hfit Hne Hc Hrun. cbv zeta.
  pose proof Hu as (Hg & _).
  assert (Hn : (0 < length fields)%nat) by (destruct fields; [done|simpl; lia]).
  refine (forRange_invariant
            (fun c st =>
               let '(fb, hLine, prefixHLine) := st in
               hLine
               = (if (length fields <=? c)%nat
                  then leftEdge (dividers w) (l + 1) (Z.of_nat l =? len (lines w) - 1)
                  else [])
                 ++ concat (imap (fun i v =>
                                    fullSegment (dividers w) (l + 1)
                                      (Z.of_nat l =? len (lines w) - 1)
                                      (Z.of_nat i =? len fields - 1) (cellWidth w i v))
                                 (take c row))
               /\ prefixHLine
                  = (if (l =? 0)%nat
                     then (if (length fields <=? c)%nat
                           then leftEdge (dividers w) l (Z.of_nat l =? len (lines w) - 1)
                           else [])
                          ++ concat (imap (fun i v =>
                                             fullSegment (dividers w) l
                                               (Z.of_nat l =? len (lines w) - 1)
                                               (Z.of_nat i =? len fields - 1)
                                               (cellWidth w i v))
                                          (take c row))
                     else [])
               /\ len hLine = len (HLine (dividers w))
                              * (rowWidth w (take c row)
                                 + (if (length fields <=? c)%nat then 1 else 0))
               /\ (if (l =? 0)%nat then len prefixHLine = len hLine else True))
            _ c (fb0, [], []) (fb, hLine, prefixHLine) _ _ Hrun).
  - rewrite take_0. unfold rowWidth. simpl.
    rewrite (proj2 (Nat.leb_gt (length fields) 0) Hn).
    change (len (@nil byte)) with 0.
    split_and!; [done|by destruct (l =? 0)%nat|lia|by destruct (l =? 0)%nat].
  - clear Hrun fb hLine prefixHLine.
    intros i [[fb h] p] [[fb' h'] p'] Hi (Hh & Hp & Hlh & Hlp).
    assert (Hin : (i < length fields)%nat) by lia.
    rewrite (proj2 (Nat.leb_gt (length fields) i) Hin) in Hh, Hp, Hlh.
    unfold createTableField.
    destruct (fields !! i) as [field|]; simpl; [|done].
    destruct (lookup_lt_is_Some_2 row i ltac:(lia)) as [v Hv].
    assert (Hget : get2 cf l i = Some v) by (unfold get2; by rewrite Hrow).
    rewrite Hget.
    destruct (if hasFlag w StripColours then Some v else Some field) as [shown|];
      simpl; [|done].
    destruct (getPadding w i v) as [[[total lp] rp]|] eqn:Hpad; simpl; [|done].
    destruct (hLineLength_cellWidth w i v total lp rp Hpad) as (Hcw' & _ & _).
    rewrite Hcw'.
    assert (Hlf : (Z.of_nat i =? len fields - 1)
                  = (length fields <=? Datatypes.S i)%nat).
    { unfold len. destruct (length fields <=? Datatypes.S i)%nat eqn:E.
      - apply Nat.leb_le in E. apply Z.eqb_eq. lia.
      - apply Nat.leb_gt in E. apply Z.eqb_neq. lia. }
    pose proof (Hcw i v Hv) as Hcw1.
    pose proof (rowWidth_take_rest w row (length row - Datatypes.S i) (Datatypes.S i)
                  Hcw ltac:(lia)) as Hrest.
    rewrite (rowWidth_take_S w row i v Hv) in Hrest.
    rewrite (rowWidth_take_S w row i v Hv).
    repeat (rewrite (imap_take_S _ row i v Hv), concat_app; simpl; rewrite app_nil_r).
    set (S0 := rowWidth w (take i row)) in *.
    set (cw := cellWidth w i v) in *.
    rewrite Z.add_0_r in Hlh.
    assert (Hroom : 1 <= cw <= termCols w - S0) by lia.
    assert (Hstep : forall line l',
               len line = len (HLine (dividers w)) * S0 ->
               exists line',
                 updateHLine w line cw l' (Z.of_nat l =? len (lines w) - 1)
                   (Z.of_nat i =? len fields - 1) = Some line'
                 /\ line' = (if (length fields <=? Datatypes.S i)%nat
                             then leftEdge (dividers w) l'
                                    (Z.of_nat l =? len (lines w) - 1)
                             else [])
                            ++ line
                            ++ fullSegment (dividers w) l'
                                 (Z.of_nat l =? len (lines w) - 1)
                                 (Z.of_nat i =? len fields - 1) cw
                 /\ len line' = len (HLine (dividers w))
                                * (S0 + cw
                                   + (if (length fields <=? Datatypes.S i)%nat
                                      then 1 else 0))).
    { intros line l' Hline. eexists. split; [by apply (updateHLine_fits w line cw S0)|].
      rewrite <- Hlf. split; [done|].
      rewrite (updateHLine_len w line _ cw S0 l' _ _ Hu Hline ltac:(lia)
                 (updateHLine_fits w line cw S0 l' _ _ Hu Hline Hroom)).
      f_equal. rewrite (proj2 (Z.gtb_lt (termCols w - S0) 0)) by lia. lia. }
    destruct (Hstep h (l + 1)%nat Hlh) as (h1 & Hh1 & Hh1eq & Hh1len).
    rewrite Hh1.
    destruct (l =? 0)%nat eqn:Hl0.
    + destruct (Hstep p l ltac:(lia)) as (p1 & Hp1 & Hp1eq & Hp1len).
      rewrite Hp1. simpl. intros [= <- <- <-].
      split_and!; [|    |done|congruence].
      * rewrite Hh1eq, Hh. simpl. by rewrite <- ?app_assoc.
      * rewrite Hp1eq, Hp. simpl. by rewrite <- ?app_assoc.
    + simpl. intros [= <- <- <-].
      split_and!; [|done|done|done].
      rewrite Hh1eq, Hh. simpl. by rewrite <- ?app_assoc.
Qed.

(** X23: the content of the divider lines of a row that fits the terminal.
    When the inner loop of [createTable] is through with the fields of a line
    and the cells of the row take up no more than the width of the terminal
    ([rowWidth <= termCols]), the divider line below the row is the left
    glyph and then, for each field in order, [cellWidth - 1] horizontal
    glyphs (the width of the column and the slack, or the byte length of the
    colourless field with preserve-long-fields) and the junction glyph of the
    position; for the first line the divider line above the row is made the
    same way with the glyphs of the top border, for the other lines it is
    empty. *)
Theorem divider_line_content (w : Writer) (colorlessFields : list (list gostring))
    (l : nat) (fields row : list gostring)
    (formattedBuffer0 formattedBuffer hLine prefixHLine : gostring) :
  uniformGlyphs (dividers w) ->
  colorlessFields !! l = Some row -> length row = length fields -> fields <> [] ->
  rowWidth w row <= termCols w ->
  forRange (createTableField w colorlessFields l fields) (length fields)
    (formattedBuffer0, [], [])
  = Some (formattedBuffer, hLine, prefixHLine) ->
  hLine = fullDivider w (l + 1) (Z.of_nat l =? len (lines w) - 1) row
  /\ prefixHLine
     = (if (l =? 0)%nat then fullDivider w 0 (Z.of_nat l =? len (lines w) - 1) row
        else []).
Proof.
  intros Hu Hrow Hlen Hne Hfit Hrun.
  assert (Hcw : forall i v, row !! i = Some v -> 1 <= cellWidth w i v).
  { intros i v Hv.
    apply (createTable_inner_cellWidth w colorlessFields l fields row
             formattedBuffer0 formattedBuffer hLine prefixHLine Hrow Hrun i v);
      [|done].
    apply lookup_lt_Some in Hv. lia. }
  destruct (createTableField_dividers w colorlessFields l fields row formattedBuffer0
              (length fields) formattedBuffer hLine prefixHLine)
    as (Hh & Hp & _); try done.
  rewrite Nat.leb_refl, take_ge in Hh, Hp by lia.
  unfold fullDivider, len. rewrite Hlen. split; [done|].
  destruct (l =? 0)%nat eqn:Hl0; [|done].
  apply Nat.eqb_eq in Hl0. by subst l.
Qed.

Lemma divider_line_content_witness :
  str "└──┴───┘"
  = fullDivider (writerOf 0 80 [str "a" ++ [TAB] ++ str "bc"] [mkColumn 1; mkColumn 2])
      (0 + 1)
      (Z.of_nat 0
       =? len (lines (writerOf 0 80 [str "a" ++ [TAB] ++ str "bc"]
                        [mkColumn 1; mkColumn 2])) - 1)
      [str "a"; str "bc"]
  /\ str "┌──┬───┐"
     = (if (0 =? 0)%nat
        then fullDivider
               (writerOf 0 80 [str "a" ++ [TAB] ++ str "bc"] [mkColumn 1; mkColumn 2]) 0
               (Z.of_nat 0
                =? len (lines (writerOf 0 80 [str "a" ++ [TAB] ++ str "bc"]
                                 [mkColumn 1; mkColumn 2])) - 1)
               [str "a"; str "bc"]
        else []).
Proof.
  apply (divider_line_content
           (writerOf 0 80 [str "a" ++ [TAB] ++ str "bc"] [mkColumn 1; mkColumn 2])
           [[str "a"; str "bc"]] 0 [str "a"; str "bc"] [str "a"; str "bc"]
           [] (str "│a │bc │")).
  - apply boxDividers_uniform.
  - reflexivity.
  - reflexivity.
  - discriminate.
  - vm_compute. discriminate.
  - vm_compute. reflexivity.
Defined.

(** ** Scenarios *)

(** The table of the README. *)
Example scenario_A :
  render 0 80 (str "Name" ++ [TAB] ++ str "Age" ++ [NL] ++ str "Alice" ++ [TAB] ++ str "30" ++ [NL]
                 ++ str "Bob" ++ [TAB] ++ str "25" ++ [NL])
  = Some (str "┌──────┬────┐" ++ [NL] ++
          str "│Name  │Age │" ++ [NL] ++
          str "├──────┼────┤" ++ [NL] ++
          str "│Alice │30  │" ++ [NL] ++
          str "├──────┼────┤" ++ [NL] ++
          str "│Bob   │25  │" ++ [NL] ++
          str "└──────┴────┘" ++ [NL]).
Proof. vm_compute. reflexivity. Qed.

(** The same with the ASCII glyphs. *)
Example scenario_B :
  render AsciiTable 80
    (str "Name" ++ [TAB] ++ str "Age" ++ [NL] ++ str "Alice" ++ [TAB] ++ str "30" ++ [NL]
       ++ str "Bob" ++ [TAB] ++ str "25" ++ [NL])
  = Some (str "+------+----+" ++ [NL] ++
          str "|Name  |Age |" ++ [NL] ++
          str "+------+----+" ++ [NL] ++
          str "|Alice |30  |" ++ [NL] ++
          str "+------+----+" ++ [NL] ++
          str "|Bob   |25  |" ++ [NL] ++
          str "+------+----+" ++ [NL]).
Proof. vm_compute. reflexivity. Qed.

(** A last field of 200 bytes on a terminal of width 80, in a line of two
    fields: it is cut to [80/2 - 3 - 5 = 32] bytes and the marker. *)
Example scenario_C :
  option_map snd
    (createColumns sampleOrange sampleReset
       (writerOf 0 80 [str "k" ++ [TAB] ++ replicate 200 "x"%byte] []))
  = Some [[str "k"; replicate 32 "x"%byte ++ str "[...]"]].
Proof. vm_compute. reflexivity. Qed.

(** The empty buffer: nothing is rendered, the Writer is cleared. *)
Example scenario_D :
  sampleFlush (NewWriter acceptAll 0 80)
  = (NewWriter acceptAll 0 80, Returned [] false).
Proof. vm_compute. reflexivity. Qed.
